(** * squad-aegis: log watcher manager and server status probes

    A shallow embedding of
      - [internal/logwatcher_manager/logwatcher_manager.go]
        (registry of per-server log connections, reconnect backoff,
        log source construction), and
      - [internal/server/servers.go]
        (log transport health probe, game port reachability check),
    followed by the properties of the specification established on it.

    Conventions.  Go's [int], [uint] and [time.Duration] are 64-bit; they
    are represented by [Z] with the wrap-around written out.  Go strings
    are byte strings and are represented by [string].  A call of the
    manager runs under the manager's lock, so a call is one atomic
    transition of the manager state; the clock reading [now] of a call is
    an argument of the transition. *)

From Stdlib Require Import ZArith Lia Ascii String List.
From stdpp Require Import gmap strings list.

Local Open Scope Z_scope.

(* ===================================================================== *)
(** ** Go primitives used by the source *)
(* ===================================================================== *)

Module Go.

(** Two's complement reduction of an integer to the 64-bit signed range. *)
Definition wrap64 (z : Z) : Z := (z + 2 ^ 63) mod 2 ^ 64 - 2 ^ 63.

Definition maxInt64 : Z := 2 ^ 63 - 1.
Definition minInt64 : Z := - 2 ^ 63.

(** [int] arithmetic. *)
Definition int_add (a b : Z) : Z := wrap64 (a + b).
Definition int_sub (a b : Z) : Z := wrap64 (a - b).
Definition int_mul (a b : Z) : Z := wrap64 (a * b).

(** The conversion [uint(x)] of an [int]. *)
Definition uint (x : Z) : Z := x mod 2 ^ 64.

(** [x << s] on a 64-bit signed operand with an unsigned shift count:
    bits shifted out are lost, a count of 64 or more gives 0. *)
Definition shl64 (x s : Z) : Z :=
  if s <? 64 then wrap64 (Z.shiftl x s) else 0.

(** [time.Duration]: a signed 64-bit count of nanoseconds. *)
Definition Duration : Type := Z.
Definition Nanosecond : Duration := 1.
Definition Millisecond : Duration := 1000000.
Definition Second : Duration := 1000000000.

(** [time.Time]: an instant, as nanoseconds elapsed since the zero value
    [time.Time{}]. *)
Definition Time : Type := Z.
Definition zeroTime : Time := 0.

(** [t.Sub(u)]: the difference of two instants, saturated to the range
    of [Duration] as in the standard library. *)
Definition time_Sub (t u : Time) : Duration :=
  Z.max minInt64 (Z.min maxInt64 (t - u)).

(** [time.Since(t)], with the clock reading given. *)
Definition time_Since (now t : Time) : Duration := time_Sub now t.

(** *** Text

    A Go string is a sequence of bytes; [strings.ToLower] and
    [strings.TrimSpace] read it as UTF-8. *)

Fixpoint string_of_bytes (l : list N) : string :=
  match l with
  | [] => EmptyString
  | b :: l' => String (ascii_of_N b) (string_of_bytes l')
  end.

Fixpoint string_rev (s : string) : string :=
  match s with
  | EmptyString => EmptyString
  | String c s' => (string_rev s' ++ String c EmptyString)%string
  end.

Fixpoint string_drop (n : nat) (s : string) : string :=
  match n, s with
  | S n', String _ s' => string_drop n' s'
  | _, _ => s
  end.

Definition is_ascii (c : ascii) : bool := (N_of_ascii c <? 0x80)%N.

Fixpoint all_ascii (s : string) : bool :=
  match s with
  | EmptyString => true
  | String c s' => is_ascii c && all_ascii s'
  end.

(** [utf8.RuneError] and [utf8.MaxRune]. *)
Definition RuneError : N := 0xFFFD%N.
Definition MaxRune : N := 0x10FFFF%N.

(** What the first byte of an encoding announces: the number of bytes
    that follow and the bounds of the first of them; [None] for a byte
    that starts no encoding. *)
Definition lead (b0 : N) : option (nat * N * N) :=
  (if b0 <? 0xC2 then None
   else if b0 <=? 0xDF then Some (1%nat, 0x80, 0xBF)
   else if b0 =? 0xE0 then Some (2%nat, 0xA0, 0xBF)
   else if b0 <=? 0xEC then Some (2%nat, 0x80, 0xBF)
   else if b0 =? 0xED then Some (2%nat, 0x80, 0x9F)
   else if b0 <=? 0xEF then Some (2%nat, 0x80, 0xBF)
   else if b0 =? 0xF0 then Some (3%nat, 0x90, 0xBF)
   else if b0 <=? 0xF3 then Some (3%nat, 0x80, 0xBF)
   else if b0 =? 0xF4 then Some (3%nat, 0x80, 0x8F)
   else None)%N.

Definition continuation (b : N) : bool := ((0x80 <=? b) && (b <=? 0xBF))%N.

(** The runes of a string, as a [range] loop or [utf8.DecodeRuneInString]
    reads them: a byte that is not part of a valid encoding is one
    [RuneError]. *)
Fixpoint decode_runes (s : string) : list N :=
  match s with
  | EmptyString => []
  | String c0 s1 =>
      let b0 := N_of_ascii c0 in
      if (b0 <? 0x80)%N then b0 :: decode_runes s1
      else
        match lead b0, s1 with
        | Some (n, lo, hi), String c1 s2 =>
            let b1 := N_of_ascii c1 in
            if ((lo <=? b1) && (b1 <=? hi))%N then
              match n, s2 with
              | 1%nat, _ =>
                  N.lor (N.shiftl (N.land b0 0x1F) 6) (N.land b1 0x3F)
                  :: decode_runes s2
              | _, String c2 s3 =>
                  let b2 := N_of_ascii c2 in
                  if continuation b2 then
                    match n, s3 with
                    | 2%nat, _ =>
                        N.lor (N.shiftl (N.land b0 0x0F) 12)
                          (N.lor (N.shiftl (N.land b1 0x3F) 6)
                             (N.land b2 0x3F))
                        :: decode_runes s3
                    | _, String c3 s4 =>
                        let b3 := N_of_ascii c3 in
                        if continuation b3 then
                          N.lor (N.shiftl (N.land b0 0x07) 18)
                            (N.lor (N.shiftl (N.land b1 0x3F) 12)
                               (N.lor (N.shiftl (N.land b2 0x3F) 6)
                                  (N.land b3 0x3F)))
                          :: decode_runes s4
                        else RuneError :: decode_runes s1
                    | _, EmptyString => RuneError :: decode_runes s1
                    end
                  else RuneError :: decode_runes s1
              | _, EmptyString => RuneError :: decode_runes s1
              end
            else RuneError :: decode_runes s1
        | _, _ => RuneError :: decode_runes s1
        end
  end.

(** The encoding of a rune, as [utf8.AppendRune] writes it: a surrogate
    or a value beyond [MaxRune] is written as [RuneError]. *)
Definition encode_rune (r : N) : string :=
  (if r <=? 0x7F then string_of_bytes [r]
   else if r <=? 0x7FF then
     string_of_bytes [N.lor 0xC0 (N.shiftr r 6); N.lor 0x80 (N.land r 0x3F)]
   else if (MaxRune <? r) || ((0xD800 <=? r) && (r <=? 0xDFFF)) then
     string_of_bytes [0xEF; 0xBF; 0xBD]
   else if r <=? 0xFFFF then
     string_of_bytes
       [N.lor 0xE0 (N.shiftr r 12);
        N.lor 0x80 (N.land (N.shiftr r 6) 0x3F);
        N.lor 0x80 (N.land r 0x3F)]
   else
     string_of_bytes
       [N.lor 0xF0 (N.shiftr r 18);
        N.lor 0x80 (N.land (N.shiftr r 12) 0x3F);
        N.lor 0x80 (N.land (N.shiftr r 6) 0x3F);
        N.lor 0x80 (N.land r 0x3F)])%N.

Fixpoint encode_runes (l : list N) : string :=
  match l with
  | [] => EmptyString
  | r :: l' => (encode_rune r ++ encode_runes l')%string
  end.

(** Lower-casing of one ASCII byte. *)
Definition lower_byte (c : ascii) : ascii :=
  let n := N_of_ascii c in
  if ((65 <=? n) && (n <=? 90))%N then ascii_of_N (n + 32) else c.

Fixpoint lower_bytes (s : string) : string :=
  match s with
  | EmptyString => EmptyString
  | String c s' => String (lower_byte c) (lower_bytes s')
  end.

(** [unicode.ToLower]: an ASCII rune is handled directly; for every
    other rune the case tables of the standard library decide.  These
    tables are not part of this development and are the parameter
    [LowerCase]. *)
Definition unicode_ToLower (LowerCase : N -> N) (r : N) : N :=
  (if r <=? 0x7F then
     if (65 <=? r) && (r <=? 90) then r + 32 else r
   else LowerCase r)%N.

(** [strings.ToLower]: a string of ASCII bytes is lower-cased byte by
    byte; any other string is mapped rune by rune, as by
    [strings.Map(unicode.ToLower, s)], so that a byte outside a valid
    encoding comes out as the encoding of what [RuneError] maps to. *)
Definition strings_ToLower (LowerCase : N -> N) (s : string) : string :=
  if all_ascii s then lower_bytes s
  else encode_runes (List.map (unicode_ToLower LowerCase) (decode_runes s)).

(** [strings.Contains(s, substr)]. *)
Fixpoint strings_Contains (s substr : string) : bool :=
  if String.prefix substr s then true
  else match s with
       | EmptyString => false
       | String _ s' => strings_Contains s' substr
       end.

(** The runes for which [unicode.IsSpace] holds: tab, line feed,
    vertical tab, form feed, carriage return, space, U+0085, U+00A0,
    and the other code points of the Unicode property White_Space. *)
Definition space_runes : list N :=
  [ 0x09; 0x0A; 0x0B; 0x0C; 0x0D; 0x20; 0x85; 0xA0; 0x1680;
    0x2000; 0x2001; 0x2002; 0x2003; 0x2004; 0x2005; 0x2006; 0x2007;
    0x2008; 0x2009; 0x200A; 0x2028; 0x2029; 0x202F; 0x205F; 0x3000 ]%N.

Definition space_encodings : list string :=
  List.map encode_rune space_runes.

(** The rest of a string after one of the given byte sequences, when
    the string starts with one. *)
Fixpoint strip_prefix (pats : list string) (s : string) : option string :=
  match pats with
  | [] => None
  | p :: pats' =>
      if String.prefix p s then Some (string_drop (String.length p) s)
      else strip_prefix pats' s
  end.

(** Stripping such sequences from the front for as long as there is
    one; the length of the string bounds the number of rounds. *)
Fixpoint strip_all (pats : list string) (rounds : nat) (s : string)
    : string :=
  match rounds with
  | O => s
  | S rounds' =>
      match strip_prefix pats s with
      | Some rest => strip_all pats rounds' rest
      | None => s
      end
  end.

(** [strings.TrimLeftFunc(s, unicode.IsSpace)]: the leading runes that
    are white space are dropped.  A rune read from the front is white
    space exactly when the string starts with the encoding of a white
    space rune. *)
Definition trim_left (s : string) : string :=
  strip_all space_encodings (String.length s) s.

(** [strings.TrimRightFunc(s, unicode.IsSpace)]: the same from the back.
    [utf8.DecodeLastRuneInString] reads a white space rune exactly when
    the string ends with the encoding of one. *)
Definition trim_right (s : string) : string :=
  string_rev
    (strip_all (List.map string_rev space_encodings) (String.length s)
       (string_rev s)).

(** [strings.TrimSpace]: white space in the sense of [unicode.IsSpace]
    is trimmed on both sides. *)
Definition strings_TrimSpace (s : string) : string :=
  trim_right (trim_left s).

End Go.

(* ===================================================================== *)
(** ** Package logwatcher_manager *)
(* ===================================================================== *)

Module logwatcher_manager.
Import Go.

(** [uuid.UUID]: a 128-bit identifier. *)
Definition UUID : Type := N.

(** [type LogSourceType string]. *)
Definition LogSourceType : Type := string.

(** Modelled from the spec: the constants [LogSourceTypeLocal],
    [LogSourceTypeSFTP] and [LogSourceTypeFTP] are declared in a file of
    the package that is not part of this development; the server catalog
    stores [log_source_type] as one of [local], [sftp], [ftp]. *)
Definition LogSourceTypeLocal : LogSourceType := "local".
Definition LogSourceTypeSFTP : LogSourceType := "sftp".
Definition LogSourceTypeFTP : LogSourceType := "ftp".

(** [LogSourceConfig], with the fields the manager reads. *)
Record LogSourceConfig : Type := mkConfig {
  Type_ : LogSourceType;
  FilePath : string;
  Host : string;
  Port : Z;
  Username : string;
  Password : string;
  PollFrequency : Duration;
  ReadFromStart : bool
}.

(** Errors, by the expression that builds them. *)
Inductive error : Type :=
| errors_New (msg : string)
    (* errors.New(msg) *)
| ErrUnsupportedType (t : LogSourceType)
    (* fmt.Errorf("unsupported log source type: %s", config.Type) *)
| ErrReconnectDelayed (remainingDelay : Duration)
    (* fmt.Errorf("reconnection delayed, try again in %v", remainingDelay) *)
| ErrReconnectFailed (cause : error)
    (* fmt.Errorf("failed to reconnect to log source: %w", err) *)
| ErrCreateFailed (cause : error).
    (* fmt.Errorf("failed to create log source: %w", err) *)

(** The three log source constructors are defined outside this
    development; a log source is represented by the constructor call
    that builds it. *)
Inductive SourceCall : Type :=
| NewLocalFileSource (filePath : string)
| NewSFTPSource (host : string) (port : Z) (username password filePath : string)
    (pollFrequency : Duration) (readFromStart : bool)
| NewFTPSource (host : string) (port : Z) (username password filePath : string)
    (pollFrequency : Duration) (readFromStart : bool).

Definition is_empty (s : string) : bool := String.eqb s "".

(** [createLogSource]: the constructor call made for a configuration, or
    the error returned. *)
Definition createLogSource (config : LogSourceConfig) : SourceCall + error :=
  if String.eqb (Type_ config) LogSourceTypeLocal then
    if is_empty (FilePath config) then
      inr (errors_New "file path is required for local log source")
    else inl (NewLocalFileSource (FilePath config))
  else if String.eqb (Type_ config) LogSourceTypeSFTP then
    if is_empty (Host config) || is_empty (Username config)
       || is_empty (FilePath config) then
      inr (errors_New
             "host, username, and file path are required for SFTP log source")
    else if is_empty (Password config) then
      inr (errors_New "password is required for SFTP log source")
    else
      let port := if Port config =? 0 then 22 else Port config in
      let pollFrequency :=
        if PollFrequency config =? 0 then int_mul 5 Second
        else PollFrequency config in
      inl (NewSFTPSource (Host config) port (Username config)
             (Password config) (FilePath config) pollFrequency
             (ReadFromStart config))
  else if String.eqb (Type_ config) LogSourceTypeFTP then
    if is_empty (Host config) || is_empty (Username config)
       || is_empty (Password config) || is_empty (FilePath config) then
      inr (errors_New
             "host, username, password, and file path are required for FTP log source")
    else
      let port := if Port config =? 0 then 21 else Port config in
      let pollFrequency :=
        if PollFrequency config =? 0 then int_mul 5 Second
        else PollFrequency config in
      inl (NewFTPSource (Host config) port (Username config)
             (Password config) (FilePath config) pollFrequency
             (ReadFromStart config))
  else inr (ErrUnsupportedType (Type_ config)).

(** [calculateReconnectDelay]. *)
Definition baseDelay : Duration := int_mul 5 Second.
Definition maxDelay : Duration := int_mul 60 Second.

Definition calculateReconnectDelay (attempts : Z) : Duration :=
  if attempts =? 0 then 0
  else
    let delay := int_mul baseDelay (shl64 1 (uint (int_sub attempts 1))) in
    if delay >? maxDelay then maxDelay else delay.

(** *** Manager state

    Contexts are numbered: [rootCtx] is the manager's [m.ctx]; every
    [context.WithCancel(m.ctx)] derives the next number.  Log source
    objects are numbered in allocation order.  What the manager does to
    contexts, sources and goroutines is recorded in [events], newest
    first. *)

Definition Ctx : Type := nat.
Definition rootCtx : Ctx := 0%nat.

(** A log source object: its address and the constructor call that
    built it. *)
Record SourceObj : Type := mkSource {
  addr : nat;
  built_by : SourceCall
}.

(** What happens to contexts, sources and watcher goroutines. *)
Inductive Event : Type :=
| EvCancel (c : Ctx)
    (* the CancelFunc of context c is called *)
| EvClose (s : SourceObj)
    (* s.Close() *)
| EvWatch (c : Ctx) (serverID : UUID) (s : SourceObj)
    (* go m.watchLogs(c, serverID, conn), with conn.LogSource = s *)
| EvExit (s : SourceObj).
    (* the watcher reading s returns after losing its line channel *)

(** The event store and the metrics of a connection are built outside
    this development and are not written by the manager; they are
    represented by the call that builds them. *)
Inductive EventStoreInterface : Type :=
| NewEventStore (serverID : UUID).

Inductive LogParsingMetrics : Type :=
| NewLogParsingMetrics.

(** [ServerLogConnection].  [LogSource] is [None] for a nil interface
    value; [cancel] is the context whose [CancelFunc] the field holds.
    The mutex is not represented: every access below happens with it
    held. *)
Record ServerLogConnection : Type := mkConn {
  ServerID : UUID;
  LogSource : option SourceObj;
  Config : LogSourceConfig;
  EventStore : EventStoreInterface;
  Metrics : LogParsingMetrics;
  Connected : bool;
  LastUsed : Time;
  cancel : Ctx;
  reconnectAttempts : Z;
  lastReconnectTime : Time
}.

(** [LogwatcherManager]: the registry, with the number of contexts
    derived from the root context, the number of source objects
    allocated, and the events so far.  The collaborators handed to
    [NewLogwatcherManager] never change and are left out. *)
Record LogwatcherManager : Type := mkManager {
  connections : gmap UUID ServerLogConnection;
  derived : nat;
  allocated : nat;
  events : list Event
}.

(** [ServerConnectionStatus]. *)
Record ServerConnectionStatus : Type := mkStatus {
  status_Connected : bool;
  status_Config : LogSourceConfig;
  status_LastUsed : Time
}.

(** Field updates. *)
Definition set_Connected (b : bool) (conn : ServerLogConnection) :=
  mkConn (ServerID conn) (LogSource conn) (Config conn) (EventStore conn)
    (Metrics conn) b (LastUsed conn) (cancel conn)
    (reconnectAttempts conn) (lastReconnectTime conn).

Definition set_LastUsed (t : Time) (conn : ServerLogConnection) :=
  mkConn (ServerID conn) (LogSource conn) (Config conn) (EventStore conn)
    (Metrics conn) (Connected conn) t (cancel conn)
    (reconnectAttempts conn) (lastReconnectTime conn).

Definition set_LogSource (s : option SourceObj) (conn : ServerLogConnection) :=
  mkConn (ServerID conn) s (Config conn) (EventStore conn)
    (Metrics conn) (Connected conn) (LastUsed conn) (cancel conn)
    (reconnectAttempts conn) (lastReconnectTime conn).

Definition set_Config (c : LogSourceConfig) (conn : ServerLogConnection) :=
  mkConn (ServerID conn) (LogSource conn) c (EventStore conn)
    (Metrics conn) (Connected conn) (LastUsed conn) (cancel conn)
    (reconnectAttempts conn) (lastReconnectTime conn).

Definition set_reconnectAttempts (n : Z) (conn : ServerLogConnection) :=
  mkConn (ServerID conn) (LogSource conn) (Config conn) (EventStore conn)
    (Metrics conn) (Connected conn) (LastUsed conn) (cancel conn)
    n (lastReconnectTime conn).

Definition set_lastReconnectTime (t : Time) (conn : ServerLogConnection) :=
  mkConn (ServerID conn) (LogSource conn) (Config conn) (EventStore conn)
    (Metrics conn) (Connected conn) (LastUsed conn) (cancel conn)
    (reconnectAttempts conn) t.

(** [m.connections[serverID] = conn], also used for a write through the
    record pointer held in the map. *)
Definition store (serverID : UUID) (conn : ServerLogConnection)
    (m : LogwatcherManager) : LogwatcherManager :=
  mkManager (<[serverID := conn]> (connections m)) (derived m) (allocated m)
    (events m).

(** Recording an event. *)
Definition emit (e : Event) (m : LogwatcherManager) : LogwatcherManager :=
  mkManager (connections m) (derived m) (allocated m) (e :: events m).

(** [conn.LogSource.Close()] behind its nil test. *)
Definition close_source (s : option SourceObj) (m : LogwatcherManager)
    : LogwatcherManager :=
  match s with
  | Some src => emit (EvClose src) m
  | None => m
  end.

(** Allocation of the object a constructor call returns. *)
Definition alloc_source (call : SourceCall) (m : LogwatcherManager)
    : SourceObj * LogwatcherManager :=
  (mkSource (allocated m) call,
   mkManager (connections m) (derived m) (S (allocated m)) (events m)).

(** [context.WithCancel(m.ctx)]. *)
Definition context_WithCancel (m : LogwatcherManager)
    : Ctx * LogwatcherManager :=
  (S (derived m),
   mkManager (connections m) (S (derived m)) (allocated m) (events m)).

(** [NewLogwatcherManager]. *)
Definition NewLogwatcherManager : LogwatcherManager :=
  mkManager ∅ 0 0 [].

(** [ConnectToServer]: the next state and the error returned ([None] is
    [nil]).  The test of the reconnect gate and every [time.Now] of the
    call read the clock as [now]; a refusal reads it once more, as
    [later], for the remainder it reports. *)
Definition ConnectToServer (m : LogwatcherManager) (serverID : UUID)
    (config : LogSourceConfig) (now later : Time)
    : LogwatcherManager * option error :=
  match connections m !! serverID with
  | Some conn =>
      if negb (Connected conn) then
        let delay := calculateReconnectDelay (reconnectAttempts conn) in
        if time_Since now (lastReconnectTime conn) <? delay then
          let remainingDelay :=
            int_sub delay (time_Since later (lastReconnectTime conn)) in
          (m, Some (ErrReconnectDelayed remainingDelay))
        else
          let conn1 :=
            set_lastReconnectTime now
              (set_reconnectAttempts (int_add (reconnectAttempts conn) 1)
                 conn) in
          match createLogSource config with
          | inr err => (store serverID conn1 m, Some (ErrReconnectFailed err))
          | inl call =>
              let '(logSource, m1) := alloc_source call m in
              let m2 := close_source (LogSource conn1) m1 in
              let conn2 :=
                set_reconnectAttempts 0
                  (set_LastUsed now
                     (set_Connected true
                        (set_Config config
                           (set_LogSource (Some logSource) conn1)))) in
              (emit (EvWatch rootCtx serverID logSource)
                 (store serverID conn2 m2), None)
          end
      else (store serverID (set_LastUsed now conn) m, None)
  | None =>
      match createLogSource config with
      | inr err => (m, Some (ErrCreateFailed err))
      | inl call =>
          let '(logSource, m1) := alloc_source call m in
          let '(ctx, m2) := context_WithCancel m1 in
          let conn :=
            mkConn serverID (Some logSource) config (NewEventStore serverID)
              NewLogParsingMetrics true now ctx 0 zeroTime in
          (emit (EvWatch ctx serverID logSource) (store serverID conn m2),
           None)
      end
  end.

(** [DisconnectFromServer]. *)
Definition DisconnectFromServer (m : LogwatcherManager) (serverID : UUID)
    : LogwatcherManager * option error :=
  match connections m !! serverID with
  | None => (m, Some (errors_New "server log connection not found"))
  | Some conn =>
      if negb (Connected conn) then
        (m, Some (errors_New "server log connection already disconnected"))
      else
        let m1 := emit (EvCancel (cancel conn)) m in
        let m2 := close_source (LogSource conn) m1 in
        (store serverID (set_Connected false conn) m2, None)
  end.

(** [GetServerConnectionStatus]. *)
Definition GetServerConnectionStatus (m : LogwatcherManager)
    (serverID : UUID) : ServerConnectionStatus + error :=
  match connections m !! serverID with
  | None => inr (errors_New "server connection not found")
  | Some conn =>
      inl (mkStatus (Connected conn) (Config conn) (LastUsed conn))
  end.

(** The events of one round of the loop of [cleanupAllConnections],
    newest first: a connected record has its cancel function called and
    its source closed. *)
Definition cleanup_events (conn : ServerLogConnection) : list Event :=
  if Connected conn then
    match LogSource conn with
    | Some src => [EvClose src; EvCancel (cancel conn)]
    | None => [EvCancel (cancel conn)]
    end
  else [].

(** [cleanupAllConnections]: every connected record is cancelled, closed
    and marked disconnected; no record is removed.  (The records are
    visited in the order of [map_to_list]; Go leaves the iteration order
    of a map open.) *)
Definition cleanupAllConnections (m : LogwatcherManager)
    : LogwatcherManager :=
  mkManager (set_Connected false <$> connections m) (derived m) (allocated m)
    (flat_map (fun p => cleanup_events (snd p))
       (reverse (map_to_list (connections m))) ++ events m).

(** [Shutdown]: cancels the root context. *)
Definition Shutdown (m : LogwatcherManager) : LogwatcherManager :=
  emit (EvCancel rootCtx) m.

(** [StartConnectionManager] blocks until the root context is done and
    then runs [cleanupAllConnections]; this is the state it leaves once
    [Shutdown] has been called. *)
Definition shutdown_and_cleanup (m : LogwatcherManager) : LogwatcherManager :=
  cleanupAllConnections (Shutdown m).

(** The two places where a watcher goroutine writes to its record.
    [watchLogs_lost]: [Watch] failed or the line channel was closed; the
    watcher marks the record disconnected and returns.
    [watchLogs_line]: a line was received; [LastUsed] is refreshed. *)
Definition watchLogs_lost (m : LogwatcherManager) (serverID : UUID)
    (s : SourceObj) : LogwatcherManager :=
  match connections m !! serverID with
  | Some conn => emit (EvExit s) (store serverID (set_Connected false conn) m)
  | None => m
  end.

Definition watchLogs_line (m : LogwatcherManager) (serverID : UUID)
    (now : Time) : LogwatcherManager :=
  match connections m !! serverID with
  | Some conn => store serverID (set_LastUsed now conn) m
  | None => m
  end.

(** *** Further methods of the manager *)

(** The text [err.Error()] of an error.  How [%v] prints a [Duration]
    belongs to the standard library and is a parameter. *)
Fixpoint error_Error (Duration_String : Duration -> string) (e : error)
    : string :=
  match e with
  | errors_New msg => msg
  | ErrUnsupportedType t => "unsupported log source type: " ++ t
  | ErrReconnectDelayed remainingDelay =>
      "reconnection delayed, try again in " ++ Duration_String remainingDelay
  | ErrReconnectFailed cause =>
      "failed to reconnect to log source: "
      ++ error_Error Duration_String cause
  | ErrCreateFailed cause =>
      "failed to create log source: " ++ error_Error Duration_String cause
  end.

(** The nil test of a metrics pointer: the pointer [NewLogParsingMetrics]
    returns is not nil. *)
Definition is_nil_metrics (p : LogParsingMetrics) : bool :=
  match p with
  | NewLogParsingMetrics => false
  end.

(** [GetServerMetrics]: the metrics object whose snapshot is returned,
    or the error. *)
Definition GetServerMetrics (m : LogwatcherManager) (serverID : UUID)
    : LogParsingMetrics + error :=
  match connections m !! serverID with
  | None => inr (errors_New "server connection not found")
  | Some conn =>
      if negb (Connected conn) || is_nil_metrics (Metrics conn) then
        inr (errors_New "server not connected or metrics not available")
      else inl (Metrics conn)
  end.

(** The integer entries of the map [GetConnectionStats] returns.  (Its
    other entries are floating-point aggregates of the metrics
    snapshots, which are computed outside this development.) *)
Record ConnectionStats : Type := mkStats {
  total_connections : Z;
  connected_connections : Z;
  disconnected_connections : Z;
  source_types : gmap string Z
}.

(** [sourceTypes[key]++] on a Go map: a missing key counts as 0. *)
Definition incr (key : string) (sourceTypes : gmap string Z)
    : gmap string Z :=
  <[key := default 0 (sourceTypes !! key) + 1]> sourceTypes.

(** One round of the loop of [GetConnectionStats] on the counters
    [connectedCount], [disconnectedCount] and [sourceTypes].  (The
    counters cannot overflow: a map holds fewer than [2^63] records.) *)
Definition stats_round (conn : ServerLogConnection)
    (acc : Z * Z * gmap string Z) : Z * Z * gmap string Z :=
  let '(connectedCount, disconnectedCount, sourceTypes) := acc in
  let '(connectedCount, disconnectedCount) :=
    if Connected conn then (connectedCount + 1, disconnectedCount)
    else (connectedCount, disconnectedCount + 1) in
  (connectedCount, disconnectedCount, incr (Type_ (Config conn)) sourceTypes).

(** [GetConnectionStats]. *)
Definition GetConnectionStats (m : LogwatcherManager) : ConnectionStats :=
  let '(connectedCount, disconnectedCount, sourceTypes) :=
    map_fold (fun _ conn acc => stats_round conn acc) (0, 0, ∅)
      (connections m) in
  mkStats (Z.of_nat (size (connections m))) connectedCount disconnectedCount
    sourceTypes.

(** A row of the query of [ConnectToAllServers]: the variables [Scan]
    fills; a nullable column is an [option]. *)
Record LogRow : Type := mkRow {
  row_id : UUID;
  logSourceType : option string;
  logFilePath : option string;
  logHost : option string;
  logPort : option Z;
  logUsername : option string;
  logPassword : option string;
  logPollFrequency : option Z;
  logReadFromStart : option bool
}.

(** The configuration [ConnectToAllServers] builds from a row; [None]
    when the row is skipped for a missing source type or file path. *)
Definition row_config (r : LogRow) : option LogSourceConfig :=
  match logSourceType r, logFilePath r with
  | Some t, Some p =>
      Some (mkConfig t p
              (default "" (logHost r))
              (default 0 (logPort r))
              (default "" (logUsername r))
              (default "" (logPassword r))
              (match logPollFrequency r with
               | Some f => int_mul f Second
               | None => 0
               end)
              (default false (logReadFromStart r)))
  | _, _ => None
  end.

(** The loop of [ConnectToAllServers] from its [k]-th round on.  A row
    that [Scan] could not read is [None]; the connect call of round [k]
    reads the clock as [clock k] and, where it reads it again, as
    [later k].  A failed connect is logged and the loop goes on. *)
Fixpoint connect_rows (clock later : nat -> Time) (k : nat)
    (m : LogwatcherManager) (rows : list (option LogRow))
    : LogwatcherManager :=
  match rows with
  | [] => m
  | None :: rows' => connect_rows clock later (S k) m rows'
  | Some r :: rows' =>
      match row_config r with
      | None => connect_rows clock later (S k) m rows'
      | Some config =>
          connect_rows clock later (S k)
            (fst (ConnectToServer m (row_id r) config (clock k) (later k)))
            rows'
      end
  end.

(** [ConnectToAllServers]; [queried] is [None] when the query fails. *)
Definition ConnectToAllServers (m : LogwatcherManager)
    (queried : option (list (option LogRow))) (clock later : nat -> Time)
    : LogwatcherManager :=
  match queried with
  | None => m
  | Some rows => connect_rows clock later 0 m rows
  end.

End logwatcher_manager.

(* ===================================================================== *)
(** ** Package server: status probes *)
(* ===================================================================== *)

Module server.
Import Go logwatcher_manager.

Definition statusUDPProbeTimeout : Duration := int_mul 1500 Millisecond.
Definition statusRCONProbeTimeout : Duration := int_mul 5 Second.
Definition statusLogProbeTimeout : Duration := int_mul 5 Second.

(** [logTransportStatus]. *)
Record logTransportStatus : Type := mkLTS {
  Enabled : bool;
  SourceType : string;
  Healthy : bool;
  Reason : string
}.

Definition set_Healthy (b : bool) (st : logTransportStatus) :=
  mkLTS (Enabled st) (SourceType st) b (Reason st).

Definition set_Reason (r : string) (st : logTransportStatus) :=
  mkLTS (Enabled st) (SourceType st) (Healthy st) r.

(** [models.Server], with the fields the probes read; a [*string] or
    [*int] field is an [option]. *)
Record Server : Type := mkServer {
  Id : UUID;
  IpAddress : string;
  GamePort : Z;
  LogSourceType_ : option string;
  LogFilePath : option string;
  LogHost : option string;
  LogPort : option Z;
  LogUsername : option string;
  LogPassword : option string
}.

(** An error value returned by the operating system or a network
    library, as far as the probes inspect it. *)
Record GoError : Type := mkError {
  Error : string;        (* err.Error() *)
  is_EOF : bool;         (* errors.Is(err, io.EOF) *)
  net_Timeout : bool     (* errors.As(err, &netErr) && netErr.Timeout() *)
}.

(** [os.FileInfo]. *)
Record FileInfo : Type := mkFileInfo { IsDir : bool }.

(** The outcome of each external operation a probe performs ([None] is
    a nil error), and the case tables of the standard library that
    [strings.ToLower] consults for a rune outside ASCII.  A network
    address is the pair of host and port that [net.JoinHostPort] joins. *)
Record World : Type := mkWorld {
  unicode_LowerCase : N -> N;
  os_Stat : string -> FileInfo + GoError;
  os_Open : string -> option GoError;
  file_Read : string -> option GoError;
  ssh_Dial : string -> Z -> string -> string -> option GoError;
  sftp_NewClient : string -> Z -> option GoError;
  sftp_Stat : string -> option GoError;
  ftp_Dial : string -> Z -> option GoError;
  ftp_Login : string -> string -> option GoError;
  ftp_FileSize : string -> option GoError;
  net_DialTimeout : string -> Z -> option GoError;
  conn_SetDeadline : option GoError;
  conn_Write : option GoError;
  conn_Read : option GoError
}.

(** [trimmedStringPtr]. *)
Definition trimmedStringPtr (value : option string) : string :=
  match value with
  | None => ""
  | Some v => strings_TrimSpace v
  end.

(** [mapProbeErrorReason]. *)
Definition mapProbeErrorReason (LowerCase : N -> N) (err : option GoError)
    : string :=
  match err with
  | None => ""
  | Some e =>
      let errText := strings_ToLower LowerCase (Error e) in
      if strings_Contains errText "permission"
         || strings_Contains errText "denied" then "permission_denied"
      else if strings_Contains errText "auth"
              || strings_Contains errText "login"
              || strings_Contains errText "password" then
        "authentication_failed"
      else if strings_Contains errText "no such file"
              || strings_Contains errText "not found"
              || strings_Contains errText "cannot find" then
        "log_file_not_found"
      else if strings_Contains errText "timeout"
              || strings_Contains errText "deadline exceeded" then "timeout"
      else if strings_Contains errText "refused"
              || strings_Contains errText "unreachable"
              || strings_Contains errText "reset" then "connection_failed"
      else "probe_failed"
  end.

Definition unhealthy (reason : string) (status : logTransportStatus) :=
  set_Reason reason (set_Healthy false status).

Definition healthy (status : logTransportStatus) :=
  set_Reason "" (set_Healthy true status).

(** [buildBaseLogTransportStatus]. *)
Definition buildBaseLogTransportStatus (LowerCase : N -> N) (server : Server)
    : logTransportStatus :=
  let sourceType := trimmedStringPtr (LogSourceType_ server) in
  let filePath := trimmedStringPtr (LogFilePath server) in
  if is_empty sourceType || is_empty filePath then
    mkLTS false "" false "not_configured"
  else mkLTS true (strings_ToLower LowerCase sourceType) false "".

(** [probeLocalLogTransport]. *)
Definition probeLocalLogTransport (w : World) (filePath : string)
    (status : logTransportStatus) : logTransportStatus :=
  match os_Stat w filePath with
  | inr err => unhealthy (mapProbeErrorReason (unicode_LowerCase w) (Some err)) status
  | inl info =>
      if IsDir info then unhealthy "log_path_is_directory" status
      else
        match os_Open w filePath with
        | Some err => unhealthy (mapProbeErrorReason (unicode_LowerCase w) (Some err)) status
        | None =>
            match file_Read w filePath with
            | Some err =>
                if negb (is_EOF err) then
                  unhealthy (mapProbeErrorReason (unicode_LowerCase w) (Some err)) status
                else healthy status
            | None => healthy status
            end
        end
  end.

(** The port a remote probe dials: the configured one when present and
    positive, the protocol's default otherwise. *)
Definition probe_port (default : Z) (logPort : option Z) : Z :=
  match logPort with
  | Some p => if p >? 0 then p else default
  | None => default
  end.

(** [probeSFTPLogTransport]. *)
Definition probeSFTPLogTransport (w : World) (server : Server)
    (filePath : string) (status : logTransportStatus) : logTransportStatus :=
  let host := trimmedStringPtr (LogHost server) in
  let username := trimmedStringPtr (LogUsername server) in
  let password := trimmedStringPtr (LogPassword server) in
  if is_empty host || is_empty username || is_empty password then
    unhealthy "missing_sftp_credentials" status
  else
    let port := probe_port 22 (LogPort server) in
    match ssh_Dial w host port username password with
    | Some err => unhealthy (mapProbeErrorReason (unicode_LowerCase w) (Some err)) status
    | None =>
        match sftp_NewClient w host port with
        | Some err => unhealthy (mapProbeErrorReason (unicode_LowerCase w) (Some err)) status
        | None =>
            match sftp_Stat w filePath with
            | Some err => unhealthy (mapProbeErrorReason (unicode_LowerCase w) (Some err)) status
            | None => healthy status
            end
        end
    end.

(** [probeFTPLogTransport]. *)
Definition probeFTPLogTransport (w : World) (server : Server)
    (filePath : string) (status : logTransportStatus) : logTransportStatus :=
  let host := trimmedStringPtr (LogHost server) in
  let username := trimmedStringPtr (LogUsername server) in
  let password := trimmedStringPtr (LogPassword server) in
  if is_empty host || is_empty username || is_empty password then
    unhealthy "missing_ftp_credentials" status
  else
    let port := probe_port 21 (LogPort server) in
    match ftp_Dial w host port with
    | Some err => unhealthy (mapProbeErrorReason (unicode_LowerCase w) (Some err)) status
    | None =>
        match ftp_Login w username password with
        | Some err => unhealthy (mapProbeErrorReason (unicode_LowerCase w) (Some err)) status
        | None =>
            match ftp_FileSize w filePath with
            | Some err => unhealthy (mapProbeErrorReason (unicode_LowerCase w) (Some err)) status
            | None => healthy status
            end
        end
    end.

(** The part of [testLogTransportFunctionality] that consults the log
    watcher manager ([None] is a nil [s.Dependencies.LogwatcherManager]). *)
Definition consult_manager (manager : option LogwatcherManager)
    (server : Server) (includeLogProbe : bool)
    (status : logTransportStatus) : logTransportStatus :=
  match manager with
  | None => status
  | Some m =>
      match GetServerConnectionStatus m (Id server) with
      | inr _ => status
      | inl connStatus =>
          let status1 := set_Healthy (status_Connected connStatus) status in
          let status2 :=
            if negb (Healthy status1) && negb includeLogProbe then
              set_Reason "logwatcher_disconnected" status1
            else status1 in
          if Healthy status2 then set_Reason "" status2 else status2
      end
  end.

(** [testLogTransportFunctionality]. *)
Definition testLogTransportFunctionality (w : World)
    (manager : option LogwatcherManager) (server : Server)
    (includeLogProbe : bool) : logTransportStatus :=
  let status := buildBaseLogTransportStatus (unicode_LowerCase w) server in
  if negb (Enabled status) then status
  else
    let status := consult_manager manager server includeLogProbe status in
    if negb includeLogProbe then
      if negb (Healthy status) && is_empty (Reason status) then
        set_Reason "probe_not_requested" status
      else status
    else
      let filePath := trimmedStringPtr (LogFilePath server) in
      if String.eqb (SourceType status) LogSourceTypeLocal then
        probeLocalLogTransport w filePath status
      else if String.eqb (SourceType status) LogSourceTypeSFTP then
        probeSFTPLogTransport w server filePath status
      else if String.eqb (SourceType status) LogSourceTypeFTP then
        probeFTPLogTransport w server filePath status
      else unhealthy "unsupported_source_type" status.

(** [checkUDPPort]. *)
Definition checkUDPPort (w : World) (ipAddress : string) (port : Z) : bool :=
  match net_DialTimeout w ipAddress port with
  | Some _ => false
  | None =>
      match conn_SetDeadline w with
      | Some _ => false
      | None =>
          match conn_Write w with
          | Some _ => false
          | None =>
              match conn_Read w with
              | None => true
              | Some err => if net_Timeout err then true else false
              end
          end
      end
  end.

(** *** The log watcher in the request handlers *)

(** [models.Server] with the two further log fields the handlers
    read. *)
Record ServerLog : Type := mkServerLog {
  base : Server;
  LogPollFrequency : option Z;
  LogReadFromStart : option bool
}.

(** The configuration the handlers build from a server before they call
    [ConnectToServer]; [None] when the source type or the file path is
    nil and no call is made. *)
Definition log_config (server : ServerLog) : option LogSourceConfig :=
  match LogSourceType_ (base server), LogFilePath (base server) with
  | Some t, Some p =>
      Some (mkConfig t p
              (default "" (LogHost (base server)))
              (default 0 (LogPort (base server)))
              (default "" (LogUsername (base server)))
              (default "" (LogPassword (base server)))
              (match LogPollFrequency server with
               | Some f => int_mul f Second
               | None => 0
               end)
              (default false (LogReadFromStart server)))
  | _, _ => None
  end.

(** The responses of the handlers, by helper and message. *)
Inductive Response : Type :=
| BadRequest (message : string)
| Success (message : string).

(** The normalisation of the log source type in [ServerUpdate]: the
    type to store, or the response that rejects the request. *)
Definition normalize_LogSourceType (requested : option string)
    : option string + Response :=
  match requested with
  | None => inl None
  | Some v =>
      let logSourceType := strings_TrimSpace v in
      if String.eqb logSourceType "" then inl None
      else if String.eqb logSourceType "local"
              || String.eqb logSourceType "sftp"
              || String.eqb logSourceType "ftp" then
        inl (Some logSourceType)
      else inr (BadRequest "Invalid log source type")
  end.

(** The step of [ServerUpdate] that follows the database update: connect
    with the configuration when there is one, disconnect otherwise; the
    error of either call is dropped. *)
Definition ServerUpdate_logwatcher (m : LogwatcherManager)
    (server : ServerLog) (now later : Time) : LogwatcherManager :=
  match log_config server with
  | Some config =>
      fst (ConnectToServer m (Id (base server)) config now later)
  | None => fst (DisconnectFromServer m (Id (base server)))
  end.

(** Whether [ServerLogwatcherRestart] gives up on the error of its
    disconnect. *)
Definition disconnect_failed (Duration_String : Duration -> string)
    (err : option error) : bool :=
  match err with
  | None => false
  | Some e =>
      negb (String.eqb (error_Error Duration_String e)
              "server log connection not found")
      && negb (String.eqb (error_Error Duration_String e)
                 "server log connection already disconnected")
  end.

(** [ServerLogwatcherRestart], from the test of the configuration on
    (the server has been read from the database; the audit entry written
    on success is left out). *)
Definition ServerLogwatcherRestart (Duration_String : Duration -> string)
    (m : LogwatcherManager) (server : ServerLog) (now later : Time)
    : LogwatcherManager * Response :=
  match log_config server with
  | None => (m, BadRequest "Server does not have log watcher configuration")
  | Some config =>
      let '(m1, err) := DisconnectFromServer m (Id (base server)) in
      if disconnect_failed Duration_String err then
        (m1, BadRequest "Failed to disconnect from log watcher")
      else
        let '(m2, err) :=
          ConnectToServer m1 (Id (base server)) config now later in
        match err with
        | Some _ => (m2, BadRequest "Failed to reconnect to log watcher")
        | None => (m2, Success "Log watcher restarted successfully")
        end
  end.

End server.

Import Go logwatcher_manager server.

(* ===================================================================== *)
(** ** Notions used by the properties *)
(* ===================================================================== *)

(** *** Log source construction, in the words of the specification *)

(** The requirement of the specification, in its words: the file path is
    always required; host, user name and password are required for the
    remote variants; the source type must be a known one. *)
Definition MissingRequired (config : LogSourceConfig) : Prop :=
  (Type_ config = "local" /\ FilePath config = "") \/
  (Type_ config = "sftp" /\
   (Host config = "" \/ Username config = "" \/ Password config = ""
    \/ FilePath config = "")) \/
  (Type_ config = "ftp" /\
   (Host config = "" \/ Username config = "" \/ Password config = ""
    \/ FilePath config = "")) \/
  (Type_ config <> "local" /\ Type_ config <> "sftp" /\ Type_ config <> "ftp").

(** A value with its default: the default replaces zero. *)
Definition or_default (default value : Z) : Z :=
  if value =? 0 then default else value.

(** The source the specification expects for a configuration. *)
Definition ExpectedSource (config : LogSourceConfig) (s : SourceCall) : Prop :=
  (Type_ config = "local" /\ s = NewLocalFileSource (FilePath config)) \/
  (Type_ config = "sftp" /\
   s = NewSFTPSource (Host config) (or_default 22 (Port config))
         (Username config) (Password config) (FilePath config)
         (or_default (5 * Second) (PollFrequency config))
         (ReadFromStart config)) \/
  (Type_ config = "ftp" /\
   s = NewFTPSource (Host config) (or_default 21 (Port config))
         (Username config) (Password config) (FilePath config)
         (or_default (5 * Second) (PollFrequency config))
         (ReadFromStart config)).

(** The errors that report an invalid configuration. *)
Definition InvalidConfig (e : error) : Prop :=
  match e with
  | errors_New _ | ErrUnsupportedType _ => True
  | _ => False
  end.

(** Whether a remote configuration has its required fields. *)
Definition RemoteComplete (config : LogSourceConfig) : Prop :=
  (Type_ config = "sftp" \/ Type_ config = "ftp") /\
  Host config <> "" /\ Username config <> "" /\ Password config <> "" /\
  FilePath config <> "".

(** The poll frequency a constructor call passes on. *)
Definition passed_pollFrequency (s : SourceCall) : option Duration :=
  match s with
  | NewLocalFileSource _ => None
  | NewSFTPSource _ _ _ _ _ p _ | NewFTPSource _ _ _ _ _ p _ => Some p
  end.

(** *** Reasons of the log transport probe *)

(** The twelve reasons the specification enumerates. *)
Definition enumerated_reasons : list string :=
  [ "permission_denied"; "authentication_failed"; "log_file_not_found";
    "timeout"; "connection_failed"; "probe_failed"; "missing_credentials";
    "log_path_is_directory"; "unsupported_source_type"; "not_configured";
    "probe_not_requested"; "logwatcher_disconnected" ].

(** The reasons the probe produces: the missing-credential reason names
    the transport. *)
Definition produced_reasons : list string :=
  [ "permission_denied"; "authentication_failed"; "log_file_not_found";
    "timeout"; "connection_failed"; "probe_failed";
    "missing_sftp_credentials"; "missing_ftp_credentials";
    "log_path_is_directory"; "unsupported_source_type"; "not_configured";
    "probe_not_requested"; "logwatcher_disconnected" ].

(** A status as the probe leaves it: healthy without a reason, or
    unhealthy with one of the produced reasons. *)
Definition settled (st : logTransportStatus) : Prop :=
  (Healthy st = true /\ Reason st = "") \/
  (Healthy st = false /\ In (Reason st) produced_reasons).

(** *** Sequences of calls on one server *)

(** A call on one server id; a connect with the two readings of the
    clock it may make. *)
Inductive Call : Type :=
| Connect (config : LogSourceConfig) (now later : Time)
| Disconnect.

(** One call, dispatched to the method of the manager. *)
Definition call (serverID : UUID) (m : LogwatcherManager) (c : Call)
    : LogwatcherManager * option error :=
  match c with
  | Connect config now later => ConnectToServer m serverID config now later
  | Disconnect => DisconnectFromServer m serverID
  end.

(** A sequence of calls: the final state and the error of each call. *)
Fixpoint run (serverID : UUID) (m : LogwatcherManager) (calls : list Call)
    : LogwatcherManager * list (option error) :=
  match calls with
  | [] => (m, [])
  | c :: calls' =>
      let '(m1, r) := call serverID m c in
      let '(m2, rs) := run serverID m1 calls' in
      (m2, r :: rs)
  end.

(** A connect call that did not fail. *)
Definition connect_ok (cr : Call * option error) : bool :=
  match cr with
  | (Connect _ _ _, None) => true
  | _ => false
  end.

(** Whether the last call of a sequence was a connect that did not
    fail. *)
Definition last_connect_ok (calls : list Call) (rs : list (option error))
    : bool :=
  match List.last (List.map Some (combine calls rs)) None with
  | Some cr => connect_ok cr
  | None => false
  end.

(** Whether the registry holds a record for a server. *)
Definition present (m : LogwatcherManager) (serverID : UUID) : bool :=
  match connections m !! serverID with
  | Some _ => true
  | None => false
  end.

(** Whether the registry holds a record for a server that is marked
    connected. *)
Definition connected (m : LogwatcherManager) (serverID : UUID) : bool :=
  match connections m !! serverID with
  | Some conn => Connected conn
  | None => false
  end.

(** *** Contexts and watchers *)

(** Whether the cancel function of a context has been called. *)
Definition cancelled (evs : list Event) (c : Ctx) : bool :=
  existsb (fun e => match e with
                    | EvCancel c' => Nat.eqb c' c
                    | _ => false
                    end) evs.

(** Whether a context is done: its own cancel function or the one of the
    root context it derives from has been called. *)
Definition ctx_done (evs : list Event) (c : Ctx) : bool :=
  cancelled evs c || cancelled evs rootCtx.

(** Whether a source object has been closed. *)
Definition closed (evs : list Event) (s : SourceObj) : bool :=
  existsb (fun e => match e with
                    | EvClose s' => Nat.eqb (addr s') (addr s)
                    | _ => false
                    end) evs.

(** Whether the watcher reading a source object has returned after
    losing its line channel. *)
Definition exited (evs : list Event) (s : SourceObj) : bool :=
  existsb (fun e => match e with
                    | EvExit s' => Nat.eqb (addr s') (addr s)
                    | _ => false
                    end) evs.

(** Modelled from the spec: the [Watch] method of a log source is not
    part of this development.  By the contract of a log source, its line
    channel is closed once its context is cancelled or the source is
    closed, and [watchLogs] returns when its context is done or the
    channel is closed.  A watcher started on context [c] for source [s]
    is therefore running as long as [c] is not done, [s] is not closed
    and the watcher has not returned on its own. *)
Definition running (evs : list Event) (c : Ctx) (s : SourceObj) : bool :=
  negb (ctx_done evs c) && negb (closed evs s) && negb (exited evs s).

(** Whether an event is the start of a watcher of a server that is
    still running. *)
Definition is_running_watcher (evs : list Event) (serverID : UUID)
    (e : Event) : bool :=
  match e with
  | EvWatch c serverID' s => N.eqb serverID' serverID && running evs c s
  | _ => false
  end.

(** The number of running watchers of a server. *)
Definition live_watchers (m : LogwatcherManager) (serverID : UUID) : nat :=
  length (List.filter (is_running_watcher (events m) serverID) (events m)).

(** The number of watchers ever started. *)
Definition started_watchers (m : LogwatcherManager) : nat :=
  length (List.filter (fun e => match e with
                                | EvWatch _ _ _ => true
                                | _ => false
                                end) (events m)).

(** The context on which the watcher of a source object was started. *)
Definition watcher_ctx (evs : list Event) (s : SourceObj) : option Ctx :=
  match List.find (fun e => match e with
                            | EvWatch _ _ s' => Nat.eqb (addr s') (addr s)
                            | _ => false
                            end) evs with
  | Some (EvWatch c _ _) => Some c
  | _ => None
  end.

(** The addresses of the sources for which a watcher was started. *)
Definition watch_addrs (evs : list Event) : list nat :=
  flat_map (fun e => match e with
                     | EvWatch _ _ s => [addr s]
                     | _ => []
                     end) evs.

(** The states the manager reaches from [NewLogwatcherManager] by calls
    of [ConnectToServer] and [DisconnectFromServer] and by the writes of
    its watchers, before [Shutdown]. *)
Inductive reachable : LogwatcherManager -> Prop :=
| reach_new : reachable NewLogwatcherManager
| reach_connect m serverID config now later :
    reachable m ->
    reachable (fst (ConnectToServer m serverID config now later))
| reach_disconnect m serverID :
    reachable m -> reachable (fst (DisconnectFromServer m serverID))
| reach_lost m c serverID s :
    reachable m ->
    In (EvWatch c serverID s) (events m) ->
    exited (events m) s = false ->
    reachable (watchLogs_lost m serverID s)
| reach_line m c serverID s now :
    reachable m ->
    In (EvWatch c serverID s) (events m) ->
    reachable (watchLogs_line m serverID now).

(** The histories of one server id from a state [m0]: the calls made on
    it, in order and each with the error it returned, and between them
    the writes of the watchers started for it, which no call
    announces. *)
Inductive history (serverID : UUID) (m0 : LogwatcherManager)
    : list (Call * option error) -> LogwatcherManager -> Prop :=
| hist_start : history serverID m0 [] m0
| hist_call log m c :
    history serverID m0 log m ->
    history serverID m0 (log ++ [(c, snd (call serverID m c))])
      (fst (call serverID m c))
| hist_lost log m c s :
    history serverID m0 log m ->
    In (EvWatch c serverID s) (events m) ->
    exited (events m) s = false ->
    history serverID m0 log (watchLogs_lost m serverID s)
| hist_line log m c s now :
    history serverID m0 log m ->
    In (EvWatch c serverID s) (events m) ->
    history serverID m0 log (watchLogs_line m serverID now).

(** Whether the last call of a history was a connect that did not
    fail. *)
Definition last_call_connect_ok (log : list (Call * option error)) : bool :=
  match List.last (List.map Some log) None with
  | Some cr => connect_ok cr
  | None => false
  end.

(** What holds of every reachable state. *)
Record Inv (m : LogwatcherManager) : Prop := mkInv {
  inv_root : cancelled (events m) rootCtx = false;
  inv_cancel_bound : forall serverID conn,
    connections m !! serverID = Some conn ->
    (1 <= cancel conn <= derived m)%nat;
  inv_cancel_inj : forall id1 id2 conn1 conn2,
    connections m !! id1 = Some conn1 ->
    connections m !! id2 = Some conn2 ->
    cancel conn1 = cancel conn2 -> id1 = id2;
  inv_cancelled_bound : forall c,
    cancelled (events m) c = true -> (c <= derived m)%nat;
  inv_closed_bound : forall s,
    closed (events m) s = true -> (addr s < allocated m)%nat;
  inv_exited_bound : forall s,
    exited (events m) s = true -> (addr s < allocated m)%nat;
  inv_watch_bound : forall c serverID s,
    In (EvWatch c serverID s) (events m) -> (addr s < allocated m)%nat;
  inv_watch_nodup : List.NoDup (watch_addrs (events m));
  inv_current : forall serverID conn,
    connections m !! serverID = Some conn ->
    exists s c,
      LogSource conn = Some s /\
      In (EvWatch c serverID s) (events m) /\
      (c = rootCtx \/ c = cancel conn) /\
      (Connected conn = true -> running (events m) c s = true);
  inv_stale : forall c serverID s,
    In (EvWatch c serverID s) (events m) ->
    exists conn,
      connections m !! serverID = Some conn /\
      forall s0, LogSource conn = Some s0 -> addr s0 <> addr s ->
                 closed (events m) s = true
}.

(** *** Sample configurations, servers and states *)

(** A server id. *)
Definition server_a : UUID := 1%N.

(** A local configuration that construction accepts. *)
Definition local_config : LogSourceConfig :=
  mkConfig "local" "/srv/squad/SquadGame.log" "" 0 "" "" 0 false.

(** A configuration that construction rejects. *)
Definition empty_config : LogSourceConfig :=
  mkConfig "local" "" "" 0 "" "" 0 false.

(** An sftp configuration with every required field. *)
Definition sftp_config (pollFrequency : Duration) : LogSourceConfig :=
  mkConfig "sftp" "/srv/squad/SquadGame.log" "10.0.0.7" 0 "squad" "secret"
    pollFrequency false.

(** An ftp configuration with every required field. *)
Definition ftp_config (pollFrequency : Duration) : LogSourceConfig :=
  mkConfig "ftp" "/srv/squad/SquadGame.log" "10.0.0.7" 0 "squad" "secret"
    pollFrequency false.

(** A world in which every external operation succeeds (and whose case
    table maps every rune to itself). *)
Definition quiet_world : World :=
  mkWorld (fun r => r) (fun _ => inl (mkFileInfo false)) (fun _ => None) (fun _ => None)
    (fun _ _ _ _ => None) (fun _ _ => None) (fun _ => None)
    (fun _ _ => None) (fun _ _ => None) (fun _ => None)
    (fun _ _ => None) None None None.

(** A server whose log transport is sftp and whose host is not set. *)
Definition sftp_server_without_host : Server :=
  mkServer 1%N "10.0.0.7" 7787 (Some "sftp")
    (Some "/srv/squad/SquadGame.log") None None (Some "squad")
    (Some "secret").

(** A manager with one connected record. *)
Definition m_connected : LogwatcherManager :=
  fst (ConnectToServer NewLogwatcherManager server_a local_config
         (900 * Second) (900 * Second)).

(** The record of [m_connected]. *)
Definition conn_connected : ServerLogConnection :=
  mkConn server_a (Some (mkSource 0 (NewLocalFileSource "/srv/squad/SquadGame.log")))
    local_config (NewEventStore server_a) NewLogParsingMetrics true
    (900 * Second) 1%nat 0 zeroTime.

(** A disconnected record whose last reconnect, at instant
    [1000 * Second], failed: one attempt is counted. *)
Definition m_backoff : LogwatcherManager :=
  fst (run server_a NewLogwatcherManager
         [Connect local_config (900 * Second) (900 * Second); Disconnect;
          Connect empty_config (1000 * Second) (1000 * Second)]).

(** The record of [m_backoff]. *)
Definition conn_backoff : ServerLogConnection :=
  mkConn server_a (Some (mkSource 0 (NewLocalFileSource "/srv/squad/SquadGame.log")))
    local_config (NewEventStore server_a) NewLogParsingMetrics false
    (900 * Second) 1%nat 1 (1000 * Second).

(** A record that was connected, disconnected and connected again. *)
Definition m_reconnected : LogwatcherManager :=
  fst (run server_a NewLogwatcherManager
         [Connect local_config (900 * Second) (900 * Second); Disconnect;
          Connect local_config (1000 * Second) (1000 * Second)]).

(** The record of [m_reconnected]. *)
Definition conn_reconnected : ServerLogConnection :=
  mkConn server_a (Some (mkSource 1 (NewLocalFileSource "/srv/squad/SquadGame.log")))
    local_config (NewEventStore server_a) NewLogParsingMetrics true
    (1000 * Second) 1%nat 0 (1000 * Second).

(** Reconnects that fail in construction, one every 60 s from instant
    [1060 * Second] on. *)
Definition failing_reconnects (n : nat) : list Call :=
  List.map (fun k =>
              let now := (1000 + 60 * Z.of_nat k) * Second in
              Connect empty_config now now)
    (List.seq 1 n).

(** A record that was connected and disconnected, after thirty-two such
    reconnects. *)
Definition m_after_32 : LogwatcherManager :=
  fst (run server_a NewLogwatcherManager
         ([Connect local_config (900 * Second) (900 * Second); Disconnect]
          ++ failing_reconnects 32)).

(** *** Notions for the further properties *)

(** Whether the backoff gate lets a connect at instant [now] through to
    construction. *)
Definition gate_open (now : Time) (conn : ServerLogConnection) : Prop :=
  calculateReconnectDelay (reconnectAttempts conn)
  <= time_Since now (lastReconnectTime conn).

(** Whether a record is as [ConnectToServer] builds and keeps it. *)
Definition record_wf (serverID : UUID) (conn : ServerLogConnection) : Prop :=
  ServerID conn = serverID /\
  EventStore conn = NewEventStore serverID /\
  LogSource conn <> None /\
  (Connected conn = true -> reconnectAttempts conn = 0).

(** The sum of the counts of a map of counters. *)
Definition sum_counts (counts : gmap string Z) : Z :=
  map_fold (fun _ n acc => n + acc) 0 counts.

(** What the loop of [GetConnectionStats] keeps true of its counters. *)
Definition counted (acc : Z * Z * gmap string Z)
    (conns : gmap UUID ServerLogConnection) : Prop :=
  let '(c, d, st) := acc in
  c + d = Z.of_nat (size conns) /\
  sum_counts st = Z.of_nat (size conns) /\
  0 <= c /\ 0 <= d /\
  (c = 0 <-> forall i conn, conns !! i = Some conn -> Connected conn = false).

(** Whether a row of the query result was scanned and names a server. *)
Definition row_of (serverID : UUID) (r : option LogRow) : bool :=
  match r with
  | Some r => N.eqb (row_id r) serverID
  | None => false
  end.

(** Whether a source type is one of the three words construction
    knows. *)
Definition known_type (t : string) : Prop :=
  t = "local" \/ t = "sftp" \/ t = "ftp".

(** A server with the given log source type and file path. *)
Definition server_of_type (t p : string) : Server :=
  mkServer server_a "10.0.0.7" 7787 (Some t) (Some p) (Some "10.0.0.7") None
    (Some "squad") (Some "secret").

(** Whether the text of an error, in lower case, has a word as a
    substring. *)
Definition mentions (LowerCase : N -> N) (err : GoError) (word : string)
    : Prop :=
  exists before after,
    strings_ToLower LowerCase (Error err) = (before ++ word ++ after)%string.

(** What the status without a probe says of the connection, from the
    answer of the manager. *)
Definition connection_verdict (manager : option LogwatcherManager)
    (serverID : UUID) : bool * string :=
  match manager with
  | None => (false, "probe_not_requested")
  | Some m =>
      match connections m !! serverID with
      | None => (false, "probe_not_requested")
      | Some conn =>
          if Connected conn then (true, "")
          else (false, "logwatcher_disconnected")
      end
  end.

(** A disconnected record with no attempt counted. *)
Definition m_disconnected : LogwatcherManager :=
  fst (run server_a NewLogwatcherManager
         [Connect local_config (900 * Second) (900 * Second); Disconnect]).

(** The record of [m_disconnected]. *)
Definition conn_disconnected : ServerLogConnection :=
  mkConn server_a (Some (mkSource 0 (NewLocalFileSource "/srv/squad/SquadGame.log")))
    local_config (NewEventStore server_a) NewLogParsingMetrics false
    (900 * Second) 1%nat 0 zeroTime.

(** A server whose log configuration is the complete sftp one. *)
Definition sftp_server : ServerLog :=
  mkServerLog
    (mkServer server_a "10.0.0.7" 7787 (Some "sftp")
       (Some "/srv/squad/SquadGame.log") (Some "10.0.0.7") None
       (Some "squad") (Some "secret"))
    (Some 5) None.

(** A row of the server catalog with the local configuration. *)
Definition local_row : LogRow :=
  mkRow server_a (Some "local") (Some "/srv/squad/SquadGame.log") None None
    None None None None.

(* ===================================================================== *)
(** ** Text *)
(* ===================================================================== *)

Section Text.

Lemma string_drop_prefix (p s : string) :
  String.prefix p s = true ->
  (String.length (string_drop (String.length p) s) + String.length p
   = String.length s)%nat.
Proof.
  revert s. induction p as [ | c p IH]; intros s H.
  - destruct s; simpl; lia.
  - destruct s as [ | d s]; simpl in H; [ discriminate | ].
    destruct (Ascii.ascii_dec c d); [ | discriminate ].
    specialize (IH s H). simpl. lia.
Qed.

Lemma strip_prefix_shorter (pats : list string) (s rest : string) :
  Forall (fun p => p <> EmptyString) pats ->
  strip_prefix pats s = Some rest ->
  (String.length rest < String.length s)%nat.
Proof.
  induction 1 as [ | p pats Hp _ IH]; simpl; [ discriminate | ].
  destruct (String.prefix p s) eqn:E; [ | exact IH ].
  intros R. inversion R; subst rest.
  pose proof (string_drop_prefix p s E).
  destruct p; [ congruence | simpl in *; lia ].
Qed.

(** The rounds allowed are enough: what is left starts with none of the
    sequences. *)
Lemma strip_all_done (pats : list string) (rounds : nat) (s : string) :
  Forall (fun p => p <> EmptyString) pats ->
  (String.length s <= rounds)%nat ->
  strip_prefix pats (strip_all pats rounds s) = None.
Proof.
  intros Hp. revert s. induction rounds as [ | n IH]; intros s Hn.
  - destruct s; [ | simpl in Hn; lia ]. simpl.
    clear Hn. induction Hp as [ | p pats Hne _ IH]; [ reflexivity | ].
    simpl. destruct p; [ congruence | exact IH ].
  - simpl. destruct (strip_prefix pats s) as [rest | ] eqn:E; [ | exact E ].
    apply IH. pose proof (strip_prefix_shorter pats s rest Hp E). lia.
Qed.

Lemma space_encodings_nonempty :
  Forall (fun p => p <> EmptyString) space_encodings.
Proof. repeat constructor; discriminate. Qed.

Lemma space_encodings_rev_nonempty :
  Forall (fun p => p <> EmptyString) (List.map string_rev space_encodings).
Proof. repeat constructor; discriminate. Qed.

Lemma length_snoc (s : string) (c : ascii) :
  String.length (s ++ String c EmptyString)%string = S (String.length s).
Proof.
  induction s as [ | d s IH]; [ reflexivity | ].
  change (String d s +:+ String c EmptyString)
    with (String d (s +:+ String c EmptyString)).
  cbn [String.length]. rewrite IH. reflexivity.
Qed.

Lemma string_rev_length (s : string) :
  String.length (string_rev s) = String.length s.
Proof.
  induction s as [ | c s IH]; [ reflexivity | ].
  cbn [string_rev]. rewrite length_snoc, IH. reflexivity.
Qed.

Lemma string_rev_snoc (s : string) (c : ascii) :
  string_rev (s ++ String c EmptyString)%string = String c (string_rev s).
Proof.
  induction s as [ | d s IH]; [ reflexivity | ].
  change (String d s +:+ String c EmptyString)
    with (String d (s +:+ String c EmptyString)).
  cbn [string_rev]. rewrite IH. reflexivity.
Qed.

Lemma string_rev_involutive (s : string) : string_rev (string_rev s) = s.
Proof.
  induction s as [ | c s IH]; [ reflexivity | ].
  cbn [string_rev]. rewrite string_rev_snoc, IH. reflexivity.
Qed.

(** What [strings_TrimSpace] returns neither starts nor ends with the
    encoding of a white space rune. *)
Lemma trim_left_done (s : string) :
  strip_prefix space_encodings (trim_left s) = None.
Proof.
  apply strip_all_done; [ exact space_encodings_nonempty | lia ].
Qed.

Lemma trim_right_done (s : string) :
  strip_prefix (List.map string_rev space_encodings)
    (string_rev (trim_right s)) = None.
Proof.
  unfold trim_right. rewrite string_rev_involutive.
  apply strip_all_done; [ exact space_encodings_rev_nonempty | ].
  rewrite string_rev_length. lia.
Qed.

(** White space outside ASCII is trimmed: here a no-break space before
    the word and an em space after it. *)
Example strings_TrimSpace_unicode :
  strings_TrimSpace
    (string_of_bytes [0xC2; 0xA0] ++ " sftp"
     ++ string_of_bytes [0x09; 0xE2; 0x80; 0x83])%string%N
  = "sftp".
Proof. vm_compute. reflexivity. Qed.

(** A byte that is only the tail of such an encoding is kept, and so is
    white space inside the text. *)
Example strings_TrimSpace_keeps :
  strings_TrimSpace (" a b" ++ string_of_bytes [0xA0] ++ " ")%string%N
  = ("a b" ++ string_of_bytes [0xA0])%string%N.
Proof. vm_compute. reflexivity. Qed.

(** A string of ASCII bytes is put in lower case without the case
    tables. *)
Lemma strings_ToLower_ascii (LowerCase : N -> N) (s : string) :
  all_ascii s = true -> strings_ToLower LowerCase s = lower_bytes s.
Proof. intros H. unfold strings_ToLower. rewrite H. reflexivity. Qed.

(** On a string of ASCII bytes, the rune by rune mapping gives the same
    as the byte by byte one. *)
Lemma strings_ToLower_ascii_runes (LowerCase : N -> N) (s : string) :
  all_ascii s = true ->
  encode_runes (List.map (unicode_ToLower LowerCase) (decode_runes s))
  = lower_bytes s.
Proof.
  induction s as [ | c s IH]; [ reflexivity | ].
  cbn [all_ascii]. intros H. apply andb_true_iff in H. destruct H as [Hc Hs].
  cbn [decode_runes lower_bytes]. unfold is_ascii in Hc. rewrite Hc.
  cbn [List.map encode_runes]. rewrite (IH Hs).
  apply N.ltb_lt in Hc.
  assert (E : encode_rune (unicode_ToLower LowerCase (N_of_ascii c))
              = String (lower_byte c) EmptyString).
  { unfold unicode_ToLower, encode_rune, lower_byte.
    destruct (N.leb_spec (N_of_ascii c) 0x7F); [ | lia ].
    destruct ((65 <=? N_of_ascii c)%N && (N_of_ascii c <=? 90)%N) eqn:Eu.
    - apply andb_true_iff in Eu. destruct Eu as [E1 E2].
      apply N.leb_le in E1, E2.
      destruct (N.leb_spec (N_of_ascii c + 32) 0x7F); [ | lia ].
      reflexivity.
    - destruct (N.leb_spec (N_of_ascii c) 0x7F); [ | lia ].
      cbn [string_of_bytes]. rewrite ascii_N_embedding. reflexivity. }
  rewrite E. reflexivity.
Qed.

(** Outside ASCII the case tables decide: when they map U+0130 to [i],
    a text in capitals with that letter reads [login failed], and the
    probe error is an authentication failure. *)
Example strings_ToLower_unicode (LowerCase : N -> N) :
  LowerCase 0x130%N = 0x69%N ->
  let text := ("LOG" ++ string_of_bytes [0xC4; 0xB0] ++ "N FAILED")%string%N in
  strings_ToLower LowerCase text = "login failed" /\
  server.mapProbeErrorReason LowerCase (Some (server.mkError text false false))
  = "authentication_failed".
Proof.
  intros H text.
  assert (E : strings_ToLower LowerCase text = "login failed").
  { unfold strings_ToLower.
    change (all_ascii text) with false. cbv iota.
    change (decode_runes text)
      with [76; 79; 71; 0x130; 78; 32; 70; 65; 73; 76; 69; 68]%N.
    cbn [List.map].
    change (unicode_ToLower LowerCase 0x130) with (LowerCase 0x130%N).
    rewrite H. vm_compute. reflexivity. }
  split; [ exact E | ].
  unfold server.mapProbeErrorReason. cbn [server.Error]. rewrite E.
  vm_compute. reflexivity.
Qed.

(** A byte outside any valid encoding is read as [RuneError], and
    written as what the tables make of it. *)
Example strings_ToLower_invalid (LowerCase : N -> N) :
  LowerCase RuneError = RuneError ->
  strings_ToLower LowerCase ("A" ++ string_of_bytes [0xFF])%string%N
  = ("a" ++ string_of_bytes [0xEF; 0xBF; 0xBD])%string%N.
Proof.
  intros H. unfold strings_ToLower.
  change (all_ascii _) with false. cbv iota.
  change (decode_runes _) with [65; RuneError]%N.
  cbn [List.map].
  change (unicode_ToLower LowerCase RuneError) with (LowerCase RuneError).
  rewrite H. vm_compute. reflexivity.
Qed.

End Text.

(* ===================================================================== *)
(** ** Reconnect backoff *)
(* ===================================================================== *)

Section Backoff.

Lemma baseDelay_value : baseDelay = 5 * Second.
Proof. reflexivity. Qed.

Lemma maxDelay_value : maxDelay = 60 * Second.
Proof. reflexivity. Qed.

(** The delay never exceeds the cap, whatever the attempt count. *)
Lemma calculateReconnectDelay_le_max (attempts : Z) :
  calculateReconnectDelay attempts <= maxDelay.
Proof.
  unfold calculateReconnectDelay.
  destruct (attempts =? 0); [ vm_compute; discriminate | ].
  destruct (_ >? maxDelay) eqn:E; lia.
Qed.

(** While the product [baseDelay * 2^(attempts-1)] fits in 64 bits, the
    function computes [min (5s * 2^(attempts-1)) 60s]. *)
Lemma calculateReconnectDelay_small (attempts : Z) :
  1 <= attempts <= 31 ->
  calculateReconnectDelay attempts
  = Z.min (5 * Second * 2 ^ (attempts - 1)) (60 * Second).
Proof.
  intros H.
  assert (Hcases :
    forallb (fun a => calculateReconnectDelay a
                      =? Z.min (5 * Second * 2 ^ (a - 1)) (60 * Second))
            (List.map Z.of_nat (List.seq 1 31)) = true)
    by (vm_compute; reflexivity).
  rewrite forallb_forall in Hcases. apply Z.eqb_eq, Hcases.
  apply in_map_iff. exists (Z.to_nat attempts). split; [ lia | ].
  apply in_seq. lia.
Qed.

(** From the fifth attempt up to the thirty-first the delay is the cap. *)
Lemma calculateReconnectDelay_capped (attempts : Z) :
  5 <= attempts <= 31 -> calculateReconnectDelay attempts = 60 * Second.
Proof.
  intros H. rewrite calculateReconnectDelay_small by lia.
  apply Z.min_r.
  assert (2 ^ 4 <= 2 ^ (attempts - 1)) by (apply Z.pow_le_mono_r; lia).
  unfold Second. lia.
Qed.

(** Up to the thirty-first attempt the delay does not decrease. *)
Lemma calculateReconnectDelay_mono (a b : Z) :
  0 <= a <= b -> b <= 31 ->
  calculateReconnectDelay a <= calculateReconnectDelay b.
Proof.
  intros Hab Hb.
  destruct (Z.eq_dec a 0) as [-> | Ha].
  - destruct (Z.eq_dec b 0) as [-> | Hb0]; [ reflexivity | ].
    rewrite (calculateReconnectDelay_small b) by lia.
    change (calculateReconnectDelay 0) with 0.
    assert (0 < 2 ^ (b - 1)) by (apply Z.pow_pos_nonneg; lia).
    unfold Second. lia.
  - rewrite !calculateReconnectDelay_small by lia.
    apply Z.min_le_compat_r.
    assert (2 ^ (a - 1) <= 2 ^ (b - 1)) by (apply Z.pow_le_mono_r; lia).
    unfold Second. lia.
Qed.

(** From the fifty-sixth attempt on, every bit of the product is shifted
    out and the delay is zero. *)
Lemma calculateReconnectDelay_vanishes (attempts : Z) :
  56 <= attempts < 2 ^ 63 -> calculateReconnectDelay attempts = 0.
Proof.
  intros H. unfold calculateReconnectDelay.
  destruct (attempts =? 0) eqn:E0; [ lia | ].
  assert (Hs : uint (int_sub attempts 1) = attempts - 1).
  { unfold uint, int_sub, wrap64.
    rewrite (Z.mod_small (attempts - 1 + 2 ^ 63)) by lia.
    rewrite Z.mod_small; lia. }
  rewrite Hs. unfold shl64.
  destruct (attempts - 1 <? 64) eqn:E64; [ | reflexivity ].
  apply Z.ltb_lt in E64.
  assert (Hcases :
    forallb (fun a =>
               (let delay :=
                  int_mul baseDelay (wrap64 (Z.shiftl 1 (a - 1))) in
                if delay >? maxDelay then maxDelay else delay) =? 0)
            (List.map Z.of_nat (List.seq 56 9)) = true)
    by (vm_compute; reflexivity).
  rewrite forallb_forall in Hcases. apply Z.eqb_eq, Hcases.
  apply in_map_iff. exists (Z.to_nat attempts). split; [ lia | ].
  apply in_seq. lia.
Qed.

End Backoff.

(** C7.  The backoff delay is 0 for attempt count 0 and 5 s, 10 s, 20 s
    and 40 s for the attempt counts 1, 2, 3 and 4: the base delay of 5 s
    doubles with every attempt. *)
Theorem calculateReconnectDelay_table :
  calculateReconnectDelay 0 = 0 /\
  calculateReconnectDelay 1 = 5 * Second /\
  calculateReconnectDelay 2 = 10 * Second /\
  calculateReconnectDelay 3 = 20 * Second /\
  calculateReconnectDelay 4 = 40 * Second.
Proof. repeat split; reflexivity. Qed.

(** C3.  The delay at attempt count 32: the product
    [baseDelay * 2^31] exceeds the 64-bit range and wraps to a negative
    duration, which the comparison with the cap lets through.  The delay
    is then neither 60 s nor at least the delay of attempt 31. *)
Theorem calculateReconnectDelay_overflow_32 :
  calculateReconnectDelay 32 = -7709325833709551616 /\
  calculateReconnectDelay 32 <> 60 * Second /\
  calculateReconnectDelay 31 = 60 * Second /\
  calculateReconnectDelay 32 < calculateReconnectDelay 31.
Proof. vm_compute. repeat split; discriminate. Qed.

(** The attempt count 32 is reached: thirty-two reconnects that fail in
    construction, each made once the delay of 60 s has certainly elapsed,
    bring the count to 32.  The delay computed from it is negative, so a
    connect made at the very instant of the last failure is not held
    back: it goes on to construction and counts a further attempt. *)
Example backoff_gate_open_at_32 :
  option_map reconnectAttempts (connections m_after_32 !! server_a) = Some 32 /\
  option_map lastReconnectTime (connections m_after_32 !! server_a)
  = Some (2920 * Second) /\
  snd (ConnectToServer m_after_32 server_a empty_config (2920 * Second)
         (2920 * Second))
  = Some (ErrReconnectFailed
            (errors_New "file path is required for local log source")) /\
  option_map reconnectAttempts
    (connections
       (fst (ConnectToServer m_after_32 server_a empty_config
               (2920 * Second) (2920 * Second)))
     !! server_a) = Some 33.
Proof. vm_compute. repeat split; reflexivity. Qed.

(* ===================================================================== *)
(** ** Log source construction *)
(* ===================================================================== *)

Section Construction.

Lemma is_empty_true (s : string) : is_empty s = true <-> s = "".
Proof. unfold is_empty. apply String.eqb_eq. Qed.

Lemma is_empty_false (s : string) : is_empty s = false <-> s <> "".
Proof. unfold is_empty. apply String.eqb_neq. Qed.

(** What [createLogSource] returns, read off its result. *)
Lemma createLogSource_cases (config : LogSourceConfig) :
  match createLogSource config with
  | inr e => MissingRequired config /\ InvalidConfig e
  | inl s => ~ MissingRequired config /\ ExpectedSource config s
  end.
Proof.
  unfold createLogSource, MissingRequired, ExpectedSource, or_default,
    LogSourceTypeLocal, LogSourceTypeSFTP, LogSourceTypeFTP.
  change (int_mul 5 Second) with (5 * Second).
  destruct (String.eqb_spec (Type_ config) "local") as [Hl | Hl].
  { destruct (is_empty (FilePath config)) eqn:Ep.
    - apply is_empty_true in Ep. simpl. tauto.
    - apply is_empty_false in Ep. split; [ | tauto ].
      rewrite Hl. intros [[_ ?] | [[? _] | [[? _] | [? _]]]]; congruence. }
  destruct (String.eqb_spec (Type_ config) "sftp") as [Hs | Hs].
  { destruct (is_empty (Host config)) eqn:Eh; simpl.
    { apply is_empty_true in Eh. tauto. }
    destruct (is_empty (Username config)) eqn:Eu; simpl.
    { apply is_empty_true in Eu. tauto. }
    destruct (is_empty (FilePath config)) eqn:Ep; simpl.
    { apply is_empty_true in Ep. tauto. }
    destruct (is_empty (Password config)) eqn:Ew; simpl.
    { apply is_empty_true in Ew. tauto. }
    apply is_empty_false in Eh, Eu, Ep, Ew. split; [ | tauto ].
    rewrite Hs.
    intros [[? _] | [[_ [?|[?|[?|?]]]] | [[? _] | [_ [? _]]]]]; congruence. }
  destruct (String.eqb_spec (Type_ config) "ftp") as [Hf | Hf].
  { destruct (is_empty (Host config)) eqn:Eh; simpl.
    { apply is_empty_true in Eh. tauto. }
    destruct (is_empty (Username config)) eqn:Eu; simpl.
    { apply is_empty_true in Eu. tauto. }
    destruct (is_empty (Password config)) eqn:Ew; simpl.
    { apply is_empty_true in Ew. tauto. }
    destruct (is_empty (FilePath config)) eqn:Ep; simpl.
    { apply is_empty_true in Ep. tauto. }
    apply is_empty_false in Eh, Eu, Ep, Ew. split; [ | tauto ].
    rewrite Hf.
    intros [[? _] | [[? _] | [[_ [?|[?|[?|?]]]] | [_ [_ ?]]]]]; congruence. }
  simpl. tauto.
Qed.

End Construction.

(** C9.  Log source construction fails, with an invalid-configuration
    error, exactly when a required field is missing (the file path for a
    local source; host, user name, password or file path for an sftp or
    ftp source) or the source type is not recognised; in every other
    case it succeeds and builds the source of the configuration, a zero
    port replaced by 22 (sftp) or 21 (ftp) and a zero poll frequency by
    5 seconds. *)
Theorem createLogSource_spec (config : LogSourceConfig) :
  (MissingRequired config <->
   exists e, createLogSource config = inr e /\ InvalidConfig e) /\
  (~ MissingRequired config <->
   exists s, createLogSource config = inl s /\ ExpectedSource config s).
Proof.
  pose proof (createLogSource_cases config) as H.
  destruct (createLogSource config) as [s | e]; destruct H as [H1 H2].
  - split; split.
    + intros Hm. contradiction.
    + intros (e & He & _). discriminate.
    + intros _. exists s. split; [ reflexivity | assumption ].
    + intros _. assumption.
  - split; split.
    + intros _. exists e. split; [ reflexivity | assumption ].
    + intros _. assumption.
    + intros Hn. contradiction.
    + intros (s & Hs & _). discriminate.
Qed.

(** C4, the claim refuted: an sftp configuration with a poll frequency
    of 500 s and an ftp configuration with a poll frequency of 1 ms, both
    outside the range of 1 s to 300 s, are accepted without an error, and
    the poll frequency reaches the source constructor as it was given. *)
Lemma createLogSource_out_of_range_accepted :
  300 * Second < 500 * Second /\
  createLogSource (sftp_config (500 * Second))
  = inl (NewSFTPSource "10.0.0.7" 22 "squad" "secret"
           "/srv/squad/SquadGame.log" (500 * Second) false) /\
  0 < 1 * Millisecond < 1 * Second /\
  createLogSource (ftp_config (1 * Millisecond))
  = inl (NewFTPSource "10.0.0.7" 21 "squad" "secret"
           "/srv/squad/SquadGame.log" (1 * Millisecond) false).
Proof. vm_compute. repeat split; reflexivity. Qed.

(** C4, as the code has it: construction neither clamps nor checks the
    poll frequency.  A remote configuration with its required fields is
    accepted whatever its poll frequency; zero is replaced by 5 s and
    every other value is passed to the source constructor unchanged. *)
Theorem createLogSource_pollFrequency_unchecked (config : LogSourceConfig) :
  RemoteComplete config ->
  exists s,
    createLogSource config = inl s /\
    passed_pollFrequency s
    = Some (if PollFrequency config =? 0 then 5 * Second
            else PollFrequency config).
Proof.
  intros (Ht & Hh & Hu & Hw & Hp).
  assert (Hn : ~ MissingRequired config).
  { unfold MissingRequired.
    intros [[? ?] | [[_ [?|[?|[?|?]]]] | [[_ [?|[?|[?|?]]]] | (? & ? & ?)]]];
      try contradiction; destruct Ht; congruence. }
  pose proof (createLogSource_cases config) as H.
  destruct (createLogSource config) as [s | e]; [ | tauto ].
  exists s. split; [ reflexivity | ].
  destruct H as [_ [[Hl _] | [[_ ->] | [_ ->]]]]; [ | reflexivity .. ].
  destruct Ht; congruence.
Qed.

(** An sftp configuration with a poll frequency of 500 s is complete and
    accepted with that poll frequency. *)
Lemma createLogSource_pollFrequency_unchecked_witness :
  RemoteComplete (sftp_config (500 * Second)) /\
  exists s,
    createLogSource (sftp_config (500 * Second)) = inl s /\
    passed_pollFrequency s = Some (500 * Second).
Proof.
  assert (H : RemoteComplete (sftp_config (500 * Second))).
  { unfold RemoteComplete; simpl. repeat split; try discriminate.
    left; reflexivity. }
  split; [ exact H | ].
  exact (createLogSource_pollFrequency_unchecked (sftp_config (500 * Second)) H).
Defined.

(* ===================================================================== *)
(** ** Status probes *)
(* ===================================================================== *)

(** C10.  The game port check answers [true] exactly when dialling,
    setting the deadline and writing the probe byte all succeed and the
    read that follows either succeeds or fails with a network timeout;
    it answers [false] exactly on a dial, deadline or write failure or
    on a read error that is not a timeout.  No reply is needed for
    [true]: a read that times out is enough. *)
Theorem checkUDPPort_spec (w : World) (ipAddress : string) (port : Z) :
  (checkUDPPort w ipAddress port = true <->
   net_DialTimeout w ipAddress port = None /\
   conn_SetDeadline w = None /\
   conn_Write w = None /\
   (conn_Read w = None \/
    exists err, conn_Read w = Some err /\ net_Timeout err = true)) /\
  (checkUDPPort w ipAddress port = false <->
   net_DialTimeout w ipAddress port <> None \/
   conn_SetDeadline w <> None \/
   conn_Write w <> None \/
   exists err, conn_Read w = Some err /\ net_Timeout err = false).
Proof.
  unfold checkUDPPort.
  destruct (net_DialTimeout w ipAddress port) as [e1 | ];
    [ firstorder congruence | ].
  destruct (conn_SetDeadline w) as [e2 | ]; [ firstorder congruence | ].
  destruct (conn_Write w) as [e3 | ]; [ firstorder congruence | ].
  destruct (conn_Read w) as [e4 | ]; [ | firstorder congruence ].
  destruct (net_Timeout e4) eqn:Et; split; split;
    try (intros; exfalso; firstorder congruence);
    intros _; eauto 10.
Qed.

Section Reasons.

Lemma mapProbeErrorReason_In (LowerCase : N -> N) (err : GoError) :
  In (mapProbeErrorReason LowerCase (Some err))
     [ "permission_denied"; "authentication_failed"; "log_file_not_found";
       "timeout"; "connection_failed"; "probe_failed" ].
Proof.
  unfold mapProbeErrorReason.
  repeat match goal with
         | |- context [if ?b then _ else _] => destruct b
         end; simpl; tauto.
Qed.

Lemma mapProbeErrorReason_produced (LowerCase : N -> N) (err : GoError) :
  In (mapProbeErrorReason LowerCase (Some err)) produced_reasons.
Proof.
  pose proof (mapProbeErrorReason_In LowerCase err) as H.
  unfold produced_reasons. simpl in *. tauto.
Qed.

Lemma unhealthy_settled (reason : string) (st : logTransportStatus) :
  In reason produced_reasons -> settled (unhealthy reason st).
Proof. intros H. right. split; [ reflexivity | exact H ]. Qed.

Lemma healthy_settled (st : logTransportStatus) : settled (healthy st).
Proof. left. split; reflexivity. Qed.

Lemma probeLocalLogTransport_settled w filePath st :
  settled (probeLocalLogTransport w filePath st).
Proof.
  unfold probeLocalLogTransport.
  destruct (os_Stat w filePath) as [info | e].
  - destruct (IsDir info).
    + apply unhealthy_settled. unfold produced_reasons; simpl; tauto.
    + destruct (os_Open w filePath) as [e | ].
      * apply unhealthy_settled, mapProbeErrorReason_produced.
      * destruct (file_Read w filePath) as [e | ];
          [ destruct (negb (is_EOF e)) | ];
          auto using unhealthy_settled, healthy_settled,
            mapProbeErrorReason_produced.
  - apply unhealthy_settled, mapProbeErrorReason_produced.
Qed.

Lemma probeSFTPLogTransport_settled w server filePath st :
  settled (probeSFTPLogTransport w server filePath st).
Proof.
  unfold probeSFTPLogTransport.
  destruct (_ || _).
  { apply unhealthy_settled. unfold produced_reasons; simpl; tauto. }
  destruct (ssh_Dial _ _ _ _ _);
    [ apply unhealthy_settled, mapProbeErrorReason_produced | ].
  destruct (sftp_NewClient _ _ _);
    [ apply unhealthy_settled, mapProbeErrorReason_produced | ].
  destruct (sftp_Stat _ _);
    [ apply unhealthy_settled, mapProbeErrorReason_produced
    | apply healthy_settled ].
Qed.

Lemma probeFTPLogTransport_settled w server filePath st :
  settled (probeFTPLogTransport w server filePath st).
Proof.
  unfold probeFTPLogTransport.
  destruct (_ || _).
  { apply unhealthy_settled. unfold produced_reasons; simpl; tauto. }
  destruct (ftp_Dial _ _ _);
    [ apply unhealthy_settled, mapProbeErrorReason_produced | ].
  destruct (ftp_Login _ _ _);
    [ apply unhealthy_settled, mapProbeErrorReason_produced | ].
  destruct (ftp_FileSize _ _);
    [ apply unhealthy_settled, mapProbeErrorReason_produced
    | apply healthy_settled ].
Qed.

End Reasons.

(** C2, the claim refuted: probing an sftp transport whose host is not
    set gives the reason [missing_sftp_credentials], which is not among
    the twelve enumerated reasons. *)
Lemma reason_outside_enumeration :
  Reason (testLogTransportFunctionality quiet_world None
            sftp_server_without_host true)
  = "missing_sftp_credentials" /\
  ~ In (Reason (testLogTransportFunctionality quiet_world None
                  sftp_server_without_host true))
       enumerated_reasons.
Proof.
  split; [ reflexivity | ].
  vm_compute. intros H.
  repeat (destruct H as [H | H]; [ discriminate H | ]). exact H.
Qed.

(** C2, as the code has it: whatever the server, the manager, the probe
    request and the outcome of the external operations, the status is
    either healthy with an empty reason or unhealthy with one of the
    thirteen reasons of [produced_reasons], which are the enumerated ones
    with [missing_credentials] replaced by [missing_sftp_credentials]
    and [missing_ftp_credentials]. *)
Theorem testLogTransportFunctionality_reason
    (w : World) (manager : option LogwatcherManager) (server : Server)
    (includeLogProbe : bool) :
  let st := testLogTransportFunctionality w manager server includeLogProbe in
  (Healthy st = true /\ Reason st = "") \/
  (Healthy st = false /\ In (Reason st) produced_reasons).
Proof.
  cbv zeta. fold (settled (testLogTransportFunctionality w manager server
                             includeLogProbe)).
  unfold testLogTransportFunctionality, buildBaseLogTransportStatus.
  destruct (_ || _).
  { right. split; [ reflexivity | ]. unfold produced_reasons; simpl; tauto. }
  cbn [Enabled negb].
  destruct includeLogProbe; cbn [negb].
  - repeat match goal with
           | |- context [if ?b then _ else _] => destruct b
           end;
      auto using probeLocalLogTransport_settled,
        probeSFTPLogTransport_settled, probeFTPLogTransport_settled.
    apply unhealthy_settled. unfold produced_reasons; simpl; tauto.
  - unfold consult_manager.
    destruct manager as [m | ];
      [ destruct (GetServerConnectionStatus m (Id server)) as [cs | e];
        [ destruct (status_Connected cs) | ] | ];
      cbn; unfold settled, produced_reasons; simpl; tauto.
Qed.

(* ===================================================================== *)
(** ** The registry under connect and disconnect *)
(* ===================================================================== *)

Section Registry.

Lemma lookup_store_eq m serverID conn :
  connections (store serverID conn m) !! serverID = Some conn.
Proof. unfold store; simpl. apply lookup_insert_eq. Qed.

Lemma lookup_store_ne m serverID serverID' conn :
  serverID <> serverID' ->
  connections (store serverID conn m) !! serverID' = connections m !! serverID'.
Proof. intros H. unfold store; simpl. by apply lookup_insert_ne. Qed.

Lemma connections_emit e m : connections (emit e m) = connections m.
Proof. reflexivity. Qed.

Lemma connections_close_source s m :
  connections (close_source s m) = connections m.
Proof. destruct s; reflexivity. Qed.

(** After any call, the record is present and connected exactly when the
    call was a connect that did not fail. *)
Lemma connected_after_call (serverID : UUID) (m : LogwatcherManager) (c : Call) :
  connected (fst (call serverID m c)) serverID
  = connect_ok (c, snd (call serverID m c)).
Proof.
  unfold connected, call, ConnectToServer, DisconnectFromServer.
  destruct c as [config now | ].
  - destruct (connections m !! serverID) as [conn | ] eqn:Hl.
    + destruct (Connected conn) eqn:Hc; cbn [negb].
      * cbn. rewrite lookup_insert_eq. cbn. exact Hc.
      * destruct (_ <? _); cbn.
        { rewrite Hl. exact Hc. }
        destruct (createLogSource config) as [src | e]; cbn.
        { rewrite connections_close_source. cbn.
          rewrite lookup_insert_eq. reflexivity. }
        rewrite lookup_insert_eq. cbn. exact Hc.
    + destruct (createLogSource config) as [src | e]; cbn.
      * rewrite lookup_insert_eq. reflexivity.
      * rewrite Hl. reflexivity.
  - destruct (connections m !! serverID) as [conn | ] eqn:Hl.
    + destruct (Connected conn) eqn:Hc; cbn [negb]; cbn.
      * rewrite connections_close_source. cbn.
        rewrite lookup_insert_eq. reflexivity.
      * rewrite Hl. exact Hc.
    + cbn. rewrite Hl. reflexivity.
Qed.

(** A call never removes a record, and it adds one exactly when it is a
    connect that did not fail. *)
Lemma present_after_call (serverID : UUID) (m : LogwatcherManager) (c : Call) :
  present (fst (call serverID m c)) serverID
  = present m serverID || connect_ok (c, snd (call serverID m c)).
Proof.
  unfold present, call, ConnectToServer, DisconnectFromServer.
  destruct c as [config now | ].
  - destruct (connections m !! serverID) as [conn | ] eqn:Hl.
    + destruct (Connected conn) eqn:Hc; cbn [negb].
      * cbn. rewrite lookup_insert_eq. reflexivity.
      * destruct (_ <? _); cbn.
        { rewrite Hl. reflexivity. }
        destruct (createLogSource config) as [src | e]; cbn.
        { rewrite connections_close_source. cbn.
          rewrite lookup_insert_eq. reflexivity. }
        rewrite lookup_insert_eq. reflexivity.
    + destruct (createLogSource config) as [src | e]; cbn.
      * rewrite lookup_insert_eq. reflexivity.
      * rewrite Hl. reflexivity.
  - destruct (connections m !! serverID) as [conn | ] eqn:Hl.
    + destruct (Connected conn) eqn:Hc; cbn [negb]; cbn.
      * rewrite connections_close_source. cbn.
        rewrite lookup_insert_eq. reflexivity.
      * rewrite Hl. reflexivity.
    + cbn. rewrite Hl. reflexivity.
Qed.

Lemma run_snoc serverID m calls c :
  run serverID m (calls ++ [c])
  = (fst (call serverID (fst (run serverID m calls)) c),
     snd (run serverID m calls)
     ++ [snd (call serverID (fst (run serverID m calls)) c)]).
Proof.
  revert m. induction calls as [ | c0 calls IH]; intros m; simpl.
  - destruct (call serverID m c) as [m1 r]. reflexivity.
  - destruct (call serverID m c0) as [m1 r0]. rewrite IH.
    destruct (run serverID m1 calls) as [m2 rs]. reflexivity.
Qed.

Lemma run_length serverID m calls :
  length (snd (run serverID m calls)) = length calls.
Proof.
  revert m. induction calls as [ | c0 calls IH]; intros m; simpl;
    [ reflexivity | ].
  destruct (call serverID m c0) as [m1 r0]. specialize (IH m1).
  destruct (run serverID m1 calls) as [m2 rs]. simpl in *. congruence.
Qed.

End Registry.

Section Lifecycle.

Lemma combine_snoc {A B} (l : list A) (l' : list B) (a : A) (b : B) :
  length l = length l' ->
  combine (l ++ [a]) (l' ++ [b]) = combine l l' ++ [(a, b)].
Proof.
  revert l'. induction l as [ | x l IH]; intros [ | y l'] H; simpl in *;
    try discriminate; [ reflexivity | ].
  f_equal. apply IH. congruence.
Qed.

Lemma last_connect_ok_snoc calls rs c r :
  length calls = length rs ->
  last_connect_ok (calls ++ [c]) (rs ++ [r]) = connect_ok (c, r).
Proof.
  intros H. unfold last_connect_ok.
  rewrite combine_snoc by exact H.
  rewrite List.map_app. simpl. rewrite List.last_last. reflexivity.
Qed.

(** A record that exists is reported, after a disconnect, as not
    connected. *)
Lemma status_after_disconnect m serverID conn :
  connections m !! serverID = Some conn ->
  exists st,
    GetServerConnectionStatus (fst (DisconnectFromServer m serverID)) serverID
    = inl st /\ status_Connected st = false.
Proof.
  intros Hl. unfold DisconnectFromServer, GetServerConnectionStatus.
  rewrite Hl. destruct (Connected conn) eqn:Hc; cbn.
  - rewrite connections_close_source. cbn. rewrite lookup_insert_eq.
    eexists; split; reflexivity.
  - rewrite Hl. eexists; split; [ reflexivity | exact Hc ].
Qed.

(** A record that exists is reported, after shutdown, as not
    connected. *)
Lemma status_after_shutdown m serverID conn :
  connections m !! serverID = Some conn ->
  exists st,
    GetServerConnectionStatus (shutdown_and_cleanup m) serverID = inl st /\
    status_Connected st = false.
Proof.
  intros Hl. unfold GetServerConnectionStatus, shutdown_and_cleanup,
    cleanupAllConnections, Shutdown. cbn.
  rewrite lookup_fmap, Hl. cbn. eexists; split; reflexivity.
Qed.

(** The writes of a watcher neither add nor remove a record, and they
    never mark one connected. *)
Lemma present_watchLogs_lost m serverID s :
  present (watchLogs_lost m serverID s) serverID = present m serverID.
Proof.
  unfold present, watchLogs_lost.
  destruct (connections m !! serverID) as [conn | ] eqn:Hl;
    [ | rewrite Hl; reflexivity ].
  cbn. rewrite lookup_insert_eq. reflexivity.
Qed.

Lemma connected_watchLogs_lost m serverID s :
  connected (watchLogs_lost m serverID s) serverID = false.
Proof.
  unfold connected, watchLogs_lost.
  destruct (connections m !! serverID) as [conn | ] eqn:Hl;
    [ | rewrite Hl; reflexivity ].
  cbn. rewrite lookup_insert_eq. reflexivity.
Qed.

Lemma present_watchLogs_line m serverID now :
  present (watchLogs_line m serverID now) serverID = present m serverID.
Proof.
  unfold present, watchLogs_line.
  destruct (connections m !! serverID) as [conn | ] eqn:Hl;
    [ | rewrite Hl; reflexivity ].
  cbn. rewrite lookup_insert_eq. reflexivity.
Qed.

Lemma connected_watchLogs_line m serverID now :
  connected (watchLogs_line m serverID now) serverID = connected m serverID.
Proof.
  unfold connected, watchLogs_line.
  destruct (connections m !! serverID) as [conn | ] eqn:Hl;
    [ | rewrite Hl; reflexivity ].
  cbn. rewrite lookup_insert_eq. reflexivity.
Qed.

Lemma last_call_connect_ok_snoc log cr :
  last_call_connect_ok (log ++ [cr]) = connect_ok cr.
Proof.
  unfold last_call_connect_ok.
  rewrite List.map_app. simpl. rewrite List.last_last. reflexivity.
Qed.

(** A sequence of calls with no write of a watcher in between is a
    history. *)
Lemma run_history serverID m0 calls :
  history serverID m0 (combine calls (snd (run serverID m0 calls)))
    (fst (run serverID m0 calls)).
Proof.
  induction calls as [ | c calls IH] using rev_ind.
  - apply hist_start.
  - rewrite run_snoc. cbn [fst snd].
    rewrite combine_snoc by (symmetry; apply run_length).
    apply hist_call. exact IH.
Qed.

End Lifecycle.

(** C1, the claim refuted: after a connect that succeeds and a
    disconnect that succeeds, the last call is not a connect, yet the
    record is still in the registry and the status query finds it,
    reporting it as not connected.  The same holds after shutdown. *)
Lemma record_survives_disconnect :
  let calls := [Connect local_config 1000 1000; Disconnect] in
  let m := fst (run server_a NewLogwatcherManager calls) in
  let rs := snd (run server_a NewLogwatcherManager calls) in
  rs = [None; None] /\
  last_connect_ok calls rs = false /\
  present m server_a = true /\
  GetServerConnectionStatus m server_a
  = inl (mkStatus false local_config 1000) /\
  GetServerConnectionStatus
    (shutdown_and_cleanup
       (fst (run server_a NewLogwatcherManager [Connect local_config 1000 1000])))
    server_a
  = inl (mkStatus false local_config 1000).
Proof. vm_compute. repeat split; reflexivity. Qed.

(** C1, as the code has it.  For the calls of connect and disconnect
    made on one server id, starting without a record for it, and
    whatever its watchers write in between: the record is present
    exactly when some connect among the calls did not fail (a record is
    never removed); it is marked connected only if the last call was a
    connect that did not fail; and once present, a status query after a
    disconnect or after shutdown finds it and reports it as not
    connected. *)
Theorem registry_lifecycle
    (serverID : UUID) (m0 m : LogwatcherManager)
    (log : list (Call * option error)) :
  connections m0 !! serverID = None ->
  history serverID m0 log m ->
  present m serverID = existsb connect_ok log /\
  (connected m serverID = true -> last_call_connect_ok log = true) /\
  (present m serverID = true ->
   (exists st,
      GetServerConnectionStatus (fst (DisconnectFromServer m serverID))
        serverID = inl st /\ status_Connected st = false) /\
   (exists st,
      GetServerConnectionStatus (shutdown_and_cleanup m) serverID = inl st /\
      status_Connected st = false)).
Proof.
  intros H0 H.
  assert (Hpc : present m serverID = existsb connect_ok log /\
                (connected m serverID = true ->
                 last_call_connect_ok log = true)).
  { induction H as [ | log m c _ [IHp IHc] | log m c s _ [IHp IHc] _ _
                   | log m c s now _ [IHp IHc] _ ].
    - unfold present, connected. rewrite H0. split; [ reflexivity | ].
      discriminate.
    - split.
      + rewrite existsb_app, present_after_call, IHp. simpl.
        rewrite orb_false_r. reflexivity.
      + rewrite last_call_connect_ok_snoc, connected_after_call. tauto.
    - rewrite present_watchLogs_lost, connected_watchLogs_lost.
      split; [ exact IHp | discriminate ].
    - rewrite present_watchLogs_line, connected_watchLogs_line.
      split; [ exact IHp | exact IHc ]. }
  destruct Hpc as [Hp Hc].
  split; [ exact Hp | ]. split; [ exact Hc | ].
  unfold present.
  destruct (connections m !! serverID) as [conn | ] eqn:Hl;
    [ intros _ | discriminate ].
  split; eauto using status_after_disconnect, status_after_shutdown.
Qed.

(** On a new manager, a connect that succeeds and then the loss of the
    source by the watcher it started: the record is in the registry, and
    it is not connected although the last call was a connect that did
    not fail. *)
Lemma registry_lifecycle_witness :
  let src := mkSource 0 (NewLocalFileSource "/srv/squad/SquadGame.log") in
  let log := [(Connect local_config 1000 1000, None)] in
  let m :=
    watchLogs_lost
      (fst (call server_a NewLogwatcherManager
              (Connect local_config 1000 1000)))
      server_a src in
  connections NewLogwatcherManager !! server_a = None /\
  history server_a NewLogwatcherManager log m /\
  present m server_a = true /\
  connected m server_a = false /\
  last_call_connect_ok log = true.
Proof.
  intros src log m.
  assert (H0 : connections NewLogwatcherManager !! server_a = None)
    by reflexivity.
  assert (H : history server_a NewLogwatcherManager log m).
  { exact (hist_lost server_a NewLogwatcherManager log _ 1%nat src
             (hist_call server_a NewLogwatcherManager [] _
                (Connect local_config 1000 1000)
                (hist_start server_a NewLogwatcherManager))
             (or_introl eq_refl) eq_refl). }
  split; [ exact H0 | ]. split; [ exact H | ]. split.
  - exact (eq_trans
             (proj1 (registry_lifecycle server_a NewLogwatcherManager m log
                       H0 H))
             eq_refl).
  - split; reflexivity.
Defined.

(* ===================================================================== *)
(** ** Reconnect gate *)
(* ===================================================================== *)

(** The sample states hold the records written out for them. *)
Example m_backoff_record :
  connections m_backoff !! server_a = Some conn_backoff.
Proof. vm_compute. reflexivity. Qed.

Example m_reconnected_record :
  connections m_reconnected !! server_a = Some conn_reconnected.
Proof. vm_compute. reflexivity. Qed.

Example m_connected_record :
  connections m_connected !! server_a = Some conn_connected.
Proof. vm_compute. reflexivity. Qed.

(** The clock does not run backwards: a later reading sees no less time
    elapsed. *)
Lemma time_Since_mono (now later t : Time) :
  now <= later -> time_Since now t <= time_Since later t.
Proof. unfold time_Since, time_Sub, minInt64, maxInt64. lia. Qed.

(** C6.  A connect on a record that is not connected, made before the
    backoff delay of its attempt count has elapsed since the last
    reconnect, fails with the reconnect-delayed error and changes
    nothing: the manager, and with it the record (attempt count, last
    reconnect time, configuration, log source, connected flag), is as
    before.  The error carries the delay less the time elapsed at a
    second reading of the clock, made after the test; when the clock has
    not run backwards in between (and the last reconnect is not in the
    future), this is the exact difference and at most what remained at
    the test. *)
Theorem ConnectToServer_delayed
    (m : LogwatcherManager) (serverID : UUID) (config : LogSourceConfig)
    (now later : Time) (conn : ServerLogConnection) :
  connections m !! serverID = Some conn ->
  Connected conn = false ->
  time_Since now (lastReconnectTime conn)
  < calculateReconnectDelay (reconnectAttempts conn) ->
  let delay := calculateReconnectDelay (reconnectAttempts conn) in
  let elapsed := time_Since now (lastReconnectTime conn) in
  let elapsed' := time_Since later (lastReconnectTime conn) in
  ConnectToServer m serverID config now later
  = (m, Some (ErrReconnectDelayed (int_sub delay elapsed'))) /\
  connections (fst (ConnectToServer m serverID config now later)) !! serverID
  = Some conn /\
  (0 <= elapsed -> now <= later ->
   int_sub delay elapsed' = delay - elapsed' /\
   delay - elapsed' <= delay - elapsed <= delay).
Proof.
  intros Hl Hc Hlt delay elapsed elapsed'.
  assert (Heq : ConnectToServer m serverID config now later
                = (m, Some (ErrReconnectDelayed (int_sub delay elapsed')))).
  { unfold ConnectToServer. rewrite Hl, Hc. cbn [negb].
    fold delay elapsed elapsed'. apply Z.ltb_lt in Hlt.
    fold delay elapsed in Hlt. rewrite Hlt. reflexivity. }
  split; [ exact Heq | ]. split; [ rewrite Heq; exact Hl | ].
  intros Hpos Hle.
  pose proof (calculateReconnectDelay_le_max (reconnectAttempts conn)) as Hmax.
  pose proof (time_Since_mono now later (lastReconnectTime conn) Hle) as Hmono.
  assert (Hhi : elapsed' <= maxInt64)
    by (unfold elapsed', time_Since, time_Sub, minInt64, maxInt64; lia).
  fold delay in Hmax, Hlt. fold elapsed in Hlt, Hmono.
  fold elapsed' in Hmono.
  change maxDelay with 60000000000 in Hmax.
  change maxInt64 with 9223372036854775807 in Hhi.
  split; [ | lia ].
  unfold int_sub, wrap64. rewrite Z.mod_small; lia.
Qed.

(** Two seconds after a failed first reconnect, a connect is refused;
    it reads the clock again one millisecond later and reports 2.999 s
    as remaining. *)
Lemma ConnectToServer_delayed_witness :
  connections m_backoff !! server_a = Some conn_backoff /\
  Connected conn_backoff = false /\
  time_Since (1002 * Second) (lastReconnectTime conn_backoff)
  < calculateReconnectDelay (reconnectAttempts conn_backoff) /\
  ConnectToServer m_backoff server_a local_config (1002 * Second)
    (1002 * Second + Millisecond)
  = (m_backoff, Some (ErrReconnectDelayed (2999 * Millisecond))).
Proof.
  assert (H1 : connections m_backoff !! server_a = Some conn_backoff)
    by (vm_compute; reflexivity).
  assert (H2 : Connected conn_backoff = false) by reflexivity.
  assert (H3 : time_Since (1002 * Second) (lastReconnectTime conn_backoff)
               < calculateReconnectDelay (reconnectAttempts conn_backoff))
    by (vm_compute; reflexivity).
  split; [ exact H1 | ]. split; [ exact H2 | ]. split; [ exact H3 | ].
  exact (proj1 (ConnectToServer_delayed m_backoff server_a local_config
                  (1002 * Second) (1002 * Second + Millisecond)
                  conn_backoff H1 H2 H3)).
Defined.

(** The remainder reported need not be positive: a connect that passes
    the test one nanosecond before the delay of 5 s is over, and reads
    the clock again 51 ns later, is refused with -50 ns. *)
Example ConnectToServer_delayed_overdue :
  ConnectToServer m_backoff server_a local_config
    (1005 * Second - 1) (1005 * Second + 50)
  = (m_backoff, Some (ErrReconnectDelayed (-50))).
Proof. vm_compute. reflexivity. Qed.

(* ===================================================================== *)
(** ** Disconnect *)
(* ===================================================================== *)

Section Disconnecting.

(** [DisconnectFromServer] fails with the not-found error exactly when
    there is no record. *)
Lemma DisconnectFromServer_not_found m serverID :
  snd (DisconnectFromServer m serverID)
  = Some (errors_New "server log connection not found")
  <-> connections m !! serverID = None.
Proof.
  unfold DisconnectFromServer.
  destruct (connections m !! serverID) as [conn | ];
    [ destruct (Connected conn) | ]; cbn; split; congruence.
Qed.

(** It fails with the already-disconnected error exactly when there is a
    record that is not connected. *)
Lemma DisconnectFromServer_already_disconnected m serverID :
  snd (DisconnectFromServer m serverID)
  = Some (errors_New "server log connection already disconnected")
  <-> exists conn,
        connections m !! serverID = Some conn /\ Connected conn = false.
Proof.
  unfold DisconnectFromServer.
  destruct (connections m !! serverID) as [conn | ];
    [ destruct (Connected conn) eqn:Hc | ]; cbn; split;
    try congruence; try (intros (conn' & H & H'); congruence).
  intros _. exists conn. split; [ reflexivity | exact Hc ].
Qed.

(** Otherwise it succeeds: it calls the cancel function stored in the
    record, closes the record's source and marks the record
    disconnected; nothing else in the record changes. *)
Lemma DisconnectFromServer_connected m serverID conn :
  connections m !! serverID = Some conn ->
  Connected conn = true ->
  DisconnectFromServer m serverID
  = (store serverID (set_Connected false conn)
       (close_source (LogSource conn) (emit (EvCancel (cancel conn)) m)),
     None).
Proof.
  intros Hl Hc. unfold DisconnectFromServer. rewrite Hl, Hc. reflexivity.
Qed.

Lemma DisconnectFromServer_success m serverID :
  snd (DisconnectFromServer m serverID) = None
  <-> exists conn,
        connections m !! serverID = Some conn /\ Connected conn = true.
Proof.
  unfold DisconnectFromServer.
  destruct (connections m !! serverID) as [conn | ];
    [ destruct (Connected conn) eqn:Hc | ]; cbn; split;
    try congruence; try (intros (conn' & H & H'); congruence).
  intros _. exists conn. split; [ reflexivity | exact Hc ].
Qed.

End Disconnecting.

(** C8.  A disconnect of a record that was reconnected.  The record of
    [m_reconnected] is connected; the watcher reading its source was
    started by the reconnect on the root context.  The disconnect
    succeeds, closes the source and marks the record disconnected, but
    the cancel function it calls is the one stored when the record was
    created: the context of the running watcher, the root context, is
    not cancelled. *)
Theorem DisconnectFromServer_after_reconnect :
  let src := mkSource 1 (NewLocalFileSource "/srv/squad/SquadGame.log") in
  let m' := fst (DisconnectFromServer m_reconnected server_a) in
  connections m_reconnected !! server_a = Some conn_reconnected /\
  LogSource conn_reconnected = Some src /\
  watcher_ctx (events m_reconnected) src = Some rootCtx /\
  running (events m_reconnected) rootCtx src = true /\
  snd (DisconnectFromServer m_reconnected server_a) = None /\
  connected m' server_a = false /\
  closed (events m') src = true /\
  cancelled (events m') (cancel conn_reconnected) = true /\
  cancel conn_reconnected <> rootCtx /\
  ctx_done (events m') rootCtx = false.
Proof. vm_compute. repeat split; discriminate. Qed.

(* ===================================================================== *)
(** ** Watchers of a connected record *)
(* ===================================================================== *)

Section Watchers.

Lemma in_watch_addrs (evs : list Event) (a : nat) :
  In a (watch_addrs evs) <->
  exists c serverID s, In (EvWatch c serverID s) evs /\ addr s = a.
Proof.
  unfold watch_addrs. rewrite in_flat_map. split.
  - intros (e & He & Ha). destruct e as [ | | c i s | ]; simpl in Ha;
      try contradiction.
    destruct Ha as [Ha | []]. exists c, i, s. split; assumption.
  - intros (c & i & s & He & Ha). exists (EvWatch c i s).
    split; [ exact He | ]. simpl. left. exact Ha.
Qed.

(** Two watchers are never started for the same source object. *)
Lemma watch_unique (evs : list Event) c1 i1 s1 c2 i2 s2 :
  List.NoDup (watch_addrs evs) ->
  In (EvWatch c1 i1 s1) evs -> In (EvWatch c2 i2 s2) evs ->
  addr s1 = addr s2 ->
  EvWatch c1 i1 s1 = EvWatch c2 i2 s2.
Proof.
  induction evs as [ | e evs IH]; intros Hnd H1 H2 Ha; [ destruct H1 | ].
  assert (Hnd' : List.NoDup (watch_addrs evs)).
  { destruct e; simpl in Hnd; try exact Hnd. inversion Hnd; assumption. }
  destruct H1 as [H1 | H1], H2 as [H2 | H2].
  - congruence.
  - subst e. simpl in Hnd. inversion Hnd as [ | ? ? Hnot _]; subst.
    exfalso. apply Hnot. apply in_watch_addrs. exists c2, i2, s2.
    split; [ exact H2 | symmetry; exact Ha ].
  - subst e. simpl in Hnd. inversion Hnd as [ | ? ? Hnot _]; subst.
    exfalso. apply Hnot. apply in_watch_addrs. exists c1, i1, s1.
    split; [ exact H1 | exact Ha ].
  - apply IH; assumption.
Qed.

Lemma cancelled_cons e evs c :
  cancelled (e :: evs) c
  = match e with EvCancel c' => Nat.eqb c' c | _ => false end
    || cancelled evs c.
Proof. reflexivity. Qed.

Lemma closed_cons e evs s :
  closed (e :: evs) s
  = match e with EvClose s' => Nat.eqb (addr s') (addr s) | _ => false end
    || closed evs s.
Proof. reflexivity. Qed.

Lemma exited_cons e evs s :
  exited (e :: evs) s
  = match e with EvExit s' => Nat.eqb (addr s') (addr s) | _ => false end
    || exited evs s.
Proof. reflexivity. Qed.

Lemma closed_mono e evs s : closed evs s = true -> closed (e :: evs) s = true.
Proof. intros H. rewrite closed_cons, H. apply orb_true_r. Qed.

(** A running watcher keeps running when an event is added that neither
    cancels its context or the root context, nor closes or ends the
    watcher of its source. *)
Lemma running_cons e evs c s :
  running evs c s = true ->
  match e with
  | EvCancel c' => c' <> c /\ c' <> rootCtx
  | EvClose s' | EvExit s' => addr s' <> addr s
  | EvWatch _ _ _ => True
  end ->
  running (e :: evs) c s = true.
Proof.
  unfold running, ctx_done. intros H He.
  rewrite !cancelled_cons, closed_cons, exited_cons.
  destruct e as [c' | s' | c' i' s' | s']; cbn [orb];
    try exact H.
  - destruct He as [H1 H2].
    apply Nat.eqb_neq in H1, H2. rewrite H1, H2. exact H.
  - apply Nat.eqb_neq in He. rewrite He. exact H.
  - apply Nat.eqb_neq in He. rewrite He. exact H.
Qed.

(** A watcher on a new context and a new source is running. *)
Lemma running_fresh evs c s :
  cancelled evs rootCtx = false -> cancelled evs c = false ->
  closed evs s = false -> exited evs s = false ->
  running evs c s = true.
Proof.
  intros H1 H2 H3 H4. unfold running, ctx_done.
  rewrite H1, H2, H3, H4. reflexivity.
Qed.

Lemma Inv_new : Inv NewLogwatcherManager.
Proof.
  constructor; simpl.
  - reflexivity.
  - intros i conn H. rewrite lookup_empty in H. discriminate.
  - intros i1 i2 c1 c2 H. rewrite lookup_empty in H. discriminate.
  - discriminate.
  - discriminate.
  - discriminate.
  - intros c i s [].
  - constructor.
  - intros i conn H. rewrite lookup_empty in H. discriminate.
  - intros c i s [].
Qed.

(** A write to a record that keeps its source and its cancel function,
    and does not mark it connected, preserves the invariant. *)
Lemma Inv_store_same m serverID conn conn' :
  Inv m ->
  connections m !! serverID = Some conn ->
  LogSource conn' = LogSource conn ->
  cancel conn' = cancel conn ->
  (Connected conn' = true -> Connected conn = true) ->
  Inv (store serverID conn' m).
Proof.
  intros I Hl Hs Hc Hconn. destruct I. constructor; simpl; try assumption.
  - intros j cj Hj. destruct (decide (serverID = j)) as [<- | Hne].
    + rewrite lookup_insert_eq in Hj. inversion Hj; subst cj.
      rewrite Hc. eauto.
    + rewrite lookup_insert_ne in Hj by exact Hne. eauto.
  - intros j1 j2 c1 c2 H1 H2 Heq.
    assert (Hold : forall j cj, <[serverID:=conn']> (connections m) !! j = Some cj ->
                     exists cj', connections m !! j = Some cj' /\ cancel cj' = cancel cj).
    { intros j cj Hj. destruct (decide (serverID = j)) as [<- | Hne].
      - rewrite lookup_insert_eq in Hj. inversion Hj; subst cj.
        exists conn. split; [ exact Hl | symmetry; exact Hc ].
      - rewrite lookup_insert_ne in Hj by exact Hne. eauto. }
    destruct (Hold _ _ H1) as (c1' & H1' & E1).
    destruct (Hold _ _ H2) as (c2' & H2' & E2).
    apply (inv_cancel_inj0 j1 j2 c1' c2' H1' H2'). congruence.
  - intros j cj Hj. destruct (decide (serverID = j)) as [<- | Hne].
    + rewrite lookup_insert_eq in Hj. inversion Hj; subst cj.
      destruct (inv_current0 _ _ Hl) as (s & c & H1 & H2 & H3 & H4).
      exists s, c. rewrite Hs, Hc. repeat split; auto.
    + rewrite lookup_insert_ne in Hj by exact Hne. eauto.
  - intros c j s Hin. destruct (inv_stale0 _ _ _ Hin) as (cj & Hj & Hcl).
    destruct (decide (serverID = j)) as [<- | Hne].
    + exists conn'. rewrite lookup_insert_eq. split; [ reflexivity | ].
      intros s0 Hs0. apply Hcl. rewrite Hl in Hj. inversion Hj; subst cj.
      rewrite <- Hs. exact Hs0.
    + exists cj. rewrite lookup_insert_ne by exact Hne. split; assumption.
Qed.

(** The sources of the records of two servers are different objects. *)
Lemma current_sources_differ m i j c cj s sj :
  Inv m -> i <> j ->
  In (EvWatch c i s) (events m) -> In (EvWatch cj j sj) (events m) ->
  addr s <> addr sj.
Proof.
  intros I Hne H1 H2 Ha.
  pose proof (watch_unique _ _ _ _ _ _ _ (inv_watch_nodup m I) H1 H2 Ha) as E.
  inversion E. contradiction.
Qed.

Lemma Inv_disconnect m serverID :
  Inv m -> Inv (fst (DisconnectFromServer m serverID)).
Proof.
  intros I. unfold DisconnectFromServer.
  destruct (connections m !! serverID) as [conn | ] eqn:Hl; [ | exact I ].
  destruct (Connected conn) eqn:Hc; cbn [negb fst]; [ | exact I ].
  destruct (inv_current m I _ _ Hl) as (s & c & Hs & Hin & Hcc & Hrun).
  pose proof (inv_cancel_bound m I _ _ Hl) as Hk.
  rewrite Hs. cbn [close_source].
  constructor; cbn [store emit events connections derived allocated].
  - rewrite !cancelled_cons. cbn [orb].
    destruct (Nat.eqb_spec (cancel conn) rootCtx) as [E | _];
      [ unfold rootCtx in E; lia | ].
    apply (inv_root m I).
  - intros j cj Hj. destruct (decide (serverID = j)) as [<- | Hne].
    + rewrite lookup_insert_eq in Hj. inversion Hj; subst cj. exact Hk.
    + rewrite lookup_insert_ne in Hj by exact Hne.
      exact (inv_cancel_bound m I _ _ Hj).
  - intros j1 j2 c1 c2 H1 H2 Heq.
    assert (Hold : forall j cj,
               <[serverID:=set_Connected false conn]> (connections m) !! j
               = Some cj ->
               exists cj', connections m !! j = Some cj'
                           /\ cancel cj' = cancel cj).
    { intros j cj Hj. destruct (decide (serverID = j)) as [<- | Hne].
      - rewrite lookup_insert_eq in Hj. inversion Hj; subst cj.
        exists conn. split; [ exact Hl | reflexivity ].
      - rewrite lookup_insert_ne in Hj by exact Hne. eauto. }
    destruct (Hold _ _ H1) as (c1' & H1' & E1).
    destruct (Hold _ _ H2) as (c2' & H2' & E2).
    apply (inv_cancel_inj m I j1 j2 c1' c2' H1' H2'). congruence.
  - intros c0. rewrite !cancelled_cons. cbn [orb]. intros H.
    apply orb_true_iff in H. destruct H as [H | H].
    + apply Nat.eqb_eq in H. subst c0. lia.
    + exact (inv_cancelled_bound m I _ H).
  - intros s0. rewrite !closed_cons. cbn [orb]. intros H.
    apply orb_true_iff in H. destruct H as [H | H].
    + apply Nat.eqb_eq in H. rewrite <- H.
      exact (inv_watch_bound m I _ _ _ Hin).
    + exact (inv_closed_bound m I _ H).
  - intros s0. rewrite !exited_cons. cbn [orb].
    exact (inv_exited_bound m I s0).
  - intros c0 j s0 [H | [H | H]]; try discriminate.
    exact (inv_watch_bound m I _ _ _ H).
  - exact (inv_watch_nodup m I).
  - intros j cj Hj. destruct (decide (serverID = j)) as [<- | Hne].
    + rewrite lookup_insert_eq in Hj. inversion Hj; subst cj.
      exists s, c. cbn.
      split; [ exact Hs | ]. split; [ right; right; exact Hin | ].
      split; [ exact Hcc | discriminate ].
    + rewrite lookup_insert_ne in Hj by exact Hne.
      destruct (inv_current m I _ _ Hj) as (sj & cj' & Hsj & Hinj & Hccj & Hrunj).
      exists sj, cj'.
      split; [ exact Hsj | ]. split; [ right; right; exact Hinj | ].
      split; [ exact Hccj | ].
      intros Hcj. specialize (Hrunj Hcj).
      apply running_cons.
      * apply running_cons; [ exact Hrunj | ].
        split.
        -- destruct Hccj as [-> | ->]; [ unfold rootCtx; lia | ].
           intros E. apply Hne.
           exact (inv_cancel_inj m I _ _ _ _ Hl Hj E).
        -- unfold rootCtx; lia.
      * exact (current_sources_differ m _ _ _ _ _ _ I Hne Hin Hinj).
  - intros c0 j s0 [H | [H | H]]; try discriminate.
    destruct (inv_stale m I _ _ _ H) as (cj & Hj & Hcl).
    destruct (decide (serverID = j)) as [<- | Hne].
    + exists (set_Connected false conn). rewrite lookup_insert_eq.
      split; [ reflexivity | ]. cbn [LogSource set_Connected].
      intros s1 Hs1 Hne1.
      rewrite Hl in Hj. inversion Hj; subst cj.
      do 2 apply closed_mono. exact (Hcl s1 Hs1 Hne1).
    + exists cj. rewrite lookup_insert_ne by exact Hne.
      split; [ exact Hj | ]. intros s1 Hs1 Hne1.
      do 2 apply closed_mono. exact (Hcl s1 Hs1 Hne1).
Qed.

Lemma Inv_line m serverID now :
  Inv m -> Inv (watchLogs_line m serverID now).
Proof.
  intros I. unfold watchLogs_line.
  destruct (connections m !! serverID) as [conn | ] eqn:Hl; [ | exact I ].
  apply (Inv_store_same m serverID conn); auto.
Qed.

Lemma Inv_lost m c serverID s :
  Inv m -> In (EvWatch c serverID s) (events m) ->
  Inv (watchLogs_lost m serverID s).
Proof.
  intros I Hw. unfold watchLogs_lost.
  destruct (connections m !! serverID) as [conn | ] eqn:Hl; [ | exact I ].
  assert (I1 : Inv (store serverID (set_Connected false conn) m)).
  { apply (Inv_store_same m serverID conn); auto. discriminate. }
  assert (Hl1 : connections (store serverID (set_Connected false conn) m)
                !! serverID = Some (set_Connected false conn))
    by apply lookup_store_eq.
  set (m1 := store serverID (set_Connected false conn) m) in *.
  assert (Hw1 : In (EvWatch c serverID s) (events m1)) by exact Hw.
  clearbody m1. clear I Hl Hw.
  constructor; cbn [emit events connections derived allocated].
  - rewrite cancelled_cons. exact (inv_root m1 I1).
  - exact (inv_cancel_bound m1 I1).
  - exact (inv_cancel_inj m1 I1).
  - intros c0. rewrite cancelled_cons. exact (inv_cancelled_bound m1 I1 c0).
  - intros s0. rewrite closed_cons. exact (inv_closed_bound m1 I1 s0).
  - intros s0. rewrite exited_cons. cbn [orb]. intros H.
    apply orb_true_iff in H. destruct H as [H | H].
    + apply Nat.eqb_eq in H. rewrite <- H.
      exact (inv_watch_bound m1 I1 _ _ _ Hw1).
    + exact (inv_exited_bound m1 I1 _ H).
  - intros c0 j s0 [H | H]; [ discriminate | ].
    exact (inv_watch_bound m1 I1 _ _ _ H).
  - exact (inv_watch_nodup m1 I1).
  - intros j cj Hj.
    destruct (inv_current m1 I1 _ _ Hj) as (sj & cj' & Hsj & Hinj & Hccj & Hrunj).
    exists sj, cj'.
    split; [ exact Hsj | ]. split; [ right; exact Hinj | ].
    split; [ exact Hccj | ].
    intros Hcj. apply running_cons; [ exact (Hrunj Hcj) | ].
    destruct (decide (serverID = j)) as [<- | Hne].
    + rewrite Hl1 in Hj. inversion Hj; subst cj. discriminate Hcj.
    + exact (current_sources_differ m1 _ _ _ _ _ _ I1 Hne Hw1 Hinj).
  - intros c0 j s0 [H | H]; [ discriminate | ].
    destruct (inv_stale m1 I1 _ _ _ H) as (cj & Hj & Hcl).
    exists cj. split; [ exact Hj | ]. intros s1 Hs1 Hne1.
    apply closed_mono. exact (Hcl s1 Hs1 Hne1).
Qed.

(** A source object not yet allocated is neither closed nor left by its
    watcher, and no watcher was started for it. *)
Lemma fresh_source m s :
  Inv m -> addr s = allocated m ->
  closed (events m) s = false /\ exited (events m) s = false /\
  ~ In (addr s) (watch_addrs (events m)).
Proof.
  intros I Ha. split; [ | split ].
  - destruct (closed (events m) s) eqn:E; [ | reflexivity ].
    apply (inv_closed_bound m I) in E. lia.
  - destruct (exited (events m) s) eqn:E; [ | reflexivity ].
    apply (inv_exited_bound m I) in E. lia.
  - intros H. apply in_watch_addrs in H. destruct H as (c & i & s' & H & E).
    apply (inv_watch_bound m I) in H. lia.
Qed.

Lemma Inv_reconnect m serverID conn conn2 old call :
  Inv m ->
  connections m !! serverID = Some conn ->
  LogSource conn = Some old ->
  LogSource conn2 = Some (mkSource (allocated m) call) ->
  cancel conn2 = cancel conn ->
  Inv (emit (EvWatch rootCtx serverID (mkSource (allocated m) call))
         (store serverID conn2
            (emit (EvClose old)
               (mkManager (connections m) (derived m) (S (allocated m))
                  (events m))))).
Proof.
  intros I Hl Hs Hs2 Hc2.
  destruct (inv_current m I _ _ Hl) as (old' & c & Hs' & Hin & Hcc & _).
  rewrite Hs in Hs'. inversion Hs'; subst old'. clear Hs'.
  set (new := mkSource (allocated m) call).
  destruct (fresh_source m new I eq_refl) as (Fc & Fe & Fw).
  pose proof (inv_watch_bound m I _ _ _ Hin) as Hold.
  constructor; cbn [emit store events connections derived allocated].
  - rewrite !cancelled_cons. exact (inv_root m I).
  - intros j cj Hj. destruct (decide (serverID = j)) as [<- | Hne].
    + rewrite lookup_insert_eq in Hj. inversion Hj; subst cj.
      rewrite Hc2. exact (inv_cancel_bound m I _ _ Hl).
    + rewrite lookup_insert_ne in Hj by exact Hne.
      exact (inv_cancel_bound m I _ _ Hj).
  - intros j1 j2 c1 c2 H1 H2 Heq.
    assert (Hprev : forall j cj,
               <[serverID:=conn2]> (connections m) !! j = Some cj ->
               exists cj', connections m !! j = Some cj'
                           /\ cancel cj' = cancel cj).
    { intros j cj Hj. destruct (decide (serverID = j)) as [<- | Hne].
      - rewrite lookup_insert_eq in Hj. inversion Hj; subst cj.
        exists conn. split; [ exact Hl | symmetry; exact Hc2 ].
      - rewrite lookup_insert_ne in Hj by exact Hne. eauto. }
    destruct (Hprev _ _ H1) as (c1' & H1' & E1).
    destruct (Hprev _ _ H2) as (c2' & H2' & E2).
    apply (inv_cancel_inj m I j1 j2 c1' c2' H1' H2'). congruence.
  - intros c0. rewrite !cancelled_cons.
    exact (inv_cancelled_bound m I c0).
  - intros s0. rewrite !closed_cons. cbn [orb]. intros H.
    apply orb_true_iff in H. destruct H as [H | H].
    + apply Nat.eqb_eq in H. lia.
    + apply (inv_closed_bound m I) in H. lia.
  - intros s0. rewrite !exited_cons. cbn [orb]. intros H.
    apply (inv_exited_bound m I) in H. lia.
  - intros c0 j s0 [H | [H | H]]; try discriminate.
    + inversion H; subst. cbn. lia.
    + apply (inv_watch_bound m I) in H. lia.
  - cbn. constructor; [ exact Fw | exact (inv_watch_nodup m I) ].
  - intros j cj Hj. destruct (decide (serverID = j)) as [<- | Hne].
    + rewrite lookup_insert_eq in Hj. inversion Hj; subst cj.
      exists new, rootCtx.
      split; [ exact Hs2 | ]. split; [ left; reflexivity | ].
      split; [ left; reflexivity | ]. intros _.
      apply running_cons; [ | exact Logic.I ].
      apply running_cons; [ | cbn; lia ].
      apply running_fresh;
        [ exact (inv_root m I) | exact (inv_root m I) | exact Fc | exact Fe ].
    + rewrite lookup_insert_ne in Hj by exact Hne.
      destruct (inv_current m I _ _ Hj)
        as (sj & cj' & Hsj & Hinj & Hccj & Hrunj).
      exists sj, cj'.
      split; [ exact Hsj | ]. split; [ right; right; exact Hinj | ].
      split; [ exact Hccj | ].
      intros Hcj. apply running_cons; [ | exact Logic.I ].
      apply running_cons; [ exact (Hrunj Hcj) | ].
      exact (current_sources_differ m _ _ _ _ _ _ I Hne Hin Hinj).
  - intros c0 j s0 [H | [H | H]]; try discriminate.
    + inversion H; subst. exists conn2. rewrite lookup_insert_eq.
      split; [ reflexivity | ]. intros s1 Hs1 Hne1.
      rewrite Hs2 in Hs1. inversion Hs1; subst s1. contradiction.
    + destruct (inv_stale m I _ _ _ H) as (cj & Hj & Hcl).
      destruct (decide (serverID = j)) as [<- | Hne].
      * exists conn2. rewrite lookup_insert_eq.
        split; [ reflexivity | ]. intros _ _ _.
        rewrite Hl in Hj. inversion Hj; subst cj.
        apply closed_mono. rewrite closed_cons.
        destruct (Nat.eqb_spec (addr old) (addr s0)) as [E | E];
          [ reflexivity | ].
        cbn [orb]. exact (Hcl old Hs E).
      * exists cj. rewrite lookup_insert_ne by exact Hne.
        split; [ exact Hj | ]. intros s1 Hs1 Hne1.
        do 2 apply closed_mono. exact (Hcl s1 Hs1 Hne1).
Qed.

Lemma Inv_create m serverID conn call :
  Inv m ->
  connections m !! serverID = None ->
  LogSource conn = Some (mkSource (allocated m) call) ->
  cancel conn = S (derived m) ->
  Inv (emit (EvWatch (S (derived m)) serverID (mkSource (allocated m) call))
         (store serverID conn
            (mkManager (connections m) (S (derived m)) (S (allocated m))
               (events m)))).
Proof.
  intros I Hl Hs Hc.
  set (new := mkSource (allocated m) call).
  destruct (fresh_source m new I eq_refl) as (Fc & Fe & Fw).
  assert (Fk : cancelled (events m) (S (derived m)) = false).
  { destruct (cancelled (events m) (S (derived m))) eqn:E; [ | reflexivity ].
    apply (inv_cancelled_bound m I) in E. lia. }
  constructor; cbn [emit store events connections derived allocated].
  - rewrite cancelled_cons. exact (inv_root m I).
  - intros j cj Hj. destruct (decide (serverID = j)) as [<- | Hne].
    + rewrite lookup_insert_eq in Hj. inversion Hj; subst cj. lia.
    + rewrite lookup_insert_ne in Hj by exact Hne.
      apply (inv_cancel_bound m I) in Hj. lia.
  - intros j1 j2 c1 c2 H1 H2 Heq.
    destruct (decide (serverID = j1)) as [E1 | N1],
             (decide (serverID = j2)) as [E2 | N2].
    + congruence.
    + subst j1. rewrite lookup_insert_eq in H1. inversion H1; subst c1.
      rewrite lookup_insert_ne in H2 by exact N2.
      apply (inv_cancel_bound m I) in H2. lia.
    + subst j2. rewrite lookup_insert_eq in H2. inversion H2; subst c2.
      rewrite lookup_insert_ne in H1 by exact N1.
      apply (inv_cancel_bound m I) in H1. lia.
    + rewrite lookup_insert_ne in H1 by exact N1.
      rewrite lookup_insert_ne in H2 by exact N2.
      exact (inv_cancel_inj m I _ _ _ _ H1 H2 Heq).
  - intros c0. rewrite cancelled_cons. intros H.
    apply (inv_cancelled_bound m I) in H. lia.
  - intros s0. rewrite closed_cons. intros H.
    apply (inv_closed_bound m I) in H. lia.
  - intros s0. rewrite exited_cons. intros H.
    apply (inv_exited_bound m I) in H. lia.
  - intros c0 j s0 [H | H].
    + inversion H; subst. cbn. lia.
    + apply (inv_watch_bound m I) in H. lia.
  - cbn. constructor; [ exact Fw | exact (inv_watch_nodup m I) ].
  - intros j cj Hj. destruct (decide (serverID = j)) as [<- | Hne].
    + rewrite lookup_insert_eq in Hj. inversion Hj; subst cj.
      exists new, (S (derived m)).
      split; [ exact Hs | ]. split; [ left; reflexivity | ].
      split; [ right; symmetry; exact Hc | ]. intros _.
      apply running_cons; [ | exact Logic.I ].
      apply running_fresh;
        [ exact (inv_root m I) | exact Fk | exact Fc | exact Fe ].
    + rewrite lookup_insert_ne in Hj by exact Hne.
      destruct (inv_current m I _ _ Hj)
        as (sj & cj' & Hsj & Hinj & Hccj & Hrunj).
      exists sj, cj'.
      split; [ exact Hsj | ]. split; [ right; exact Hinj | ].
      split; [ exact Hccj | ].
      intros Hcj. apply running_cons; [ exact (Hrunj Hcj) | exact Logic.I ].
  - intros c0 j s0 [H | H].
    + inversion H; subst. exists conn. rewrite lookup_insert_eq.
      split; [ reflexivity | ]. intros s1 Hs1 Hne1.
      rewrite Hs in Hs1. inversion Hs1; subst s1. contradiction.
    + destruct (inv_stale m I _ _ _ H) as (cj & Hj & Hcl).
      destruct (decide (serverID = j)) as [<- | Hne];
        [ rewrite Hl in Hj; discriminate | ].
      exists cj. rewrite lookup_insert_ne by exact Hne.
      split; [ exact Hj | ]. intros s1 Hs1 Hne1.
      apply closed_mono. exact (Hcl s1 Hs1 Hne1).
Qed.

Lemma Inv_connect m serverID config now later :
  Inv m -> Inv (fst (ConnectToServer m serverID config now later)).
Proof.
  intros I. unfold ConnectToServer.
  destruct (connections m !! serverID) as [conn | ] eqn:Hl.
  - destruct (Connected conn) eqn:Hc; cbn [negb].
    { cbn [fst]. apply (Inv_store_same m serverID conn); auto. }
    destruct (_ <? _); [ exact I | ].
    destruct (createLogSource config) as [call | e]; cbn [fst].
    2:{ apply (Inv_store_same m serverID conn); auto. }
    destruct (inv_current m I _ _ Hl) as (old & c & Hs & Hin & Hcc & _).
    cbn [alloc_source LogSource set_lastReconnectTime set_reconnectAttempts].
    rewrite Hs. cbn [close_source].
    apply (Inv_reconnect m serverID conn _ old call I Hl Hs); reflexivity.
  - destruct (createLogSource config) as [call | e]; [ | exact I ].
    cbn [alloc_source context_WithCancel derived allocated connections
           events fst].
    apply Inv_create; [ exact I | exact Hl | reflexivity | reflexivity ].
Qed.

(** Every reachable state satisfies the invariant. *)
Lemma reachable_Inv m : reachable m -> Inv m.
Proof.
  induction 1 as [ | m i config now later _ IH | m i _ IH
                 | m c i s _ IH Hw _ | m c i s now _ IH _ ].
  - exact Inv_new.
  - apply Inv_connect, IH.
  - apply Inv_disconnect, IH.
  - exact (Inv_lost m c i s IH Hw).
  - apply Inv_line, IH.
Qed.

(** Among the watchers started, at most one per source object passes a
    test that only the watcher of one source object can pass. *)
Lemma filter_single (P : Event -> bool) (evs : list Event) c i s :
  List.NoDup (watch_addrs evs) ->
  In (EvWatch c i s) evs ->
  P (EvWatch c i s) = true ->
  (forall e, In e evs -> P e = true -> e = EvWatch c i s) ->
  length (List.filter P evs) = 1%nat.
Proof.
  induction evs as [ | e evs IH]; intros Hnd Hin HP Hall; [ destruct Hin | ].
  cbn [List.filter]. destruct (P e) eqn:Pe.
  - assert (e = EvWatch c i s) by (apply Hall; [ left; reflexivity | exact Pe ]).
    subst e. cbn in Hnd. inversion Hnd as [ | ? ? Hnot Hnd']; subst.
    assert (Hnil : List.filter P evs = []).
    { destruct (List.filter P evs) as [ | e' l] eqn:Ef; [ reflexivity | ].
      assert (He' : In e' (List.filter P evs)) by (rewrite Ef; left; reflexivity).
      apply List.filter_In in He'. destruct He' as [He' Pe'].
      assert (e' = EvWatch c i s)
        by (apply Hall; [ right; exact He' | exact Pe' ]).
      subst e'. exfalso. apply Hnot. apply in_watch_addrs.
      exists c, i, s. split; [ exact He' | reflexivity ]. }
    rewrite Hnil. reflexivity.
  - assert (Hnd' : List.NoDup (watch_addrs evs)).
    { destruct e; cbn in Hnd; try exact Hnd. inversion Hnd; assumption. }
    destruct Hin as [Hin | Hin]; [ congruence | ].
    apply IH; auto. intros e' He'. apply Hall. right. exact He'.
Qed.

(** A connected record has exactly one running watcher. *)
Lemma connected_one_watcher m serverID conn :
  Inv m ->
  connections m !! serverID = Some conn ->
  Connected conn = true ->
  live_watchers m serverID = 1%nat.
Proof.
  intros I Hl Hc.
  destruct (inv_current m I _ _ Hl) as (s & c & Hs & Hin & Hcc & Hrun).
  specialize (Hrun Hc). unfold live_watchers.
  apply (filter_single _ _ c serverID s (inv_watch_nodup m I) Hin).
  - cbn. rewrite N.eqb_refl, Hrun. reflexivity.
  - intros e He Pe. destruct e as [ | | c' i' s' | ]; try discriminate.
    cbn in Pe. apply andb_true_iff in Pe. destruct Pe as [Ei Er].
    apply N.eqb_eq in Ei. subst i'.
    apply (watch_unique _ _ _ _ _ _ _ (inv_watch_nodup m I) He Hin).
    destruct (inv_stale m I _ _ _ He) as (cj & Hj & Hcl).
    rewrite Hl in Hj. inversion Hj; subst cj.
    destruct (Nat.eq_dec (addr s') (addr s)) as [E | E]; [ exact E | ].
    exfalso. assert (Hcls : closed (events m) s' = true).
    { apply (Hcl s Hs). congruence. }
    unfold running in Er. rewrite Hcls in Er.
    rewrite andb_false_r in Er. discriminate.
Qed.

End Watchers.

(* ===================================================================== *)
(** ** Connect on a connected record *)
(* ===================================================================== *)

(** C5.  A connect on a record that is connected succeeds and only
    refreshes [LastUsed]: the record keeps its configuration (the one
    supplied is not stored), its log source, its reconnect counters and
    every other field; no context is derived, no source is built and no
    event happens, so no watcher is started or stopped; and in every
    state the manager can reach, exactly one watcher of the server is
    running afterwards. *)
Theorem ConnectToServer_connected
    (m : LogwatcherManager) (serverID : UUID) (config : LogSourceConfig)
    (now later : Time) (conn : ServerLogConnection) :
  connections m !! serverID = Some conn ->
  Connected conn = true ->
  let m' := fst (ConnectToServer m serverID config now later) in
  snd (ConnectToServer m serverID config now later) = None /\
  (exists conn',
     connections m' = <[serverID := conn']> (connections m) /\
     LastUsed conn' = now /\
     ServerID conn' = ServerID conn /\
     LogSource conn' = LogSource conn /\
     Config conn' = Config conn /\
     EventStore conn' = EventStore conn /\
     Metrics conn' = Metrics conn /\
     Connected conn' = true /\
     cancel conn' = cancel conn /\
     reconnectAttempts conn' = reconnectAttempts conn /\
     lastReconnectTime conn' = lastReconnectTime conn) /\
  derived m' = derived m /\
  allocated m' = allocated m /\
  events m' = events m /\
  started_watchers m' = started_watchers m /\
  live_watchers m' serverID = live_watchers m serverID /\
  (reachable m -> live_watchers m' serverID = 1%nat).
Proof.
  intros Hl Hc m'.
  assert (E : ConnectToServer m serverID config now later
              = (store serverID (set_LastUsed now conn) m, None)).
  { unfold ConnectToServer. rewrite Hl, Hc. reflexivity. }
  subst m'. rewrite E. cbn [fst snd].
  split; [ reflexivity | ]. split.
  { exists (set_LastUsed now conn). cbn. rewrite Hc. repeat split. }
  do 5 (split; [ reflexivity | ]).
  intros R. apply reachable_Inv in R.
  assert (L : live_watchers (store serverID (set_LastUsed now conn) m) serverID
              = live_watchers m serverID) by reflexivity.
  rewrite L. exact (connected_one_watcher m serverID conn R Hl Hc).
Qed.

(** A second connect, with another configuration, on the connected
    record of [m_connected] succeeds. *)
Lemma ConnectToServer_connected_witness :
  connections m_connected !! server_a = Some conn_connected /\
  Connected conn_connected = true /\
  snd (ConnectToServer m_connected server_a (sftp_config (5 * Second))
         (950 * Second) (950 * Second)) = None.
Proof.
  assert (H1 : connections m_connected !! server_a = Some conn_connected)
    by (vm_compute; reflexivity).
  assert (H2 : Connected conn_connected = true) by reflexivity.
  split; [ exact H1 | ]. split; [ exact H2 | ].
  exact (proj1 (ConnectToServer_connected m_connected server_a
                  (sftp_config (5 * Second)) (950 * Second) (950 * Second)
                  conn_connected H1 H2)).
Defined.

(** That second connect leaves the configuration of the first connect
    in place, and one watcher, started once and still running. *)
Example connect_twice :
  let m' := fst (ConnectToServer m_connected server_a
                   (sftp_config (5 * Second)) (950 * Second)
                   (950 * Second)) in
  GetServerConnectionStatus m' server_a
  = inl (mkStatus true local_config (950 * Second)) /\
  started_watchers m' = 1%nat /\
  live_watchers m' server_a = 1%nat.
Proof. vm_compute. repeat split; reflexivity. Qed.

(* ===================================================================== *)
(** ** Further properties of connect and disconnect *)
(* ===================================================================== *)

Section Outcomes.

(** A failure of construction is an invalid configuration. *)
Lemma createLogSource_inr config e :
  createLogSource config = inr e -> MissingRequired config /\ InvalidConfig e.
Proof.
  intros H. pose proof (createLogSource_cases config) as C.
  rewrite H in C. exact C.
Qed.

Lemma createLogSource_inl config call :
  createLogSource config = inl call -> ~ MissingRequired config.
Proof.
  intros H. pose proof (createLogSource_cases config) as C.
  rewrite H in C. apply C.
Qed.

End Outcomes.

(** Every outcome of [ConnectToServer] and when it occurs.  The call
    succeeds on a connected record, and on a missing record or a
    disconnected record past its backoff delay when the configuration is
    complete.  It fails with the reconnect-delayed error on a
    disconnected record within its delay, whatever the configuration,
    and the error carries the delay less the time elapsed when the
    clock is read again after the test of the gate;
    with a reconnect failure wrapping an invalid-configuration error on
    a disconnected record past its delay; and with a create failure
    wrapping an invalid-configuration error when there is no record.
    It returns no other error. *)
Theorem ConnectToServer_outcome
    (m : LogwatcherManager) (serverID : UUID) (config : LogSourceConfig)
    (now later : Time) :
  match snd (ConnectToServer m serverID config now later) with
  | None =>
      (exists conn,
         connections m !! serverID = Some conn /\ Connected conn = true) \/
      ((connections m !! serverID = None \/
        exists conn,
          connections m !! serverID = Some conn /\ Connected conn = false /\
          gate_open now conn) /\
       ~ MissingRequired config)
  | Some (ErrReconnectDelayed remainingDelay) =>
      exists conn,
        connections m !! serverID = Some conn /\ Connected conn = false /\
        ~ gate_open now conn /\
        remainingDelay
        = int_sub (calculateReconnectDelay (reconnectAttempts conn))
            (time_Since later (lastReconnectTime conn))
  | Some (ErrReconnectFailed cause) =>
      exists conn,
        connections m !! serverID = Some conn /\ Connected conn = false /\
        gate_open now conn /\ MissingRequired config /\ InvalidConfig cause
  | Some (ErrCreateFailed cause) =>
      connections m !! serverID = None /\
      MissingRequired config /\ InvalidConfig cause
  | Some _ => False
  end.
Proof.
  unfold ConnectToServer, gate_open.
  destruct (connections m !! serverID) as [conn | ] eqn:Hl.
  - destruct (Connected conn) eqn:Hc; cbn [negb].
    { cbn. left. exists conn. split; [ reflexivity | exact Hc ]. }
    destruct (Z.ltb_spec (time_Since now (lastReconnectTime conn))
                (calculateReconnectDelay (reconnectAttempts conn)))
      as [Hlt | Hge].
    { cbn. exists conn. repeat split; try assumption. lia. }
    destruct (createLogSource config) as [call | e] eqn:Hs; cbn.
    + right. split; [ | exact (createLogSource_inl _ _ Hs) ].
      right. exists conn. repeat split; assumption.
    + destruct (createLogSource_inr _ _ Hs) as [Hm Hi].
      exists conn. repeat split; assumption.
  - destruct (createLogSource config) as [call | e] eqn:Hs; cbn.
    + right. split; [ left; reflexivity | exact (createLogSource_inl _ _ Hs) ].
    + destruct (createLogSource_inr _ _ Hs) as [Hm Hi].
      repeat split; assumption.
Qed.

(** A call on one server leaves the records of all other servers as
    they are; this holds for connect, for disconnect and for the writes
    of a watcher. *)
Theorem other_records_untouched
    (m : LogwatcherManager) (serverID other : UUID)
    (config : LogSourceConfig) (now later : Time) (s : SourceObj) :
  serverID <> other ->
  connections (fst (ConnectToServer m serverID config now later)) !! other
  = connections m !! other /\
  connections (fst (DisconnectFromServer m serverID)) !! other
  = connections m !! other /\
  connections (watchLogs_lost m serverID s) !! other
  = connections m !! other /\
  connections (watchLogs_line m serverID now) !! other
  = connections m !! other.
Proof.
  intros Hne. repeat split.
  - unfold ConnectToServer.
    destruct (connections m !! serverID) as [conn | ].
    + destruct (Connected conn); cbn [negb].
      { cbn. by rewrite lookup_insert_ne. }
      destruct (_ <? _); [ reflexivity | ].
      destruct (createLogSource config); cbn.
      * rewrite connections_close_source. cbn. by rewrite lookup_insert_ne.
      * by rewrite lookup_insert_ne.
    + destruct (createLogSource config); cbn; [ | reflexivity ].
      by rewrite lookup_insert_ne.
  - unfold DisconnectFromServer.
    destruct (connections m !! serverID) as [conn | ]; [ | reflexivity ].
    destruct (Connected conn); cbn; [ | reflexivity ].
    rewrite connections_close_source. cbn. by rewrite lookup_insert_ne.
  - unfold watchLogs_lost.
    destruct (connections m !! serverID) as [conn | ]; [ | reflexivity ].
    cbn. by rewrite lookup_insert_ne.
  - unfold watchLogs_line.
    destruct (connections m !! serverID) as [conn | ]; [ | reflexivity ].
    cbn. by rewrite lookup_insert_ne.
Qed.

(** A connect for a server without a record leaves the record of
    [server_a] in [m_backoff] as it is. *)
Lemma other_records_untouched_witness :
  2%N <> server_a /\
  connections
    (fst (ConnectToServer m_backoff 2%N local_config (1001 * Second)
            (1001 * Second)))
  !! server_a
  = connections m_backoff !! server_a.
Proof.
  assert (H : 2%N <> server_a) by discriminate.
  split; [ exact H | ].
  exact (proj1 (other_records_untouched m_backoff 2%N server_a local_config
                  (1001 * Second) (1001 * Second)
                  (mkSource 0 (NewLocalFileSource "")) H)).
Defined.

(** A connect that succeeds on a missing or a disconnected record
    installs the configuration it was given: the record is then
    connected with that configuration, used at the instant of the call,
    with no attempt counted, and the status query reports just that. *)
Theorem ConnectToServer_installs_config
    (m : LogwatcherManager) (serverID : UUID) (config : LogSourceConfig)
    (now later : Time) :
  connected m serverID = false ->
  snd (ConnectToServer m serverID config now later) = None ->
  let m' := fst (ConnectToServer m serverID config now later) in
  GetServerConnectionStatus m' serverID = inl (mkStatus true config now) /\
  exists conn',
    connections m' !! serverID = Some conn' /\
    reconnectAttempts conn' = 0 /\
    exists call,
      createLogSource config = inl call /\
      LogSource conn' = Some (mkSource (allocated m) call).
Proof.
  unfold connected, GetServerConnectionStatus, ConnectToServer.
  destruct (connections m !! serverID) as [conn | ] eqn:Hl.
  - intros Hc. rewrite Hc. cbn [negb].
    destruct (_ <? _); [ discriminate | ].
    destruct (createLogSource config) as [call | e]; [ | discriminate ].
    intros _. cbn. rewrite connections_close_source. cbn.
    rewrite lookup_insert_eq. split; [ reflexivity | ].
    eexists. split; [ reflexivity | ]. split; [ reflexivity | ].
    exists call. split; reflexivity.
  - intros _.
    destruct (createLogSource config) as [call | e]; [ | discriminate ].
    intros _. cbn. rewrite lookup_insert_eq. split; [ reflexivity | ].
    eexists. split; [ reflexivity | ]. split; [ reflexivity | ].
    exists call. split; reflexivity.
Qed.

(** On the disconnected record of [m_disconnected], a connect with the
    sftp configuration succeeds and installs it. *)
Lemma ConnectToServer_installs_config_witness :
  connected m_disconnected server_a = false /\
  snd (ConnectToServer m_disconnected server_a (sftp_config (5 * Second))
         (950 * Second) (950 * Second)) = None /\
  GetServerConnectionStatus
    (fst (ConnectToServer m_disconnected server_a (sftp_config (5 * Second))
            (950 * Second) (950 * Second))) server_a
  = inl (mkStatus true (sftp_config (5 * Second)) (950 * Second)).
Proof.
  assert (H1 : connected m_disconnected server_a = false)
    by (vm_compute; reflexivity).
  assert (H2 : snd (ConnectToServer m_disconnected server_a
                      (sftp_config (5 * Second)) (950 * Second)
                      (950 * Second)) = None)
    by (vm_compute; reflexivity).
  split; [ exact H1 | ]. split; [ exact H2 | ].
  exact (proj1 (ConnectToServer_installs_config m_disconnected server_a
                  (sftp_config (5 * Second)) (950 * Second) (950 * Second)
                  H1 H2)).
Defined.

(** A reconnect that fails in construction counts an attempt and stamps
    the instant, and touches nothing else: the record keeps its source,
    which is not closed, and its configuration.  From then on, and until
    the delay of the new attempt count has elapsed, every connect is
    refused, even one whose configuration is complete, and leaves the
    state as it is.  The refusal carries the delay less the time elapsed
    at its second reading of the clock; when that reading is not before
    the first, this is the exact difference and at most what remained
    at the first. *)
Theorem failed_reconnect_starts_backoff
    (m : LogwatcherManager) (serverID : UUID) (config config' : LogSourceConfig)
    (now later now' later' : Time) (conn : ServerLogConnection) (e : error) :
  connections m !! serverID = Some conn ->
  Connected conn = false ->
  gate_open now conn ->
  createLogSource config = inr e ->
  0 <= reconnectAttempts conn <= 30 ->
  now <= now' ->
  now' - now < Z.min (5 * Second * 2 ^ reconnectAttempts conn) (60 * Second) ->
  let m1 := fst (ConnectToServer m serverID config now later) in
  let delay := Z.min (5 * Second * 2 ^ reconnectAttempts conn) (60 * Second) in
  snd (ConnectToServer m serverID config now later)
  = Some (ErrReconnectFailed e) /\
  connections m1
  = <[serverID := set_lastReconnectTime now
                    (set_reconnectAttempts (reconnectAttempts conn + 1) conn)]>
      (connections m) /\
  events m1 = events m /\
  ConnectToServer m1 serverID config' now' later'
  = (m1, Some (ErrReconnectDelayed (int_sub delay (time_Since later' now)))) /\
  (now' <= later' -> later' - now <= maxInt64 ->
   int_sub delay (time_Since later' now) = delay - (later' - now) /\
   delay - (later' - now) <= delay - (now' - now)).
Proof.
  intros Hl Hc Hg Hs Ha Hn Hw m1 delay.
  assert (Hadd : int_add (reconnectAttempts conn) 1 = reconnectAttempts conn + 1).
  { unfold int_add, wrap64. rewrite Z.mod_small; lia. }
  assert (E : ConnectToServer m serverID config now later
              = (store serverID
                   (set_lastReconnectTime now
                      (set_reconnectAttempts (reconnectAttempts conn + 1) conn))
                   m,
                 Some (ErrReconnectFailed e))).
  { unfold ConnectToServer. rewrite Hl, Hc. cbn [negb].
    unfold gate_open in Hg.
    destruct (Z.ltb_spec (time_Since now (lastReconnectTime conn))
                (calculateReconnectDelay (reconnectAttempts conn)));
      [ lia | ].
    rewrite Hs, Hadd. reflexivity. }
  assert (Hdelay : 0 < delay <= 60 * Second).
  { subst delay.
    assert (0 < 2 ^ reconnectAttempts conn) by (apply Z.pow_pos_nonneg; lia).
    unfold Second in *. lia. }
  subst m1. rewrite E. cbn [fst snd].
  split; [ reflexivity | ]. split; [ reflexivity | ].
  split; [ reflexivity | ]. split.
  - unfold ConnectToServer. rewrite lookup_store_eq. cbn.
    rewrite Hc. cbn [negb].
    assert (Hd : calculateReconnectDelay (reconnectAttempts conn + 1) = delay).
    { rewrite calculateReconnectDelay_small by lia.
      subst delay. do 3 f_equal. lia. }
    rewrite Hd.
    assert (Hel : time_Since now' now = now' - now).
    { unfold time_Since, time_Sub, minInt64, maxInt64.
      unfold Second in Hdelay. fold delay in Hw. lia. }
    rewrite Hel. fold delay in Hw.
    destruct (Z.ltb_spec (now' - now) delay); [ reflexivity | lia ].
  - intros Hlater Hfit.
    assert (Hel : time_Since later' now = later' - now).
    { unfold time_Since, time_Sub, minInt64. unfold maxInt64 in *. lia. }
    rewrite Hel. split; [ | lia ].
    unfold int_sub, wrap64. unfold Second in Hdelay. unfold maxInt64 in Hfit.
    rewrite Z.mod_small; lia.
Qed.

(** On the disconnected record of [m_disconnected], a reconnect with the
    empty configuration fails at 1000 s; at 1002 s a connect with a
    complete configuration is refused, and reading the clock again one
    millisecond later it reports 2.999 s as remaining. *)
Lemma failed_reconnect_starts_backoff_witness :
  ConnectToServer
    (fst (ConnectToServer m_disconnected server_a empty_config
            (1000 * Second) (1000 * Second)))
    server_a local_config (1002 * Second) (1002 * Second + Millisecond)
  = (fst (ConnectToServer m_disconnected server_a empty_config
            (1000 * Second) (1000 * Second)),
     Some (ErrReconnectDelayed (2999 * Millisecond))).
Proof.
  assert (H1 : connections m_disconnected !! server_a = Some conn_disconnected)
    by (vm_compute; reflexivity).
  assert (H2 : Connected conn_disconnected = false) by reflexivity.
  assert (H3 : gate_open (1000 * Second) conn_disconnected)
    by (vm_compute; discriminate).
  assert (H4 : createLogSource empty_config
               = inr (errors_New "file path is required for local log source"))
    by reflexivity.
  assert (H5 : 0 <= reconnectAttempts conn_disconnected <= 30)
    by (simpl; lia).
  assert (H6 : 1000 * Second <= 1002 * Second) by (unfold Second; lia).
  assert (H7 : 1002 * Second - 1000 * Second
               < Z.min (5 * Second * 2 ^ reconnectAttempts conn_disconnected)
                   (60 * Second))
    by (vm_compute; reflexivity).
  exact (proj1 (proj2 (proj2 (proj2
           (failed_reconnect_starts_backoff m_disconnected server_a
              empty_config local_config (1000 * Second) (1000 * Second)
              (1002 * Second) (1002 * Second + Millisecond)
              conn_disconnected _ H1 H2 H3 H4 H5 H6 H7))))).
Defined.

Section Records.

Lemma record_wf_insert (conns : gmap UUID ServerLogConnection) serverID conn :
  (forall i c, conns !! i = Some c -> record_wf i c) ->
  record_wf serverID conn ->
  forall i c, <[serverID := conn]> conns !! i = Some c -> record_wf i c.
Proof.
  intros Hm Hc i c Hl. destruct (decide (serverID = i)) as [<- | Hne].
  - rewrite lookup_insert_eq in Hl. inversion Hl; subst. exact Hc.
  - rewrite lookup_insert_ne in Hl by exact Hne. eauto.
Qed.

End Records.

Lemma reachable_wf (m : LogwatcherManager) :
  reachable m ->
  forall serverID conn,
    connections m !! serverID = Some conn -> record_wf serverID conn.
Proof.
  intros R.
  induction R as [ | m i config now later _ IH | m i _ IH
                 | m c0 i s _ IH _ _ | m c0 i s now _ IH _ ].
  - intros j c H. cbn in H. rewrite lookup_empty in H. discriminate.
  - unfold ConnectToServer.
    destruct (connections m !! i) as [conn | ] eqn:Hl.
    + destruct (IH _ _ Hl) as (W1 & W2 & W3 & W4).
      destruct (Connected conn) eqn:Hc; cbn [negb].
      { cbn [fst store connections]. apply record_wf_insert; [ exact IH | ].
        repeat split; cbn; auto. }
      destruct (_ <? _); [ exact IH | ].
      destruct (createLogSource config) as [call | e]; cbn [fst].
      * cbn [alloc_source LogSource set_lastReconnectTime
               set_reconnectAttempts].
        destruct (LogSource conn) eqn:Es;
          cbn [close_source emit store connections];
          (apply record_wf_insert; [ exact IH | ]);
          repeat split; cbn; auto; try congruence.
      * cbn [store connections]. apply record_wf_insert; [ exact IH | ].
        repeat split; cbn; auto; try congruence.
    + destruct (createLogSource config) as [call | e]; [ | exact IH ].
      cbn [alloc_source context_WithCancel fst emit store connections].
      apply record_wf_insert; [ exact IH | ].
      repeat split; cbn; auto; try congruence.
  - unfold DisconnectFromServer.
    destruct (connections m !! i) as [conn | ] eqn:Hl; [ | exact IH ].
    destruct (IH _ _ Hl) as (W1 & W2 & W3 & W4).
    destruct (Connected conn) eqn:Hc; cbn [negb fst]; [ | exact IH ].
    destruct (LogSource conn) eqn:Es;
      cbn [close_source emit store connections];
      (apply record_wf_insert; [ exact IH | ]);
      repeat split; cbn; auto; try congruence.
  - unfold watchLogs_lost.
    destruct (connections m !! i) as [conn | ] eqn:Hl; [ | exact IH ].
    destruct (IH _ _ Hl) as (W1 & W2 & W3 & W4).
    cbn [emit store connections].
    apply record_wf_insert; [ exact IH | ].
    repeat split; cbn; auto; try congruence.
  - unfold watchLogs_line.
    destruct (connections m !! i) as [conn | ] eqn:Hl; [ | exact IH ].
    destruct (IH _ _ Hl) as (W1 & W2 & W3 & W4).
    cbn [store connections].
    apply record_wf_insert; [ exact IH | ].
    repeat split; cbn; auto.
Qed.

(** In every state the manager reaches, a record carries the id it is
    filed under and the event store of that id, its log source is not
    nil, and a connected record has no reconnect attempt counted. *)
Theorem reachable_record_wf
    (m : LogwatcherManager) (serverID : UUID) (conn : ServerLogConnection) :
  reachable m ->
  connections m !! serverID = Some conn ->
  record_wf serverID conn.
Proof. intros R. exact (reachable_wf m R serverID conn). Qed.

(** The record of [m_reconnected] is well formed. *)
Lemma reachable_record_wf_witness : record_wf server_a conn_reconnected.
Proof.
  pose (m := fst (ConnectToServer
                    (fst (DisconnectFromServer
                            (fst (ConnectToServer NewLogwatcherManager
                                    server_a local_config (900 * Second)
                                    (900 * Second)))
                            server_a))
                    server_a local_config (1000 * Second) (1000 * Second))).
  assert (R : reachable m).
  { apply reach_connect, reach_disconnect, reach_connect, reach_new. }
  assert (H : connections m !! server_a = Some conn_reconnected)
    by (vm_compute; reflexivity).
  exact (reachable_record_wf m server_a conn_reconnected R H).
Defined.

(* ===================================================================== *)
(** ** The log watcher in the request handlers *)
(* ===================================================================== *)

Section Handlers.

(** The errors of [DisconnectFromServer] are the two that
    [ServerLogwatcherRestart] lets pass. *)
Lemma disconnect_never_failed Duration_String m serverID :
  disconnect_failed Duration_String (snd (DisconnectFromServer m serverID))
  = false.
Proof.
  unfold DisconnectFromServer.
  destruct (connections m !! serverID) as [conn | ];
    [ destruct (Connected conn) | ]; reflexivity.
Qed.

(** The elapsed time since an instant not in the future is not
    negative. *)
Lemma time_Since_nonneg now t : t <= now -> 0 <= time_Since now t.
Proof. unfold time_Since, time_Sub, minInt64, maxInt64. lia. Qed.

End Handlers.

(** [ServerLogwatcherRestart] never answers that the disconnect failed:
    the only errors [DisconnectFromServer] returns are the two the
    handler lets pass, so the restart always goes on to the connect.
    Its answer is a success exactly when there is a configuration and
    that connect succeeds. *)
Theorem restart_response
    (Duration_String : Duration -> string) (m : LogwatcherManager)
    (server : ServerLog) (now later : Time) :
  snd (ServerLogwatcherRestart Duration_String m server now later)
  <> BadRequest "Failed to disconnect from log watcher" /\
  (snd (ServerLogwatcherRestart Duration_String m server now later)
   = Success "Log watcher restarted successfully" <->
   exists config,
     log_config server = Some config /\
     snd (ConnectToServer
            (fst (DisconnectFromServer m (Id (base server))))
            (Id (base server)) config now later) = None).
Proof.
  unfold ServerLogwatcherRestart.
  destruct (log_config server) as [config | ].
  - pose proof (disconnect_never_failed Duration_String m (Id (base server)))
      as Hd.
    destruct (DisconnectFromServer m (Id (base server))) as [m1 err].
    cbn [fst snd] in *. rewrite Hd.
    destruct (ConnectToServer m1 (Id (base server)) config now later)
      as [m2 [e | ]] eqn:Hc; cbn [fst snd].
    + split; [ discriminate | ]. split; [ discriminate | ].
      intros (c & Hcfg & He). inversion Hcfg; subst c.
      rewrite Hc in He. discriminate.
    + split; [ discriminate | ]. split; [ | reflexivity ].
      intros _. exists config. rewrite Hc. split; reflexivity.
  - cbn [snd]. split; [ discriminate | ]. split; [ discriminate | ].
    intros (c & Hc & _). discriminate.
Qed.

(** A restart of a connected server, in a state the manager reaches and
    with a clock that has not gone back.  With a complete configuration
    it succeeds and the server is connected with the configuration of
    the request; the old source has then been closed twice, once by the
    disconnect and once by the reconnect, and the new watcher runs on
    the root context.  With a configuration that construction rejects
    it answers that the reconnect failed and leaves the server
    disconnected, with its old configuration. *)
Theorem restart_of_connected
    (Duration_String : Duration -> string) (m : LogwatcherManager)
    (server : ServerLog) (now later : Time) (config : LogSourceConfig)
    (conn : ServerLogConnection) (s : SourceObj) :
  reachable m ->
  log_config server = Some config ->
  connections m !! Id (base server) = Some conn ->
  Connected conn = true ->
  LogSource conn = Some s ->
  lastReconnectTime conn <= now ->
  let r := ServerLogwatcherRestart Duration_String m server now later in
  match createLogSource config with
  | inl call =>
      snd r = Success "Log watcher restarted successfully" /\
      GetServerConnectionStatus (fst r) (Id (base server))
      = inl (mkStatus true config now) /\
      events (fst r)
      = EvWatch rootCtx (Id (base server)) (mkSource (allocated m) call)
        :: EvClose s :: EvClose s :: EvCancel (cancel conn) :: events m
  | inr _ =>
      snd r = BadRequest "Failed to reconnect to log watcher" /\
      GetServerConnectionStatus (fst r) (Id (base server))
      = inl (mkStatus false (Config conn) (LastUsed conn)) /\
      events (fst r) = EvClose s :: EvCancel (cancel conn) :: events m
  end.
Proof.
  intros R Hcfg Hl Hc Hs Ht r. subst r.
  destruct (reachable_wf m R _ _ Hl) as (_ & _ & _ & Ha).
  specialize (Ha Hc).
  unfold ServerLogwatcherRestart. rewrite Hcfg.
  rewrite (DisconnectFromServer_connected m _ conn Hl Hc).
  cbn [disconnect_failed]. rewrite Hs. cbn [close_source].
  unfold ConnectToServer. rewrite lookup_store_eq.
  cbn [Connected set_Connected negb reconnectAttempts lastReconnectTime].
  rewrite Ha. change (calculateReconnectDelay 0) with 0.
  pose proof (time_Since_nonneg now _ Ht) as Hn.
  destruct (Z.ltb_spec (time_Since now (lastReconnectTime conn)) 0);
    [ lia | ].
  unfold GetServerConnectionStatus.
  destruct (createLogSource config) as [call | e].
  - cbn. rewrite Hs. cbn. rewrite lookup_insert_eq.
    split; [ reflexivity | ]. split; reflexivity.
  - cbn. rewrite lookup_insert_eq.
    split; [ reflexivity | ]. split; reflexivity.
Qed.

(** A restart of the connected server of [m_connected] with the sftp
    configuration succeeds. *)
Lemma restart_of_connected_witness :
  snd (ServerLogwatcherRestart (fun _ => "") m_connected sftp_server
         (950 * Second) (950 * Second))
  = Success "Log watcher restarted successfully" /\
  GetServerConnectionStatus
    (fst (ServerLogwatcherRestart (fun _ => "") m_connected sftp_server
            (950 * Second) (950 * Second))) server_a
  = inl (mkStatus true (sftp_config (5 * Second)) (950 * Second)).
Proof.
  assert (R : reachable m_connected) by apply reach_connect, reach_new.
  assert (H1 : log_config sftp_server = Some (sftp_config (5 * Second)))
    by reflexivity.
  assert (H2 : connections m_connected !! Id (base sftp_server)
               = Some conn_connected) by (vm_compute; reflexivity).
  assert (H3 : Connected conn_connected = true) by reflexivity.
  assert (H4 : LogSource conn_connected
               = Some (mkSource 0 (NewLocalFileSource "/srv/squad/SquadGame.log")))
    by reflexivity.
  assert (H5 : lastReconnectTime conn_connected <= 950 * Second)
    by (vm_compute; discriminate).
  pose proof (restart_of_connected (fun _ => "") m_connected sftp_server
                (950 * Second) (950 * Second) _ _ _ R H1 H2 H3 H4 H5) as T.
  cbv zeta in T. change (createLogSource (sftp_config (5 * Second)))
    with (@inl SourceCall error
            (NewSFTPSource "10.0.0.7" 22 "squad" "secret"
               "/srv/squad/SquadGame.log" (5 * Second) false)) in T.
  split; [ exact (proj1 T) | exact (proj1 (proj2 T)) ].
Defined.

(** The log watcher step of [ServerUpdate] on a connected server.  When
    the updated server has a log configuration, the connection goes on
    with the configuration it had: the new one is not applied, only the
    time of last use is refreshed.  When the configuration was removed,
    the server is disconnected and its record is kept. *)
Theorem update_of_connected
    (m : LogwatcherManager) (server : ServerLog) (now later : Time)
    (conn : ServerLogConnection) :
  connections m !! Id (base server) = Some conn ->
  Connected conn = true ->
  GetServerConnectionStatus (ServerUpdate_logwatcher m server now later)
    (Id (base server))
  = match log_config server with
    | Some _ => inl (mkStatus true (Config conn) now)
    | None => inl (mkStatus false (Config conn) (LastUsed conn))
    end.
Proof.
  intros Hl Hc. unfold ServerUpdate_logwatcher, GetServerConnectionStatus.
  destruct (log_config server) as [config | ].
  - unfold ConnectToServer. rewrite Hl, Hc. cbn.
    rewrite lookup_insert_eq. cbn. rewrite Hc. reflexivity.
  - rewrite (DisconnectFromServer_connected m _ conn Hl Hc). cbn [fst].
    unfold store. cbn [connections]. rewrite lookup_insert_eq. reflexivity.
Qed.

(** An update of the connected server of [m_connected] to the sftp
    configuration leaves the local configuration running. *)
Lemma update_of_connected_witness :
  GetServerConnectionStatus
    (ServerUpdate_logwatcher m_connected sftp_server (950 * Second)
       (950 * Second)) server_a
  = inl (mkStatus true local_config (950 * Second)).
Proof.
  assert (H2 : connections m_connected !! Id (base sftp_server)
               = Some conn_connected) by (vm_compute; reflexivity).
  assert (H3 : Connected conn_connected = true) by reflexivity.
  exact (update_of_connected m_connected sftp_server (950 * Second)
           (950 * Second) conn_connected H2 H3).
Defined.

(* ===================================================================== *)
(** ** Source types in the probe, in construction and in the update *)
(* ===================================================================== *)

Section SourceTypes.

Lemma consult_manager_SourceType manager server includeLogProbe st :
  SourceType (consult_manager manager server includeLogProbe st)
  = SourceType st.
Proof.
  unfold consult_manager.
  destruct manager as [m | ]; [ | reflexivity ].
  destruct (GetServerConnectionStatus m (Id server)) as [cs | e];
    [ | reflexivity ].
  destruct (status_Connected cs), (Healthy st), includeLogProbe; reflexivity.
Qed.

Lemma mapProbeErrorReason_supported LowerCase err :
  mapProbeErrorReason LowerCase (Some err) <> "unsupported_source_type".
Proof.
  pose proof (mapProbeErrorReason_In LowerCase err) as H. intros E. rewrite E in H.
  simpl in H.
  repeat (destruct H as [H | H]; [ discriminate H | ]). exact H.
Qed.

Lemma probeLocal_supported w filePath st :
  Reason (probeLocalLogTransport w filePath st) <> "unsupported_source_type".
Proof.
  unfold probeLocalLogTransport.
  destruct (os_Stat w filePath) as [info | e];
    [ | apply mapProbeErrorReason_supported ].
  destruct (IsDir info); [ discriminate | ].
  destruct (os_Open w filePath);
    [ apply mapProbeErrorReason_supported | ].
  destruct (file_Read w filePath) as [e | ]; [ | discriminate ].
  destruct (negb (is_EOF e));
    [ apply mapProbeErrorReason_supported | discriminate ].
Qed.

Lemma probeSFTP_supported w server filePath st :
  Reason (probeSFTPLogTransport w server filePath st)
  <> "unsupported_source_type".
Proof.
  unfold probeSFTPLogTransport.
  destruct (_ || _); [ discriminate | ].
  destruct (ssh_Dial _ _ _ _ _); [ apply mapProbeErrorReason_supported | ].
  destruct (sftp_NewClient _ _ _); [ apply mapProbeErrorReason_supported | ].
  destruct (sftp_Stat _ _);
    [ apply mapProbeErrorReason_supported | discriminate ].
Qed.

Lemma probeFTP_supported w server filePath st :
  Reason (probeFTPLogTransport w server filePath st)
  <> "unsupported_source_type".
Proof.
  unfold probeFTPLogTransport.
  destruct (_ || _); [ discriminate | ].
  destruct (ftp_Dial _ _ _); [ apply mapProbeErrorReason_supported | ].
  destruct (ftp_Login _ _ _); [ apply mapProbeErrorReason_supported | ].
  destruct (ftp_FileSize _ _);
    [ apply mapProbeErrorReason_supported | discriminate ].
Qed.

Lemma known_type_dec t :
  known_type t <->
  (String.eqb t "local" || String.eqb t "sftp" || String.eqb t "ftp") = true.
Proof.
  unfold known_type. rewrite !orb_true_iff, !String.eqb_eq. tauto.
Qed.

(** Construction answers with the unsupported-type error exactly for the
    types that are not one of the three words. *)
Lemma createLogSource_unsupported config :
  ~ known_type (Type_ config) ->
  createLogSource config = inr (ErrUnsupportedType (Type_ config)).
Proof.
  unfold known_type, createLogSource, LogSourceTypeLocal, LogSourceTypeSFTP,
    LogSourceTypeFTP.
  intros H.
  destruct (String.eqb_spec (Type_ config) "local"); [ tauto | ].
  destruct (String.eqb_spec (Type_ config) "sftp"); [ tauto | ].
  destruct (String.eqb_spec (Type_ config) "ftp"); [ tauto | ].
  reflexivity.
Qed.

Lemma createLogSource_known config e :
  known_type (Type_ config) -> createLogSource config = inr e ->
  exists msg, e = errors_New msg.
Proof.
  unfold createLogSource, LogSourceTypeLocal, LogSourceTypeSFTP,
    LogSourceTypeFTP.
  intros [H | [H | H]]; rewrite H; cbn;
    repeat match goal with
           | |- context [if ?b then _ else _] => destruct b
           end;
    intros E; inversion E; eauto.
Qed.

Lemma probeLocal_SourceType w filePath st :
  SourceType (probeLocalLogTransport w filePath st) = SourceType st.
Proof.
  unfold probeLocalLogTransport.
  destruct (os_Stat w filePath) as [info | e]; [ | reflexivity ].
  destruct (IsDir info); [ reflexivity | ].
  destruct (os_Open w filePath); [ reflexivity | ].
  destruct (file_Read w filePath) as [e | ]; [ | reflexivity ].
  destruct (negb (is_EOF e)); reflexivity.
Qed.

Lemma probeSFTP_SourceType w server filePath st :
  SourceType (probeSFTPLogTransport w server filePath st) = SourceType st.
Proof.
  unfold probeSFTPLogTransport.
  destruct (_ || _); [ reflexivity | ].
  destruct (ssh_Dial _ _ _ _ _); [ reflexivity | ].
  destruct (sftp_NewClient _ _ _); [ reflexivity | ].
  destruct (sftp_Stat _ _); reflexivity.
Qed.

Lemma probeFTP_SourceType w server filePath st :
  SourceType (probeFTPLogTransport w server filePath st) = SourceType st.
Proof.
  unfold probeFTPLogTransport.
  destruct (_ || _); [ reflexivity | ].
  destruct (ftp_Dial _ _ _); [ reflexivity | ].
  destruct (ftp_Login _ _ _); [ reflexivity | ].
  destruct (ftp_FileSize _ _); reflexivity.
Qed.

Lemma unsupported_reason_iff w manager server :
  Reason (testLogTransportFunctionality w manager server true)
  = "unsupported_source_type"
  <-> trimmedStringPtr (LogSourceType_ server) <> "" /\
      trimmedStringPtr (LogFilePath server) <> "" /\
      ~ known_type
          (strings_ToLower (unicode_LowerCase w)
             (trimmedStringPtr (LogSourceType_ server))).
Proof.
  unfold testLogTransportFunctionality, buildBaseLogTransportStatus.
  destruct (is_empty (trimmedStringPtr (LogSourceType_ server))) eqn:Et.
  { cbn. apply is_empty_true in Et. split; [ discriminate | tauto ]. }
  destruct (is_empty (trimmedStringPtr (LogFilePath server))) eqn:Ep.
  { cbn. apply is_empty_true in Ep. split; [ discriminate | tauto ]. }
  apply is_empty_false in Et, Ep.
  cbn [orb Enabled negb]. rewrite consult_manager_SourceType.
  cbn [SourceType].
  set (t := strings_ToLower (unicode_LowerCase w)
              (trimmedStringPtr (LogSourceType_ server))).
  unfold LogSourceTypeLocal, LogSourceTypeSFTP, LogSourceTypeFTP, known_type.
  destruct (String.eqb_spec t "local") as [E | N1].
  { split; [ intros H; exfalso; exact (probeLocal_supported _ _ _ H) | tauto ]. }
  destruct (String.eqb_spec t "sftp") as [E | N2].
  { split; [ intros H; exfalso; exact (probeSFTP_supported _ _ _ _ H) | tauto ]. }
  destruct (String.eqb_spec t "ftp") as [E | N3].
  { split; [ intros H; exfalso; exact (probeFTP_supported _ _ _ _ H) | tauto ]. }
  split; [ intros _; tauto | reflexivity ].
Qed.


End SourceTypes.

(** With the probe requested, the status names the source type as
    unsupported exactly when the server has a source type and a file
    path that are not blank and the source type, trimmed and in lower
    case, is not one of [local], [sftp], [ftp].  Blank, trimming and
    lower case are those of [strings.TrimSpace] and [strings.ToLower]:
    all of Unicode's white space and letters count. *)
Theorem unsupported_source_type_iff
    (w : World) (manager : option LogwatcherManager) (server : Server) :
  Reason (testLogTransportFunctionality w manager server true)
  = "unsupported_source_type"
  <-> trimmedStringPtr (LogSourceType_ server) <> "" /\
      trimmedStringPtr (LogFilePath server) <> "" /\
      ~ known_type
          (strings_ToLower (unicode_LowerCase w)
             (trimmedStringPtr (LogSourceType_ server))).
Proof. apply unsupported_reason_iff. Qed.

(** A source type that is one of the three words only after trimming
    and lower-casing is probed as that transport: for a server that
    has a file path, the status with the probe requested is the result
    of the probe of the transport the normalised type names, run on
    the status that carries the normalised type and the verdict of the
    manager.  Construction compares the type as it is written and
    rejects it whatever the other fields: such a server can be probed
    but never connected. *)
Theorem probed_but_not_constructed
    (w : World) (manager : option LogwatcherManager) (server : Server)
    (config : LogSourceConfig) (t : string) :
  known_type (strings_ToLower (unicode_LowerCase w) (strings_TrimSpace t)) ->
  ~ known_type t ->
  LogSourceType_ server = Some t ->
  trimmedStringPtr (LogFilePath server) <> "" ->
  Type_ config = t ->
  let sourceType :=
    strings_ToLower (unicode_LowerCase w) (strings_TrimSpace t) in
  let filePath := trimmedStringPtr (LogFilePath server) in
  let status :=
    consult_manager manager server true (mkLTS true sourceType false "") in
  testLogTransportFunctionality w manager server true
  = (if String.eqb sourceType "local" then
       probeLocalLogTransport w filePath status
     else if String.eqb sourceType "sftp" then
       probeSFTPLogTransport w server filePath status
     else probeFTPLogTransport w server filePath status) /\
  SourceType (testLogTransportFunctionality w manager server true)
  = sourceType /\
  Reason (testLogTransportFunctionality w manager server true)
  <> "unsupported_source_type" /\
  createLogSource config = inr (ErrUnsupportedType t).
Proof.
  intros Hk Hn Hs Hp Ht sourceType filePath status.
  assert (Hne : strings_TrimSpace t <> "").
  { intros E. rewrite E in Hk.
    destruct Hk as [H | [H | H]]; discriminate H. }
  assert (E : testLogTransportFunctionality w manager server true
              = (if String.eqb sourceType "local" then
                   probeLocalLogTransport w filePath status
                 else if String.eqb sourceType "sftp" then
                   probeSFTPLogTransport w server filePath status
                 else probeFTPLogTransport w server filePath status)).
  { unfold testLogTransportFunctionality, buildBaseLogTransportStatus.
    rewrite Hs. cbn [trimmedStringPtr].
    apply is_empty_false in Hne, Hp. rewrite Hne, Hp.
    cbn [orb Enabled negb]. rewrite consult_manager_SourceType.
    cbn [SourceType]. fold sourceType filePath status.
    unfold LogSourceTypeLocal, LogSourceTypeSFTP, LogSourceTypeFTP.
    destruct (String.eqb_spec sourceType "local"); [ reflexivity | ].
    destruct (String.eqb_spec sourceType "sftp"); [ reflexivity | ].
    destruct (String.eqb_spec sourceType "ftp"); [ reflexivity | ].
    exfalso. unfold known_type in Hk. fold sourceType in Hk. tauto. }
  split; [ exact E | ]. split; [ | split ].
  - rewrite E.
    assert (Hst : SourceType status = sourceType)
      by (subst status; apply consult_manager_SourceType).
    destruct (String.eqb sourceType "local");
      [ | destruct (String.eqb sourceType "sftp") ].
    + rewrite probeLocal_SourceType. exact Hst.
    + rewrite probeSFTP_SourceType. exact Hst.
    + rewrite probeFTP_SourceType. exact Hst.
  - rewrite unsupported_reason_iff. rewrite Hs. cbn [trimmedStringPtr].
    tauto.
  - rewrite <- Ht in Hn |- *. exact (createLogSource_unsupported config Hn).
Qed.

(** The source type [SFTP], in capitals, is probed as sftp, here with
    success, and rejected by construction. *)
Lemma probed_but_not_constructed_witness :
  testLogTransportFunctionality quiet_world None
    (server_of_type "SFTP" "/srv/squad/SquadGame.log") true
  = mkLTS true "sftp" true "" /\
  createLogSource
    (mkConfig "SFTP" "/srv/squad/SquadGame.log" "10.0.0.7" 22 "squad" "secret"
       0 false)
  = inr (ErrUnsupportedType "SFTP").
Proof.
  assert (H1 : known_type
                 (strings_ToLower (unicode_LowerCase quiet_world)
                    (strings_TrimSpace "SFTP")))
    by (right; left; reflexivity).
  assert (H2 : ~ known_type "SFTP")
    by (intros [H | [H | H]]; discriminate H).
  assert (H3 : trimmedStringPtr
                 (LogFilePath
                    (server_of_type "SFTP" "/srv/squad/SquadGame.log"))
               <> "") by discriminate.
  pose proof (probed_but_not_constructed quiet_world None
                (server_of_type "SFTP" "/srv/squad/SquadGame.log")
                (mkConfig "SFTP" "/srv/squad/SquadGame.log" "10.0.0.7" 22
                   "squad" "secret" 0 false)
                "SFTP" H1 H2 eq_refl H3 eq_refl) as T.
  cbv zeta in T.
  split; [ exact (eq_trans (proj1 T) eq_refl)
         | exact (proj2 (proj2 (proj2 T))) ].
Defined.

(** What [ServerUpdate] stores as log source type after its
    normalisation is the requested type as [strings.TrimSpace] trims
    it, and one of the three words: construction never answers
    it with the unsupported-type error, and the probe never reports it
    as unsupported.  A request without a type, or with a blank one,
    stores none. *)
Theorem normalized_type_is_known
    (requested : option string) (t : string) :
  normalize_LogSourceType requested = inl (Some t) ->
  known_type t /\
  (exists v, requested = Some v /\ t = strings_TrimSpace v) /\
  (forall config e,
     Type_ config = t -> createLogSource config = inr e ->
     exists msg, e = errors_New msg) /\
  (forall w manager server,
     LogSourceType_ server = Some t ->
     Reason (testLogTransportFunctionality w manager server true)
     <> "unsupported_source_type").
Proof.
  unfold normalize_LogSourceType.
  destruct requested as [v | ]; [ | discriminate ].
  destruct (String.eqb (strings_TrimSpace v) ""); [ discriminate | ].
  destruct (_ || _) eqn:Hk; [ | discriminate ].
  intros E. inversion E; subst t. apply known_type_dec in Hk.
  split; [ exact Hk | ]. split; [ exists v; split; reflexivity | ]. split.
  - intros config e Ht. rewrite <- Ht in Hk.
    exact (createLogSource_known config e Hk).
  - intros w manager server Hs. rewrite unsupported_reason_iff, Hs.
    cbn [trimmedStringPtr].
    assert (Hfix : strings_ToLower (unicode_LowerCase w)
                     (strings_TrimSpace (strings_TrimSpace v))
                   = strings_TrimSpace v
                   /\ known_type (strings_TrimSpace v)).
    { destruct Hk as [H | [H | H]]; rewrite H; split;
        try reflexivity; unfold known_type; tauto. }
    destruct Hfix as [Hfix Hk']. rewrite Hfix. tauto.
Qed.

(** The request type [" sftp "] is stored as [sftp]. *)
Lemma normalized_type_is_known_witness :
  normalize_LogSourceType (Some " sftp ") = inl (Some "sftp") /\
  known_type "sftp".
Proof.
  assert (H : normalize_LogSourceType (Some " sftp ") = inl (Some "sftp"))
    by reflexivity.
  split; [ exact H | ].
  exact (proj1 (normalized_type_is_known (Some " sftp ") "sftp" H)).
Defined.

(* ===================================================================== *)
(** ** Further properties of the status probe *)
(* ===================================================================== *)

Section Substrings.

Lemma prefix_spec (a b : string) :
  String.prefix a b = true <-> exists after, b = (a ++ after)%string.
Proof.
  revert b. induction a as [ | c a IH]; intros b.
  - split; [ intros _; exists b; reflexivity | ].
    intros _. destruct b; reflexivity.
  - destruct b as [ | d b]; simpl.
    + split; [ discriminate | intros (x & H); discriminate ].
    + destruct (Ascii.ascii_dec c d) as [-> | Hne].
      * rewrite IH. split; intros (x & H); exists x.
        -- rewrite H. reflexivity.
        -- inversion H. reflexivity.
      * split; [ discriminate | ]. intros (x & H).
        change (String c a +:+ x) with (String c (a +:+ x)) in H.
        congruence.
Qed.

Lemma append_cons c (a x : string) :
  (String c a ++ x)%string = String c (a ++ x)%string.
Proof. reflexivity. Qed.

Lemma append_nil (x : string) : ("" ++ x)%string = x.
Proof. reflexivity. Qed.

(** [strings_Contains] decides the substring relation. *)
Lemma strings_Contains_spec (s word : string) :
  strings_Contains s word = true <->
  exists before after, s = (before ++ word ++ after)%string.
Proof.
  induction s as [ | c s IH]; cbn [strings_Contains].
  - destruct (String.prefix word "") eqn:P.
    + apply prefix_spec in P. destruct P as (x & H).
      split; [ intros _; exists "", x; exact H | reflexivity ].
    + split; [ discriminate | ].
      intros (b & a & H). destruct b as [ | c' b].
      * rewrite append_nil in H.
        assert (String.prefix word "" = true)
          by (apply prefix_spec; exists a; exact H).
        congruence.
      * rewrite append_cons in H. discriminate.
  - destruct (String.prefix word (String c s)) eqn:P.
    + apply prefix_spec in P. destruct P as (x & H).
      split; [ intros _; exists "", x; exact H | reflexivity ].
    + rewrite IH. split.
      * intros (b & a & H). exists (String c b), a.
        rewrite append_cons. congruence.
      * intros (b & a & H). destruct b as [ | c' b].
        -- rewrite append_nil in H.
           assert (String.prefix word (String c s) = true)
             by (apply prefix_spec; exists a; exact H).
           congruence.
        -- rewrite append_cons in H. exists b, a. congruence.
Qed.

Lemma mentions_spec LowerCase err word :
  strings_Contains (strings_ToLower LowerCase (Error err)) word = true
  <-> mentions LowerCase err word.
Proof. apply strings_Contains_spec. Qed.

End Substrings.

(** The reason given for a probe error goes by the words its text
    mentions once [strings.ToLower] has put it in lower case, whatever
    the case tables say of the letters outside ASCII, in a fixed order
    of precedence: a
    text that mentions [permission] or [denied] is a permission error
    whatever else it says; failing that, [auth], [login] or [password]
    make it an authentication failure; then [no such file], [not found]
    or [cannot find] a missing file; then [timeout] or
    [deadline exceeded] a timeout; then [refused], [unreachable] or
    [reset] a failed connection; a text with none of these words is a
    failed probe. *)
Theorem mapProbeErrorReason_precedence
    (LowerCase : N -> N) (err : GoError) :
  let mentions := mentions LowerCase in
  let reason := mapProbeErrorReason LowerCase (Some err) in
  let permission := mentions err "permission" \/ mentions err "denied" in
  let authentication :=
    mentions err "auth" \/ mentions err "login" \/ mentions err "password" in
  let missing :=
    mentions err "no such file" \/ mentions err "not found"
    \/ mentions err "cannot find" in
  let late := mentions err "timeout" \/ mentions err "deadline exceeded" in
  let connection :=
    mentions err "refused" \/ mentions err "unreachable"
    \/ mentions err "reset" in
  (reason = "permission_denied" <-> permission) /\
  (reason = "authentication_failed" <-> ~ permission /\ authentication) /\
  (reason = "log_file_not_found" <->
   ~ permission /\ ~ authentication /\ missing) /\
  (reason = "timeout" <->
   ~ permission /\ ~ authentication /\ ~ missing /\ late) /\
  (reason = "connection_failed" <->
   ~ permission /\ ~ authentication /\ ~ missing /\ ~ late /\ connection) /\
  (reason = "probe_failed" <->
   ~ permission /\ ~ authentication /\ ~ missing /\ ~ late /\ ~ connection).
Proof.
  cbv zeta. unfold mapProbeErrorReason.
  set (t := strings_ToLower LowerCase (Error err)).
  set (p := strings_Contains t "permission" || strings_Contains t "denied").
  set (a := strings_Contains t "auth" || strings_Contains t "login"
            || strings_Contains t "password").
  set (f := strings_Contains t "no such file"
            || strings_Contains t "not found"
            || strings_Contains t "cannot find").
  set (l := strings_Contains t "timeout"
            || strings_Contains t "deadline exceeded").
  set (c := strings_Contains t "refused" || strings_Contains t "unreachable"
            || strings_Contains t "reset").
  assert (Hp : mentions LowerCase err "permission" \/ mentions LowerCase err "denied"
               <-> p = true)
    by (subst p t; rewrite !orb_true_iff, !mentions_spec; tauto).
  assert (Ha : mentions LowerCase err "auth" \/ mentions LowerCase err "login"
               \/ mentions LowerCase err "password" <-> a = true)
    by (subst a t; rewrite !orb_true_iff, !mentions_spec; tauto).
  assert (Hf : mentions LowerCase err "no such file" \/ mentions LowerCase err "not found"
               \/ mentions LowerCase err "cannot find" <-> f = true)
    by (subst f t; rewrite !orb_true_iff, !mentions_spec; tauto).
  assert (Hl : mentions LowerCase err "timeout" \/ mentions LowerCase err "deadline exceeded"
               <-> l = true)
    by (subst l t; rewrite !orb_true_iff, !mentions_spec; tauto).
  assert (Hc : mentions LowerCase err "refused" \/ mentions LowerCase err "unreachable"
               \/ mentions LowerCase err "reset" <-> c = true)
    by (subst c t; rewrite !orb_true_iff, !mentions_spec; tauto).
  rewrite Hp, Ha, Hf, Hl, Hc. clear Hp Ha Hf Hl Hc.
  clearbody p a f l c.
  destruct p, a, f, l, c; repeat split; intros;
    try discriminate; intuition congruence.
Qed.

(** Without a probe request the status is made from the server and the
    manager alone; no external operation is consulted (of the world
    only the case tables are read).  A server whose source type or file
    path is nil or blank, that is empty once [strings.TrimSpace] has
    trimmed it, is not configured.  Otherwise the transport is enabled,
    its type is given trimmed and as [strings.ToLower] puts it in lower
    case, and it is healthy exactly when the manager holds a
    connected record for the server; a record that is not connected
    gives the reason [logwatcher_disconnected], and no manager or no
    record the reason [probe_not_requested]. *)
Theorem status_without_probe
    (w : World) (manager : option LogwatcherManager) (server : Server) :
  testLogTransportFunctionality w manager server false
  = if is_empty (trimmedStringPtr (LogSourceType_ server))
       || is_empty (trimmedStringPtr (LogFilePath server))
    then mkLTS false "" false "not_configured"
    else
      mkLTS true
        (strings_ToLower (unicode_LowerCase w)
           (trimmedStringPtr (LogSourceType_ server)))
        (fst (connection_verdict manager (Id server)))
        (snd (connection_verdict manager (Id server))).
Proof.
  unfold testLogTransportFunctionality, buildBaseLogTransportStatus,
    consult_manager, connection_verdict, GetServerConnectionStatus.
  destruct (_ || _); [ reflexivity | ].
  cbn [Enabled negb].
  destruct manager as [m | ]; [ | reflexivity ].
  destruct (connections m !! Id server) as [conn | ]; [ | reflexivity ].
  cbn. destruct (Connected conn); reflexivity.
Qed.

Section Probes.

Lemma unhealthy_frame reason st st' :
  Enabled st = Enabled st' -> SourceType st = SourceType st' ->
  unhealthy reason st = unhealthy reason st'.
Proof. unfold unhealthy, set_Reason, set_Healthy. cbn. congruence. Qed.

Lemma healthy_frame st st' :
  Enabled st = Enabled st' -> SourceType st = SourceType st' ->
  healthy st = healthy st'.
Proof. unfold healthy, set_Reason, set_Healthy. cbn. congruence. Qed.

Lemma consult_manager_Enabled manager server includeLogProbe st :
  Enabled (consult_manager manager server includeLogProbe st) = Enabled st.
Proof.
  unfold consult_manager.
  destruct manager as [m | ]; [ | reflexivity ].
  destruct (GetServerConnectionStatus m (Id server)) as [cs | e];
    [ | reflexivity ].
  destruct (status_Connected cs), (Healthy st), includeLogProbe; reflexivity.
Qed.

End Probes.

(** With a probe request the status does not depend on the manager: the
    verdict of the probe replaces whatever the state of the connection
    would have said, so a server whose watcher is connected is reported
    unhealthy when the probe fails, and the other way round. *)
Theorem probe_overrides_manager
    (w : World) (manager manager' : option LogwatcherManager)
    (server : Server) :
  testLogTransportFunctionality w manager server true
  = testLogTransportFunctionality w manager' server true.
Proof.
  unfold testLogTransportFunctionality.
  destruct (negb (Enabled (buildBaseLogTransportStatus (unicode_LowerCase w)
                             server)));
    [ reflexivity | ].
  cbn [negb]. rewrite !consult_manager_SourceType.
  set (st := consult_manager manager server true _).
  set (st' := consult_manager manager' server true _).
  assert (HE : Enabled st = Enabled st')
    by (subst st st'; rewrite !consult_manager_Enabled; reflexivity).
  assert (HS : SourceType st = SourceType st')
    by (subst st st'; rewrite !consult_manager_SourceType; reflexivity).
  clearbody st st'.
  unfold probeLocalLogTransport, probeSFTPLogTransport, probeFTPLogTransport.
  repeat match goal with
         | |- context [match ?x with _ => _ end] =>
             lazymatch x with
             | context [match _ with _ => _ end] => fail
             | _ => destruct x
             end
         end;
    auto using unhealthy_frame, healthy_frame.
Qed.

(** The local probe is healthy exactly when the path can be inspected
    and is not a directory, the file can be opened, and reading one byte
    succeeds or meets the end of the file: an empty file is healthy. *)
Theorem probeLocalLogTransport_healthy_iff
    (w : World) (filePath : string) (st : logTransportStatus) :
  Healthy (probeLocalLogTransport w filePath st) = true
  <-> (exists info, os_Stat w filePath = inl info /\ IsDir info = false) /\
      os_Open w filePath = None /\
      (file_Read w filePath = None \/
       exists err, file_Read w filePath = Some err /\ is_EOF err = true).
Proof.
  unfold probeLocalLogTransport.
  destruct (os_Stat w filePath) as [info | e].
  2:{ cbn. split; [ discriminate | ]. intros ((i & H & _) & _). discriminate. }
  destruct (IsDir info) eqn:Hd.
  { cbn. split; [ discriminate | ].
    intros ((i & H & Hi) & _). inversion H; subst. congruence. }
  destruct (os_Open w filePath) as [e | ].
  { cbn. split; [ discriminate | ]. intros (_ & H & _). discriminate. }
  destruct (file_Read w filePath) as [e | ].
  - destruct (is_EOF e) eqn:He; cbn.
    + split; [ intros _ | reflexivity ].
      split; [ exists info; split; [ reflexivity | exact Hd ] | ].
      split; [ reflexivity | ]. right. exists e. split; [ reflexivity | exact He ].
    + split; [ discriminate | ].
      intros (_ & _ & [H | (e' & H & H')]); [ discriminate | ].
      inversion H; subst. congruence.
  - cbn. split; [ intros _ | reflexivity ].
    split; [ exists info; split; [ reflexivity | exact Hd ] | ].
    split; [ reflexivity | left; reflexivity ].
Qed.

(** A remote probe is healthy exactly when host, user name and password
    are not blank, that is not empty once [strings.TrimSpace] has
    trimmed them, and its three operations succeed in turn.  The port
    dialled is the configured one when it is positive and the default of
    the protocol, 22 for sftp and 21 for ftp, when it is nil, zero or
    negative. *)
Theorem remote_probe_healthy_iff
    (w : World) (server : Server) (filePath : string)
    (st : logTransportStatus) :
  let host := trimmedStringPtr (LogHost server) in
  let username := trimmedStringPtr (LogUsername server) in
  let password := trimmedStringPtr (LogPassword server) in
  let port default :=
    match LogPort server with
    | Some p => if 0 <? p then p else default
    | None => default
    end in
  (Healthy (probeSFTPLogTransport w server filePath st) = true
   <-> host <> "" /\ username <> "" /\ password <> "" /\
       ssh_Dial w host (port 22) username password = None /\
       sftp_NewClient w host (port 22) = None /\
       sftp_Stat w filePath = None) /\
  (Healthy (probeFTPLogTransport w server filePath st) = true
   <-> host <> "" /\ username <> "" /\ password <> "" /\
       ftp_Dial w host (port 21) = None /\
       ftp_Login w username password = None /\
       ftp_FileSize w filePath = None).
Proof.
  cbv zeta.
  assert (Hport : forall d, probe_port d (LogPort server)
                            = match LogPort server with
                              | Some p => if 0 <? p then p else d
                              | None => d
                              end).
  { intros d. unfold probe_port. destruct (LogPort server) as [p | ];
      [ | reflexivity ].
    rewrite Z.gtb_ltb. reflexivity. }
  unfold probeSFTPLogTransport, probeFTPLogTransport.
  rewrite !Hport.
  destruct (is_empty (trimmedStringPtr (LogHost server))) eqn:Eh.
  { apply is_empty_true in Eh. cbn. split; (split; [ discriminate | tauto ]). }
  destruct (is_empty (trimmedStringPtr (LogUsername server))) eqn:Eu.
  { apply is_empty_true in Eu. cbn. split; (split; [ discriminate | tauto ]). }
  destruct (is_empty (trimmedStringPtr (LogPassword server))) eqn:Ep.
  { apply is_empty_true in Ep. cbn. split; (split; [ discriminate | tauto ]). }
  apply is_empty_false in Eh, Eu, Ep. cbn [orb].
  split.
  - destruct (ssh_Dial _ _ _ _ _);
      [ cbn; split; [ discriminate | intros (_ & _ & _ & H & _); discriminate ] | ].
    destruct (sftp_NewClient _ _ _);
      [ cbn; split; [ discriminate | intros (_ & _ & _ & _ & H & _); discriminate ] | ].
    destruct (sftp_Stat _ _);
      [ cbn; split; [ discriminate | intros (_ & _ & _ & _ & _ & H); discriminate ] | ].
    cbn. split; [ intros _; repeat split; assumption | reflexivity ].
  - destruct (ftp_Dial _ _ _);
      [ cbn; split; [ discriminate | intros (_ & _ & _ & H & _); discriminate ] | ].
    destruct (ftp_Login _ _ _);
      [ cbn; split; [ discriminate | intros (_ & _ & _ & _ & H & _); discriminate ] | ].
    destruct (ftp_FileSize _ _);
      [ cbn; split; [ discriminate | intros (_ & _ & _ & _ & _ & H); discriminate ] | ].
    cbn. split; [ intros _; repeat split; assumption | reflexivity ].
Qed.

(* ===================================================================== *)
(** ** Statistics, cleanup and shutdown *)
(* ===================================================================== *)

Section Statistics.

Lemma sum_counts_incr key (counts : gmap string Z) :
  sum_counts (incr key counts) = sum_counts counts + 1.
Proof.
  unfold sum_counts, incr.
  assert (Hcomm : forall (j1 j2 : string) (z1 z2 y : Z),
             z1 + (z2 + y) = z2 + (z1 + y)) by (intros; lia).
  destruct (counts !! key) as [n | ] eqn:Hk; cbn [default].
  - rewrite (map_fold_delete_L _ _ key n counts); [ | auto | exact Hk ].
    rewrite <- insert_delete_eq.
    rewrite map_fold_insert_L;
      [ unfold id; lia | auto | apply lookup_delete_eq ].
  - rewrite map_fold_insert_L; [ cbv beta; lia | auto | exact Hk ].
Qed.

Lemma stats_counted (conns : gmap UUID ServerLogConnection) :
  counted (map_fold (fun _ conn acc => stats_round conn acc) (0, 0, ∅) conns)
    conns.
Proof.
  apply (map_fold_weak_ind counted).
  - unfold counted. rewrite map_size_empty.
    do 4 (split; [ reflexivity || lia | ]).
    split; [ | reflexivity ].
    intros _ i conn H. rewrite lookup_empty in H. discriminate.
  - intros i conn m [[c d] st] Hi (H1 & H2 & H3 & H4 & H5).
    unfold counted, stats_round.
    rewrite map_size_insert_None by exact Hi.
    destruct (Connected conn) eqn:Hc.
    + rewrite sum_counts_incr.
      do 4 (split; [ lia | ]). split; [ lia | ].
      intros H. exfalso.
      specialize (H i conn (lookup_insert_eq _ _ _)). congruence.
    + rewrite sum_counts_incr.
      do 4 (split; [ lia | ]). split.
      * intros E j cj Hj. destruct (decide (i = j)) as [<- | Hne].
        -- rewrite lookup_insert_eq in Hj. inversion Hj; subst. exact Hc.
        -- rewrite lookup_insert_ne in Hj by exact Hne.
           exact (proj1 H5 E j cj Hj).
      * intros H. apply (proj2 H5). intros j cj Hj. apply (H j).
        rewrite lookup_insert_ne; [ exact Hj | ]. intros ->. congruence.
Qed.

End Statistics.

Section Counts.

Lemma GetConnectionStats_counts_aux (m : LogwatcherManager) :
  let st := GetConnectionStats m in
  total_connections st = Z.of_nat (size (connections m)) /\
  connected_connections st + disconnected_connections st
  = total_connections st /\
  sum_counts (source_types st) = total_connections st /\
  0 <= connected_connections st /\
  0 <= disconnected_connections st /\
  (connected_connections st = 0
   <-> forall serverID, connected m serverID = false).
Proof.
  cbv zeta. unfold GetConnectionStats.
  pose proof (stats_counted (connections m)) as H.
  destruct (map_fold _ _ _) as [[c d] st]. cbn.
  destruct H as (H1 & H2 & H3 & H4 & H5).
  do 5 (split; [ reflexivity || assumption | ]).
  rewrite H5. unfold connected. split.
  - intros H i. destruct (connections m !! i) as [conn | ] eqn:Hl;
      [ exact (H i conn Hl) | reflexivity ].
  - intros H i conn Hl. specialize (H i). rewrite Hl in H. exact H.
Qed.

End Counts.

(** The counts of [GetConnectionStats]: the total is the number of
    records, every record is counted once as connected or disconnected
    and once under its source type, and the connected count is zero
    exactly when no record is connected. *)
Theorem GetConnectionStats_counts (m : LogwatcherManager) :
  let st := GetConnectionStats m in
  total_connections st = Z.of_nat (size (connections m)) /\
  connected_connections st + disconnected_connections st
  = total_connections st /\
  sum_counts (source_types st) = total_connections st /\
  0 <= connected_connections st /\
  0 <= disconnected_connections st /\
  (connected_connections st = 0
   <-> forall serverID, connected m serverID = false).
Proof. exact (GetConnectionStats_counts_aux m). Qed.

Section Cleanup.

Lemma cancelled_app evs evs' c :
  cancelled (evs ++ evs') c = cancelled evs c || cancelled evs' c.
Proof. unfold cancelled. apply existsb_app. Qed.

Lemma closed_app evs evs' s :
  closed (evs ++ evs') s = closed evs s || closed evs' s.
Proof. unfold closed. apply existsb_app. Qed.

Lemma in_cleanup_events (m : LogwatcherManager) serverID conn e :
  connections m !! serverID = Some conn ->
  In e (cleanup_events conn) ->
  In e (flat_map (fun p => cleanup_events (snd p))
          (reverse (map_to_list (connections m)))).
Proof.
  intros Hl He. apply in_flat_map. exists (serverID, conn).
  split; [ | exact He ].
  apply list_elem_of_In, elem_of_reverse, elem_of_map_to_list. exact Hl.
Qed.

Lemma cancelled_In evs c : In (EvCancel c) evs -> cancelled evs c = true.
Proof.
  intros H. unfold cancelled. apply existsb_exists.
  exists (EvCancel c). split; [ exact H | apply Nat.eqb_refl ].
Qed.

Lemma closed_In evs s : In (EvClose s) evs -> closed evs s = true.
Proof.
  intros H. unfold closed. apply existsb_exists.
  exists (EvClose s). split; [ exact H | apply Nat.eqb_refl ].
Qed.

Lemma cleanup_events_none (conns : gmap UUID ServerLogConnection) :
  flat_map (fun p => cleanup_events (snd p))
    (reverse (map_to_list (set_Connected false <$> conns))) = [].
Proof.
  assert (H : forall l : list (UUID * ServerLogConnection),
             (forall p, In p l -> Connected (snd p) = false) ->
             flat_map (fun p => cleanup_events (snd p)) l = []).
  { induction l as [ | p l IH]; intros Hl; [ reflexivity | ].
    cbn [flat_map]. rewrite IH by (intros q Hq; apply Hl; right; exact Hq).
    unfold cleanup_events. rewrite (Hl p) by (left; reflexivity).
    reflexivity. }
  apply H. intros [i c] Hp.
  apply list_elem_of_In, elem_of_reverse, elem_of_map_to_list in Hp.
  rewrite lookup_fmap in Hp.
  destruct (conns !! i) as [c0 | ]; [ | discriminate ].
  inversion Hp. reflexivity.
Qed.

End Cleanup.

(** [cleanupAllConnections] keeps every record and only marks it
    disconnected.  Every record that was connected has had its cancel
    function called and its source closed.  Afterwards the statistics
    count no connected record and as many records as before, the
    metrics of no server are available, and a second cleanup changes
    nothing. *)
Theorem cleanupAllConnections_effect (m : LogwatcherManager) :
  let m' := cleanupAllConnections m in
  (forall serverID,
     connections m' !! serverID
     = set_Connected false <$> connections m !! serverID) /\
  (forall serverID conn,
     connections m !! serverID = Some conn -> Connected conn = true ->
     cancelled (events m') (cancel conn) = true /\
     forall s, LogSource conn = Some s -> closed (events m') s = true) /\
  connected_connections (GetConnectionStats m') = 0 /\
  disconnected_connections (GetConnectionStats m')
  = total_connections (GetConnectionStats m) /\
  (forall serverID, exists e, GetServerMetrics m' serverID = inr e) /\
  cleanupAllConnections m' = m'.
Proof.
  cbv zeta.
  assert (Hlook : forall i, connections (cleanupAllConnections m) !! i
                            = set_Connected false <$> connections m !! i).
  { intros i. unfold cleanupAllConnections. cbn [connections].
    apply lookup_fmap. }
  assert (Hnone : forall i, connected (cleanupAllConnections m) i = false).
  { intros i. unfold connected. rewrite Hlook.
    destruct (connections m !! i); reflexivity. }
  split; [ exact Hlook | ]. split.
  { intros i conn Hl Hc. unfold cleanupAllConnections. cbn [events].
    split.
    - rewrite cancelled_app. apply orb_true_iff. left.
      apply cancelled_In, (in_cleanup_events m i conn); [ exact Hl | ].
      unfold cleanup_events. rewrite Hc.
      destruct (LogSource conn); cbn; auto.
    - intros s Hs. rewrite closed_app. apply orb_true_iff. left.
      apply closed_In, (in_cleanup_events m i conn); [ exact Hl | ].
      unfold cleanup_events. rewrite Hc, Hs. left. reflexivity. }
  pose proof (GetConnectionStats_counts_aux (cleanupAllConnections m)) as S.
  pose proof (GetConnectionStats_counts_aux m) as S0.
  cbv zeta in S, S0.
  destruct S as (T1 & T2 & _ & _ & _ & T6).
  destruct S0 as (U1 & _).
  assert (Hz : connected_connections
                 (GetConnectionStats (cleanupAllConnections m)) = 0)
    by (apply T6; exact Hnone).
  split; [ exact Hz | ]. split.
  { rewrite U1. rewrite Hz in T2. rewrite T1 in T2.
    unfold cleanupAllConnections in T2 at 2. cbn [connections] in T2.
    rewrite map_size_fmap in T2. lia. }
  split.
  { intros i. unfold GetServerMetrics. rewrite Hlook.
    destruct (connections m !! i) as [conn | ]; cbn; eauto. }
  set (m' := cleanupAllConnections m).
  assert (Hc : connections m' = set_Connected false <$> connections m)
    by reflexivity.
  unfold cleanupAllConnections at 1. rewrite Hc at 2.
  rewrite cleanup_events_none. cbn [app].
  rewrite Hc, <- map_fmap_compose.
  assert (Hf : set_Connected false ∘ set_Connected false <$> connections m
               = connections m').
  { rewrite Hc. apply map_fmap_ext. intros i c _. reflexivity. }
  rewrite Hf. destruct m'. reflexivity.
Qed.

Section AfterShutdown.

Lemma live_watchers_none m serverID :
  cancelled (events m) rootCtx = true -> live_watchers m serverID = 0%nat.
Proof.
  intros H. unfold live_watchers.
  assert (Hf : forall evs l,
             cancelled evs rootCtx = true ->
             List.filter (is_running_watcher evs serverID) l = []).
  { intros evs l Hc. induction l as [ | e l IH]; [ reflexivity | ].
    cbn [List.filter]. rewrite IH.
    destruct e as [ | | c i s | ]; try reflexivity.
    cbn. unfold running, ctx_done. rewrite Hc, orb_true_r.
    cbn. rewrite andb_false_r. reflexivity. }
  rewrite Hf by exact H. reflexivity.
Qed.

Lemma cancelled_close_source evs s m c :
  events m = evs -> cancelled evs c = true ->
  cancelled (events (close_source s m)) c = true.
Proof.
  intros <- H. destruct s; cbn [close_source emit events]; [ | exact H ].
  rewrite cancelled_cons. exact H.
Qed.

Lemma cancelled_connect m serverID config now later c :
  cancelled (events m) c = true ->
  cancelled (events (fst (ConnectToServer m serverID config now later))) c = true.
Proof.
  intros H. unfold ConnectToServer.
  destruct (connections m !! serverID) as [conn | ].
  - destruct (Connected conn); cbn [negb]; [ exact H | ].
    destruct (_ <? _); [ exact H | ].
    destruct (createLogSource config); cbn [fst]; [ | exact H ].
    cbn [alloc_source emit store events fst]. rewrite cancelled_cons.
    cbn [orb].
    apply (cancelled_close_source (events m)); [ reflexivity | exact H ].
  - destruct (createLogSource config); cbn [fst]; [ | exact H ].
    cbn. exact H.
Qed.

End AfterShutdown.

(** [ConnectToServer] does not look at the root context.  After
    [Shutdown] no watcher of any server is running; a connect still
    succeeds as before and marks its record connected, but the watcher
    it starts is on a context that is already done, so still no watcher
    runs. *)
Theorem connect_after_shutdown
    (m : LogwatcherManager) (serverID : UUID) (config : LogSourceConfig)
    (now later : Time) :
  let m0 := Shutdown m in
  let r := ConnectToServer m0 serverID config now later in
  (forall other, live_watchers m0 other = 0%nat) /\
  snd r = snd (ConnectToServer m serverID config now later) /\
  (snd r = None -> connected (fst r) serverID = true) /\
  (forall other, live_watchers (fst r) other = 0%nat).
Proof.
  cbv zeta.
  assert (H0 : cancelled (events (Shutdown m)) rootCtx = true) by reflexivity.
  split; [ intros j; exact (live_watchers_none _ j H0) | ].
  split.
  { unfold ConnectToServer, Shutdown. cbn [emit connections].
    destruct (connections m !! serverID) as [conn | ].
    - destruct (Connected conn); cbn [negb]; [ reflexivity | ].
      destruct (_ <? _); [ reflexivity | ].
      destruct (createLogSource config); reflexivity.
    - destruct (createLogSource config); reflexivity. }
  split.
  { intros Hr.
    pose proof (connected_after_call serverID (Shutdown m)
                  (Connect config now later)) as Hc.
    cbn [call] in Hc. rewrite Hc, Hr. reflexivity. }
  intros j. apply live_watchers_none, cancelled_connect. exact H0.
Qed.

(* ===================================================================== *)
(** ** Connecting all servers of the catalog *)
(* ===================================================================== *)

Section Catalog.

Lemma connect_rows_app clock later k m rows rows' :
  connect_rows clock later k m (rows ++ rows')
  = connect_rows clock later (k + length rows) (connect_rows clock later k m rows) rows'.
Proof.
  revert k m. induction rows as [ | r rows IH]; intros k m.
  - cbn. rewrite Nat.add_0_r. reflexivity.
  - cbn [app connect_rows length].
    replace (k + S (length rows))%nat with (S k + length rows)%nat by lia.
    destruct r as [r | ]; [ destruct (row_config r) | ]; apply IH.
Qed.

Lemma connect_frame m serverID other config now later :
  serverID <> other ->
  connections (fst (ConnectToServer m serverID config now later)) !! other
  = connections m !! other.
Proof.
  intros Hne. unfold ConnectToServer.
  destruct (connections m !! serverID) as [conn | ].
  - destruct (Connected conn); cbn [negb].
    { cbn. by rewrite lookup_insert_ne. }
    destruct (_ <? _); [ reflexivity | ].
    destruct (createLogSource config); cbn.
    + rewrite connections_close_source. cbn. by rewrite lookup_insert_ne.
    + by rewrite lookup_insert_ne.
  - destruct (createLogSource config); cbn; [ | reflexivity ].
    by rewrite lookup_insert_ne.
Qed.

(** The rows of other servers leave a record as it is. *)
Lemma connect_rows_frame clock later k m rows serverID :
  forallb (fun r => negb (row_of serverID r)) rows = true ->
  connections (connect_rows clock later k m rows) !! serverID
  = connections m !! serverID.
Proof.
  revert k m. induction rows as [ | r rows IH]; intros k m H;
    [ reflexivity | ].
  cbn [forallb] in H. apply andb_true_iff in H. destruct H as [Hr H].
  cbn [connect_rows]. destruct r as [r | ]; [ | exact (IH _ _ H) ].
  destruct (row_config r) as [config | ]; [ | exact (IH _ _ H) ].
  rewrite IH by exact H. apply connect_frame.
  cbn [row_of] in Hr. apply negb_true_iff, N.eqb_neq in Hr. exact Hr.
Qed.

(** No round removes a record. *)
Lemma connect_rows_present clock later k m rows serverID :
  present m serverID = true ->
  present (connect_rows clock later k m rows) serverID = true.
Proof.
  revert k m. induction rows as [ | r rows IH]; intros k m H;
    [ exact H | ].
  cbn [connect_rows]. destruct r as [r | ]; [ | exact (IH _ _ H) ].
  destruct (row_config r) as [config | ]; [ | exact (IH _ _ H) ].
  apply IH.
  destruct (N.eq_dec (row_id r) serverID) as [E | Hne].
  - subst serverID.
    pose proof (present_after_call (row_id r) m (Connect config (clock k) (later k)))
      as Hp.
    cbn [call] in Hp. rewrite Hp, H. reflexivity.
  - unfold present in *. rewrite connect_frame by exact Hne. exact H.
Qed.

End Catalog.

(** [ConnectToAllServers] goes through every row whatever happens to
    the rows before it.  A row that names a server without a record,
    once in the whole result, and whose configuration is complete, ends
    with that server connected under the configuration of the row, at
    the clock reading of its round; rows that cannot be scanned, rows
    without source type or file path and rows whose connect fails do not
    stand in its way. *)
Theorem ConnectToAllServers_connects
    (m : LogwatcherManager) (clock later : nat -> Time)
    (before after : list (option LogRow)) (r : LogRow)
    (config : LogSourceConfig) :
  connections m !! row_id r = None ->
  row_config r = Some config ->
  ~ MissingRequired config ->
  forallb (fun x => negb (row_of (row_id r) x)) (before ++ after) = true ->
  GetServerConnectionStatus
    (ConnectToAllServers m (Some (before ++ Some r :: after)) clock later)
    (row_id r)
  = inl (mkStatus true config (clock (length before))).
Proof.
  intros Hl Hcfg Hok Hothers.
  rewrite forallb_app in Hothers. apply andb_true_iff in Hothers.
  destruct Hothers as [Hb Ha].
  unfold ConnectToAllServers, GetServerConnectionStatus.
  rewrite connect_rows_app. cbn [connect_rows Nat.add]. rewrite Hcfg.
  rewrite connect_rows_frame by exact Ha.
  set (m1 := connect_rows clock later 0 m before).
  assert (Hl1 : connections m1 !! row_id r = None).
  { subst m1. rewrite connect_rows_frame by exact Hb. exact Hl. }
  unfold ConnectToServer. rewrite Hl1.
  pose proof (createLogSource_cases config) as C.
  destruct (createLogSource config) as [call | e]; [ | tauto ].
  cbn. rewrite lookup_insert_eq. reflexivity.
Qed.

(** A result with a row that cannot be scanned, a row without file path
    and the local row: the server of the local row is connected at the
    reading of the third round. *)
Lemma ConnectToAllServers_connects_witness :
  GetServerConnectionStatus
    (ConnectToAllServers NewLogwatcherManager
       (Some ([None;
               Some (mkRow 2%N (Some "sftp") None None None None None None None)]
              ++ Some local_row :: []))
       (fun k => (900 + Z.of_nat k) * Second)
       (fun k => (900 + Z.of_nat k) * Second))
    server_a
  = inl (mkStatus true local_config (902 * Second)).
Proof.
  assert (H1 : connections NewLogwatcherManager !! row_id local_row = None)
    by reflexivity.
  assert (H2 : row_config local_row = Some local_config) by reflexivity.
  assert (H3 : ~ MissingRequired local_config).
  { intros [[_ H] | [[H _] | [[H _] | (H & _)]]];
      try discriminate H. apply H. reflexivity. }
  assert (H4 : forallb (fun x => negb (row_of (row_id local_row) x))
                 ([None;
                   Some (mkRow 2%N (Some "sftp") None None None None None
                           None None)] ++ []) = true) by reflexivity.
  exact (ConnectToAllServers_connects NewLogwatcherManager
           (fun k => (900 + Z.of_nat k) * Second)
           (fun k => (900 + Z.of_nat k) * Second) _ [] local_row local_config
           H1 H2 H3 H4).
Defined.

(** [ConnectToAllServers] never removes a record, and it leaves the
    record of a server as it is when no row names that server; when the
    query fails it changes nothing at all. *)
Theorem ConnectToAllServers_frame
    (m : LogwatcherManager) (clock later : nat -> Time)
    (rows : list (option LogRow)) (serverID : UUID) :
  ConnectToAllServers m None clock later = m /\
  (present m serverID = true ->
   present (ConnectToAllServers m (Some rows) clock later) serverID = true) /\
  (forallb (fun x => negb (row_of serverID x)) rows = true ->
   connections (ConnectToAllServers m (Some rows) clock later) !! serverID
   = connections m !! serverID).
Proof.
  split; [ reflexivity | ]. split.
  - apply connect_rows_present.
  - apply connect_rows_frame.
Qed.
